(** * Delete Unused Assets: a shallow embedding of [src/DeleteUnusedAssets.tsx]

    The component keeps a list of unused-asset candidates and a selection,
    scans the dataset through three read queries, filters the inventory and
    deletes the selected assets in batches.  The handlers of the component
    are embedded below as computations in a small monad that threads the
    React state and the trace of calls made to the outside (the Sanity
    client, the callbacks of the props, the console).

    Conventions of the model:
    - a handler is run to completion (big step); the React state after the
      handler is the state written by its [set...] calls;
    - a string is a list of code units below 256, one [ascii] each; the
      model itself reads the regular expressions whose source is made of
      ASCII characters without special meaning, [.] and [.*]; every other
      source is left to the engine of the platform, which compiles it or
      refuses it with a [SyntaxError]; what a pattern matches is stated
      for ASCII strings, where a character is one code unit in every
      encoding;
    - a callback of the props may return or throw; [handleDelete] and
      [scanForUnusedAssets] are the handlers for callbacks that return,
      [handleDelete_with] and [scanForUnusedAssets_with] the handlers for
      any callbacks;
    - byte sizes and counts are natural numbers (the doubles of the source
      are exact on them up to 2^53);
    - the status message is kept structured: [formatFileSize] goes through
      [Math.log] and [toFixed] and is left unapplied. *)

From Stdlib Require Import List String Ascii Bool Arith ZArith NArith Lia.
From Stdlib Require Import DecimalString.
Import ListNotations.

Local Open Scope string_scope.
Local Open Scope list_scope.
Local Open Scope nat_scope.

(* ================================================================= *)
(** ** The parts of the JavaScript platform the component uses *)

Module JS.

(** A value caught by [catch (error)]: an [Error] object with its message,
  or anything else. *)
Inductive Thrown : Type :=
| ErrorObject (message : string)
| NonError.

(** [error instanceof Error ? error.message : dflt] *)
Definition message_or (dflt : string) (error : Thrown) : string :=
match error with
| ErrorObject m => m
| NonError => dflt
end.

Inductive Result (A : Type) : Type :=
| Ok (a : A)
| Throw (error : Thrown).
Arguments Ok {A} a.
Arguments Throw {A} error.

(** [x || dflt] on an optional string: [undefined] and the empty string are
  both falsy. *)
Definition string_or (x : option string) (dflt : string) : string :=
match x with
| Some EmptyString => dflt
| Some s => s
| None => dflt
end.

(** [x || 0] on an optional number. *)
Definition number_or_0 (x : option N) : N :=
match x with
| Some n => n
| None => 0%N
end.

(** Template-literal rendering of a natural number. *)
Definition show_nat (n : nat) : string :=
NilEmpty.string_of_uint (Nat.to_uint n).

(** [arr.slice(from, to)] for [0 <= from <= to]. *)
Definition slice {A} (arr : list A) (from to : nat) : list A :=
firstn (to - from) (skipn from arr).

(** [arr.includes(x)] on strings. *)
Definition includes (arr : list string) (x : string) : bool :=
existsb (String.eqb x) arr.

(** *** [Set<string>]

  A set iterates in insertion order, and [Array.from] reads that order:
  a set is the list of its members, first insertion first. *)
Module StringSet.

Definition t := list string.

Definition empty : t := [].

Definition has (s : t) (x : string) : bool := includes s x.

Definition add (s : t) (x : string) : t :=
if has s x then s else s ++ [x].

Definition delete (s : t) (x : string) : t :=
filter (fun y => negb (String.eqb x y)) s.

(** [new Set(iterable)] *)
Definition of_list (l : list string) : t := fold_left add l empty.

Definition size (s : t) : nat := List.length s.

(** [Array.from(s)] *)
Definition to_array (s : t) : list string := s.

End StringSet.

(** *** Regular expressions

  The sources made of plain ASCII characters, [.] and [.*], compiled with
  the flag [i], and [regex.test(input)] for them.  A source with another
  syntax character, or with a code unit from 128 on, is outside this
  fragment: [compile] answers [None]. *)
Module RegExp.

Inductive item : Type :=
| Lit (c : ascii)       (* a plain character *)
| AnyChar               (* [.] *)
| AnyStar.              (* [.*] *)

Definition t := list item.

Definition syntax_characters : list ascii :=
list_ascii_of_string "\^$+?()[]{}|*".

Definition is_syntax_character (c : ascii) : bool :=
existsb (Ascii.eqb c) syntax_characters.

Definition dot : ascii := "."%char.
Definition star : ascii := "*"%char.

(** A code unit below 128. *)
Definition is_ascii (c : ascii) : bool := nat_of_ascii c <? 128.

Fixpoint parse (src : list ascii) : option t :=
match src with
| [] => Some []
| c :: rest =>
    if Ascii.eqb c dot then
      match rest with
      | c' :: rest' =>
          if Ascii.eqb c' star
          then option_map (cons AnyStar) (parse rest')
          else option_map (cons AnyChar) (parse rest)
      | [] => Some [AnyChar]
      end
    else if is_syntax_character c || negb (is_ascii c) then None
    else option_map (cons (Lit c)) (parse rest)
end.

Definition compile (source : string) : option t :=
parse (list_ascii_of_string source).

(** A source with a [(] and without [)], backslash and [[] opens a group
  that nothing closes: [new RegExp] throws a [SyntaxError] for it. *)
Definition unterminated_group (source : string) : bool :=
let src := list_ascii_of_string source in
existsb (Ascii.eqb "("%char) src
&& negb (existsb (fun c => Ascii.eqb c ")"%char || Ascii.eqb c "\"%char
                           || Ascii.eqb c "["%char) src).

(** Line terminators among the code units of a string of the model; [.]
  matches every other code unit. *)
Definition is_line_terminator (c : ascii) : bool :=
Ascii.eqb c "010"%char || Ascii.eqb c "013"%char.

(** Canonicalisation under the [i] flag, for the comparison with an ASCII
  character of the source: upper case of an ASCII letter.  (A code unit
  from 128 on is never canonicalised to one below 128.) *)
Definition canonicalize (c : ascii) : ascii :=
let n := nat_of_ascii c in
if (97 <=? n) && (n <=? 122) then ascii_of_nat (n - 32) else c.

Definition same_letter (a b : ascii) : bool :=
Ascii.eqb (canonicalize a) (canonicalize b).

(** Does [r] match a prefix of [s]? *)
Fixpoint match_here (r : t) (s : list ascii) {struct r} : bool :=
match r with
| [] => true
| Lit c :: r' =>
    match s with
    | x :: s' => same_letter c x && match_here r' s'
    | [] => false
    end
| AnyChar :: r' =>
    match s with
    | x :: s' => negb (is_line_terminator x) && match_here r' s'
    | [] => false
    end
| AnyStar :: r' =>
    (fix skip (s : list ascii) : bool :=
       match_here r' s
       || match s with
          | x :: s' => negb (is_line_terminator x) && skip s'
          | [] => false
          end) s
end.

(** Does [r] match at some position of [s]?  (No [g] or [y] flag: the
  search always starts at position 0.) *)
Fixpoint search (r : t) (s : list ascii) : bool :=
match_here r s
|| match s with
   | _ :: s' => search r s'
   | [] => false
   end.

Definition test (r : t) (input : string) : bool :=
search r (list_ascii_of_string input).

End RegExp.

(** [pattern.replace(/\*/g, '.*')] *)
Fixpoint replace_stars (pattern : string) : string :=
match pattern with
| EmptyString => EmptyString
| String c rest =>
    if Ascii.eqb c RegExp.star
    then String RegExp.dot (String RegExp.star (replace_stars rest))
    else String c (replace_stars rest)
end.

(** A [Date]: its time value in milliseconds, [None] for an invalid date. *)
Record Date : Type := { time_value : option Z }.

(** [a < b] on dates: a comparison with NaN is false. *)
Definition Date_lt (a b : Date) : bool :=
match time_value a, time_value b with
| Some x, Some y => (x <? y)%Z
| _, _ => false
end.

End JS.

(* ================================================================= *)
(** ** Data model *)

Import JS.

Inductive AssetType : Type :=
| sanity_imageAsset
| sanity_fileAsset.

Record AssetInfo : Type := {
  _id : string;
  _type : AssetType;
  originalFilename : option string;
  url : string;
  size : option N;
  mimeType : string;
  _createdAt : string;
  _updatedAt : string;
  extension : option string
}.

(** The members of [assetTypes]. *)
Inductive AssetKind : Type := image | file.

Definition AssetKind_eqb (a b : AssetKind) : bool :=
  match a, b with
  | image, image | file, file => true
  | _, _ => false
  end.

(** The argument of [onComplete]. *)
Record CleanupResult : Type := {
  deleted : nat;
  savedSpace : N;
  errors : list string
}.

(** *** The Sanity client

    The three read queries of the scan, by what distinguishes them; the
    rows they project. *)
Inductive Query : Type :=
| allAssetsQuery (typeFilter : string) (maxAssets : nat)
| referencedAssetsQuery (typeFilter : string)
| complexRefsQuery.

Record ReferencedDoc : Type := {
  referencedAssets : option (list string)
}.

Record ComplexDoc : Type := {
  complexRefs : option (list (option string));
  contentRefs : option (list (option string));
  blockRefs : option (list (option string))
}.

(** The client is the outside world: what each query answers, and whether
    the n-th [client.transaction()] and the n-th [transaction.commit()] of
    a run throw (counted from 0). *)
Record SanityClient : Type := {
  fetch_allAssets : string -> nat -> Result (list AssetInfo);
  fetch_referencedAssets : string -> Result (list ReferencedDoc);
  fetch_complexRefs : Result (list ComplexDoc);
  transaction_throws : nat -> option Thrown;
  commit_throws : nat -> list string -> option Thrown
}.

Record DeleteUnusedAssetsProps : Type := {
  client : SanityClient;
  assetTypes : list AssetKind;
  olderThan : option Date;
  excludePatterns : list string;
  onComplete : bool;           (* is a handler given? *)
  onError : bool;              (* is a handler given? *)
  batchSize : nat;
  dryRun : bool;
  maxAssets : nat
}.

(** What the handlers given as [onComplete] and [onError] do when they
    are called with an argument: return, or throw. *)
Record Callbacks : Type := {
  onComplete_throws : CleanupResult -> option Thrown;
  onError_throws : string -> option Thrown
}.

(** Callbacks that return. *)
Definition returning : Callbacks := {|
  onComplete_throws := fun _ => None;
  onError_throws := fun _ => None
|}.

(** What a handler does to the outside, in order. *)
Inductive Event : Type :=
| Fetch (query : Query)
| Transaction                          (* [client.transaction()] *)
| Commit (ids : list string)           (* [commit()] of the deletes of [ids] *)
| OnComplete (results : CleanupResult)
| OnError (error : string)
| ConsoleLog (batch : list string)
| ConsoleError (error : Thrown).

Definition is_mutating_call (e : Event) : bool :=
  match e with
  | Transaction | Commit _ => true
  | _ => false
  end.

Definition is_transaction (e : Event) : bool :=
  match e with Transaction => true | _ => false end.

Definition is_commit (e : Event) : bool :=
  match e with Commit _ => true | _ => false end.

(** The status message, before [formatFileSize] and string interpolation. *)
Inductive Message : Type :=
| NoMessage
| MsgScanning
| MsgFetchingAll
| MsgCheckingReferences
| MsgCheckingComplex
| MsgIdentifying
| MsgFound (count : nat) (bytes : N)
| MsgScanError (errorMessage : string)
| MsgDeletedSoFar (deletedCount total : nat)
| MsgDryRun (deletedCount : nat) (savedSpace : N)
| MsgDeleted (deletedCount : nat) (savedSpace : N) (errors : nat)
| MsgDeleteError (errorMessage : string).

Inductive FilterType : Type := filter_all | filter_image | filter_file.

(** The [useState] cells of the component. *)
Record State : Type := {
  unusedAssets : list AssetInfo;
  selectedAssets : StringSet.t;
  isScanning : bool;
  isDeleting : bool;
  showConfirmDialog : bool;
  scanProgress : nat;
  message : Message;
  filterType : FilterType;
  filterSize : string;
  filterAge : string;
  totalAssets : nat;
  totalSize : N
}.

Definition initialState : State := {|
  unusedAssets := [];
  selectedAssets := StringSet.empty;
  isScanning := false;
  isDeleting := false;
  showConfirmDialog := false;
  scanProgress := 0;
  message := NoMessage;
  filterType := filter_all;
  filterSize := EmptyString;
  filterAge := EmptyString;
  totalAssets := 0;
  totalSize := 0%N
|}.

(** What the component takes from the platform without the source saying
    how it is computed. *)
Class Platform : Type := {
  (** [new Date(s)] *)
  Date_new : string -> Date;
  (** [bytes > parseFloat(filterSize) * 1024 * 1024], in doubles *)
  above_megabytes : N -> string -> bool;
  (** [d = new Date(); d.setDate(d.getDate() - parseInt(filterAge))] at the
      clock reading [now] *)
  days_ago : Z -> string -> Date;
  (** [new RegExp(source, 'i')] for a source that [JS.RegExp] does not
      read: what [test] of the regular expression answers, or [None] when
      the engine refuses the source with a [SyntaxError] *)
  RegExp_engine : string -> option (string -> bool);
  (** the message of the [SyntaxError] for a source *)
  SyntaxError_message : string -> string
}.

(** A regular expression object, by the one method the component calls. *)
Record RegExpObject : Type := { RegExp_test : string -> bool }.

(** [new RegExp(source, 'i')] *)
Definition RegExp_new {platform : Platform} (source : string)
    : Result RegExpObject :=
  match RegExp.compile source with
  | Some regex => Ok {| RegExp_test := RegExp.test regex |}
  | None =>
      if RegExp.unterminated_group source
      then Throw (ErrorObject (SyntaxError_message source))
      else
        match RegExp_engine source with
        | Some accepts => Ok {| RegExp_test := accepts |}
        | None => Throw (ErrorObject (SyntaxError_message source))
        end
  end.

(* ================================================================= *)
(** ** The handler monad

    A handler reads and writes the state cells and talks to the outside.
    [None] is a run the model does not follow to its end: a loop out of
    fuel. *)

Record World : Type := {
  state : State;
  trace : list Event
}.

Definition M (A : Type) : Type := World -> option (Result A * World).

Definition ret {A} (a : A) : M A := fun w => Some (Ok a, w).

Definition bind {A B} (m : M A) (k : A -> M B) : M B :=
  fun w =>
    match m w with
    | None => None
    | Some (Ok a, w') => k a w'
    | Some (Throw e, w') => Some (Throw e, w')
    end.

Declare Scope handler_scope.
Delimit Scope handler_scope with handler.
Notation "x <- m ;; k" := (bind m (fun x => k))
  (at level 61, m at next level, right associativity) : handler_scope.
Notation "m ;; k" := (bind m (fun _ => k))
  (at level 61, right associativity) : handler_scope.
Local Open Scope handler_scope.

(** A loop that has used up its fuel. *)
Definition out_of_fuel {A} : M A := fun _ => None.

(** The value of an expression that may throw. *)
Definition lift_result {A} (r : Result A) : M A := fun w => Some (r, w).

(** [try { body } catch (error) { handler error }] *)
Definition try_catch {A} (body : M A) (handler : Thrown -> M A) : M A :=
  fun w =>
    match body w with
    | Some (Throw e, w') => handler e w'
    | r => r
    end.

(** [try { body } finally { fin }] *)
Definition try_finally {A} (body : M A) (fin : M unit) : M A :=
  fun w =>
    match body w with
    | None => None
    | Some (r, w') =>
        match fin w' with
        | None => None
        | Some (Ok _, w'') => Some (r, w'')
        | Some (Throw e, w'') => Some (Throw e, w'')
        end
    end.

Definition modify (f : State -> State) : M unit :=
  fun w => Some (Ok tt, {| state := f (state w); trace := trace w |}).

Definition emit (e : Event) : M unit :=
  fun w => Some (Ok tt, {| state := state w; trace := trace w ++ [e] |}).

(** [handler?.(argument)]: the call [e], which ends as [outcome] says. *)
Definition call_optional (given : bool) (e : Event) (outcome : option Thrown)
    : M unit :=
  if given
  then fun w => Some (match outcome with
                      | None => Ok tt
                      | Some error => Throw error
                      end,
                      {| state := state w; trace := trace w ++ [e] |})
  else ret tt.

(** [for (let i = from; i < to; i += step) acc = body i acc] *)
Fixpoint for_loop {A} (fuel : nat) (i to step : nat)
    (body : nat -> A -> M A) (acc : A) : M A :=
  if i <? to then
    match fuel with
    | 0 => out_of_fuel
    | S fuel' =>
        acc' <- body i acc ;;
        for_loop fuel' (i + step) to step body acc'
    end
  else ret acc.

(** *** The state setters *)

Definition setUnusedAssets (v : list AssetInfo) : M unit :=
  modify (fun s => {|
    unusedAssets := v; selectedAssets := selectedAssets s;
    isScanning := isScanning s; isDeleting := isDeleting s;
    showConfirmDialog := showConfirmDialog s; scanProgress := scanProgress s;
    message := message s; filterType := filterType s;
    filterSize := filterSize s; filterAge := filterAge s;
    totalAssets := totalAssets s; totalSize := totalSize s |}).

Definition setSelectedAssets (v : StringSet.t) : M unit :=
  modify (fun s => {|
    unusedAssets := unusedAssets s; selectedAssets := v;
    isScanning := isScanning s; isDeleting := isDeleting s;
    showConfirmDialog := showConfirmDialog s; scanProgress := scanProgress s;
    message := message s; filterType := filterType s;
    filterSize := filterSize s; filterAge := filterAge s;
    totalAssets := totalAssets s; totalSize := totalSize s |}).

Definition setIsScanning (v : bool) : M unit :=
  modify (fun s => {|
    unusedAssets := unusedAssets s; selectedAssets := selectedAssets s;
    isScanning := v; isDeleting := isDeleting s;
    showConfirmDialog := showConfirmDialog s; scanProgress := scanProgress s;
    message := message s; filterType := filterType s;
    filterSize := filterSize s; filterAge := filterAge s;
    totalAssets := totalAssets s; totalSize := totalSize s |}).

Definition setIsDeleting (v : bool) : M unit :=
  modify (fun s => {|
    unusedAssets := unusedAssets s; selectedAssets := selectedAssets s;
    isScanning := isScanning s; isDeleting := v;
    showConfirmDialog := showConfirmDialog s; scanProgress := scanProgress s;
    message := message s; filterType := filterType s;
    filterSize := filterSize s; filterAge := filterAge s;
    totalAssets := totalAssets s; totalSize := totalSize s |}).

Definition setShowConfirmDialog (v : bool) : M unit :=
  modify (fun s => {|
    unusedAssets := unusedAssets s; selectedAssets := selectedAssets s;
    isScanning := isScanning s; isDeleting := isDeleting s;
    showConfirmDialog := v; scanProgress := scanProgress s;
    message := message s; filterType := filterType s;
    filterSize := filterSize s; filterAge := filterAge s;
    totalAssets := totalAssets s; totalSize := totalSize s |}).

Definition setScanProgress (v : nat) : M unit :=
  modify (fun s => {|
    unusedAssets := unusedAssets s; selectedAssets := selectedAssets s;
    isScanning := isScanning s; isDeleting := isDeleting s;
    showConfirmDialog := showConfirmDialog s; scanProgress := v;
    message := message s; filterType := filterType s;
    filterSize := filterSize s; filterAge := filterAge s;
    totalAssets := totalAssets s; totalSize := totalSize s |}).

Definition setMessage (v : Message) : M unit :=
  modify (fun s => {|
    unusedAssets := unusedAssets s; selectedAssets := selectedAssets s;
    isScanning := isScanning s; isDeleting := isDeleting s;
    showConfirmDialog := showConfirmDialog s; scanProgress := scanProgress s;
    message := v; filterType := filterType s;
    filterSize := filterSize s; filterAge := filterAge s;
    totalAssets := totalAssets s; totalSize := totalSize s |}).

Definition setFilterType (v : FilterType) : M unit :=
  modify (fun s => {|
    unusedAssets := unusedAssets s; selectedAssets := selectedAssets s;
    isScanning := isScanning s; isDeleting := isDeleting s;
    showConfirmDialog := showConfirmDialog s; scanProgress := scanProgress s;
    message := message s; filterType := v;
    filterSize := filterSize s; filterAge := filterAge s;
    totalAssets := totalAssets s; totalSize := totalSize s |}).

Definition setFilterSize (v : string) : M unit :=
  modify (fun s => {|
    unusedAssets := unusedAssets s; selectedAssets := selectedAssets s;
    isScanning := isScanning s; isDeleting := isDeleting s;
    showConfirmDialog := showConfirmDialog s; scanProgress := scanProgress s;
    message := message s; filterType := filterType s;
    filterSize := v; filterAge := filterAge s;
    totalAssets := totalAssets s; totalSize := totalSize s |}).

Definition setFilterAge (v : string) : M unit :=
  modify (fun s => {|
    unusedAssets := unusedAssets s; selectedAssets := selectedAssets s;
    isScanning := isScanning s; isDeleting := isDeleting s;
    showConfirmDialog := showConfirmDialog s; scanProgress := scanProgress s;
    message := message s; filterType := filterType s;
    filterSize := filterSize s; filterAge := v;
    totalAssets := totalAssets s; totalSize := totalSize s |}).

Definition setTotalAssets (v : nat) : M unit :=
  modify (fun s => {|
    unusedAssets := unusedAssets s; selectedAssets := selectedAssets s;
    isScanning := isScanning s; isDeleting := isDeleting s;
    showConfirmDialog := showConfirmDialog s; scanProgress := scanProgress s;
    message := message s; filterType := filterType s;
    filterSize := filterSize s; filterAge := filterAge s;
    totalAssets := v; totalSize := totalSize s |}).

Definition setTotalSize (v : N) : M unit :=
  modify (fun s => {|
    unusedAssets := unusedAssets s; selectedAssets := selectedAssets s;
    isScanning := isScanning s; isDeleting := isDeleting s;
    showConfirmDialog := showConfirmDialog s; scanProgress := scanProgress s;
    message := message s; filterType := filterType s;
    filterSize := filterSize s; filterAge := filterAge s;
    totalAssets := totalAssets s; totalSize := v |}).

(** *** Calls on the client *)

Definition count_events (kind : Event -> bool) (t : list Event) : nat :=
  List.length (filter kind t).

Definition of_outcome (o : option Thrown) : Result unit :=
  match o with
  | None => Ok tt
  | Some e => Throw e
  end.

Definition client_fetch_allAssets (c : SanityClient) (typeFilter : string)
    (maxAssets : nat) : M (list AssetInfo) :=
  fun w => Some (fetch_allAssets c typeFilter maxAssets,
                 {| state := state w;
                    trace := trace w ++ [Fetch (allAssetsQuery typeFilter maxAssets)] |}).

Definition client_fetch_referencedAssets (c : SanityClient)
    (typeFilter : string) : M (list ReferencedDoc) :=
  fun w => Some (fetch_referencedAssets c typeFilter,
                 {| state := state w;
                    trace := trace w ++ [Fetch (referencedAssetsQuery typeFilter)] |}).

Definition client_fetch_complexRefs (c : SanityClient) : M (list ComplexDoc) :=
  fun w => Some (fetch_complexRefs c,
                 {| state := state w;
                    trace := trace w ++ [Fetch complexRefsQuery] |}).

(** [client.transaction()]: a transaction with no operation yet. *)
Definition client_transaction (c : SanityClient) : M (list string) :=
  fun w => Some (match transaction_throws c (count_events is_transaction (trace w)) with
                 | None => Ok []
                 | Some e => Throw e
                 end,
                 {| state := state w; trace := trace w ++ [Transaction] |}).

(** [transaction.delete(id)] *)
Definition transaction_delete (transaction : list string) (id : string)
    : list string :=
  transaction ++ [id].

(** [await transaction.commit()] *)
Definition transaction_commit (c : SanityClient) (transaction : list string)
    : M unit :=
  fun w => Some (of_outcome (commit_throws c (count_events is_commit (trace w)) transaction),
                 {| state := state w; trace := trace w ++ [Commit transaction] |}).

(* ================================================================= *)
(** ** The component *)

Definition dquote : string := String "034"%char EmptyString.

Definition list_or_empty {A} (x : option (list A)) : list A :=
  match x with
  | Some l => l
  | None => []
  end.

(** [arr.filter(Boolean)] on optional strings: [null], [undefined] and the
    empty string are dropped. *)
Fixpoint filter_Boolean (arr : list (option string)) : list string :=
  match arr with
  | [] => []
  | Some (String c s) :: rest => String c s :: filter_Boolean rest
  | _ :: rest => filter_Boolean rest
  end.

(** [arr.some(f)] and [arr.filter(f)] for a callback that may throw; both
    stop at the first call that throws. *)
Fixpoint some_result {A} (f : A -> Result bool) (arr : list A) : Result bool :=
  match arr with
  | [] => Ok false
  | x :: rest =>
      match f x with
      | Throw error => Throw error
      | Ok true => Ok true
      | Ok false => some_result f rest
      end
  end.

Fixpoint filter_result {A} (f : A -> Result bool) (arr : list A)
    : Result (list A) :=
  match arr with
  | [] => Ok []
  | x :: rest =>
      match f x with
      | Throw error => Throw error
      | Ok keep =>
          match filter_result f rest with
          | Throw error => Throw error
          | Ok rest' => Ok (if keep then x :: rest' else rest')
          end
      end
  end.

(** [assets.reduce((sum, asset) => sum + (asset.size || 0), 0)] *)
Definition sum_sizes (assets : list AssetInfo) : N :=
  fold_left (fun sum asset => (sum + number_or_0 (size asset))%N) assets 0%N.

Definition string_truthy (s : string) : bool :=
  match s with
  | EmptyString => false
  | String _ _ => true
  end.

Module Locals.
(** The local variables of [handleDelete]. *)
Record t : Type := {
  errors : list string;
  deletedCount : nat;
  savedSpace : N
}.
End Locals.

Section Component.

Context {platform : Platform}.

Variable props : DeleteUnusedAssetsProps.

(** What the callbacks of [props] do. *)
Variable callbacks : Callbacks.

(** The pattern as the regular expression source and the test against
    the file name or the identifier. *)
Definition pattern_excludes (asset : AssetInfo) (pattern : string)
    : Result bool :=
  let filename := string_or (originalFilename asset) EmptyString in
  match RegExp_new (replace_stars pattern) with
  | Throw error => Throw error
  | Ok regex =>
      Ok (RegExp_test regex filename || RegExp_test regex (_id asset))
  end.

Definition isExcluded (asset : AssetInfo) : Result bool :=
  if List.length (excludePatterns props) =? 0 then Ok false
  else some_result (pattern_excludes asset) (excludePatterns props).

Definition isOlderThan (asset : AssetInfo) : bool :=
  match olderThan props with
  | None => true
  | Some cutoff => Date_lt (Date_new (_createdAt asset)) cutoff
  end.

(** [now] is the reading of the clock when the component renders. *)
Definition getFilteredAssets (s : State) (now : Z) : list AssetInfo :=
  let filtered := unusedAssets s in
  let filtered :=
    match filterType s with
    | filter_all => filtered
    | filter_image =>
        filter (fun asset =>
                  match _type asset with
                  | sanity_imageAsset => true
                  | sanity_fileAsset => false
                  end) filtered
    | filter_file =>
        filter (fun asset =>
                  match _type asset with
                  | sanity_fileAsset => true
                  | sanity_imageAsset => false
                  end) filtered
    end in
  let filtered :=
    if string_truthy (filterSize s)
    then filter (fun asset =>
                   above_megabytes (number_or_0 (size asset)) (filterSize s))
                filtered
    else filtered in
  let filtered :=
    if string_truthy (filterAge s)
    then let cutoffDate := days_ago now (filterAge s) in
         filter (fun asset => Date_lt (Date_new (_createdAt asset)) cutoffDate)
                filtered
    else filtered in
  filtered.

Definition typeFilter : string :=
  (if existsb (AssetKind_eqb image) (assetTypes props)
      && existsb (AssetKind_eqb file) (assetTypes props)
   then "_type in [" ++ dquote ++ "sanity.imageAsset" ++ dquote ++ ", "
        ++ dquote ++ "sanity.fileAsset" ++ dquote ++ "]"
   else if existsb (AssetKind_eqb image) (assetTypes props)
   then "_type == " ++ dquote ++ "sanity.imageAsset" ++ dquote
   else "_type == " ++ dquote ++ "sanity.fileAsset" ++ dquote)%string.

(** The callback of [allAssets.filter] in the scan. *)
Definition is_unused (referencedAssetIds : StringSet.t) (asset : AssetInfo)
    : Result bool :=
  if StringSet.has referencedAssetIds (_id asset) then Ok false
  else
    match isExcluded asset with
    | Throw error => Throw error
    | Ok true => Ok false
    | Ok false =>
        if negb (isOlderThan asset) then Ok false else Ok true
    end.

(** The set of referenced identifiers, from the answers of the two
    reference queries. *)
Definition collect_references (referencedResults : list ReferencedDoc)
    (complexRefsResults : list ComplexDoc) : StringSet.t :=
  let referencedAssetIds :=
    StringSet.of_list
      (flat_map (fun doc => list_or_empty (referencedAssets doc))
                referencedResults) in
  fold_left
    (fun set doc =>
       fold_left StringSet.add
         (filter_Boolean (list_or_empty (complexRefs doc)
                          ++ list_or_empty (contentRefs doc)
                          ++ list_or_empty (blockRefs doc)))
         set)
    complexRefsResults referencedAssetIds.

Definition scanForUnusedAssets_with : M unit :=
  setIsScanning true ;;
  setMessage MsgScanning ;;
  setScanProgress 0 ;;
  try_finally
    (try_catch
       (setMessage MsgFetchingAll ;;
        allAssets <- client_fetch_allAssets (client props) typeFilter
                       (maxAssets props) ;;
        setTotalAssets (List.length allAssets) ;;
        setScanProgress 25 ;;
        setMessage MsgCheckingReferences ;;
        referencedResults <- client_fetch_referencedAssets (client props)
                               typeFilter ;;
        setScanProgress 50 ;;
        setMessage MsgCheckingComplex ;;
        complexRefsResults <- client_fetch_complexRefs (client props) ;;
        let referencedAssetIds :=
          collect_references referencedResults complexRefsResults in
        setScanProgress 75 ;;
        setMessage MsgIdentifying ;;
        unused <- lift_result
                    (filter_result (is_unused referencedAssetIds) allAssets) ;;
        setUnusedAssets unused ;;
        setSelectedAssets StringSet.empty ;;
        setTotalSize (sum_sizes unused) ;;
        setScanProgress 100 ;;
        setMessage (MsgFound (List.length unused) (sum_sizes unused)))
       (fun error =>
          emit (ConsoleError error) ;;
          let errorMessage := message_or "Scan failed" error in
          setMessage (MsgScanError errorMessage) ;;
          call_optional (onError props) (OnError errorMessage)
                        (onError_throws callbacks errorMessage)))
    (setIsScanning false ;;
     setScanProgress 0).

(** The handlers below close over the state [s] of the render they were
    created in. *)

Definition toggleAssetSelection (s : State) (id : string) : M unit :=
  let newSelected := selectedAssets s in
  let newSelected :=
    if StringSet.has newSelected id
    then StringSet.delete newSelected id
    else StringSet.add newSelected id in
  setSelectedAssets newSelected.

Definition selectAll (s : State) (now : Z) : M unit :=
  let filtered := getFilteredAssets s now in
  let allIds := StringSet.of_list (map _id filtered) in
  setSelectedAssets allIds.

Definition clearSelection : M unit :=
  setSelectedAssets StringSet.empty.

(** The sizes that one batch adds to [savedSpace]. *)
Definition batch_space (s : State) (batch : list string) : N :=
  let batchAssets :=
    filter (fun asset => includes batch (_id asset)) (unusedAssets s) in
  sum_sizes batchAssets.

(** One turn of the batch loop.  [i] is a multiple of [batchSize], so
    the division of the batch number is exact. *)
Definition handleDelete_batch (s : State) (assetsToDelete : list string)
    (i : nat) (l : Locals.t) : M Locals.t :=
  let batch := slice assetsToDelete i (i + batchSize props) in
  if dryRun props then
    emit (ConsoleLog batch) ;;
    ret {| Locals.errors := Locals.errors l;
           Locals.deletedCount := Locals.deletedCount l + List.length batch;
           Locals.savedSpace := (Locals.savedSpace l + batch_space s batch)%N |}
  else
    transaction <- client_transaction (client props) ;;
    let transaction := fold_left transaction_delete batch transaction in
    try_catch
      (transaction_commit (client props) transaction ;;
       let l' := {| Locals.errors := Locals.errors l;
                    Locals.deletedCount := Locals.deletedCount l + List.length batch;
                    Locals.savedSpace := (Locals.savedSpace l + batch_space s batch)%N |} in
       setMessage (MsgDeletedSoFar (Locals.deletedCount l')
                                   (List.length assetsToDelete)) ;;
       ret l')
      (fun error =>
         let errorMsg := message_or "Unknown error" error in
         ret {| Locals.errors :=
                  Locals.errors l
                  ++ [("Batch " ++ show_nat (i / batchSize props + 1)
                       ++ ": " ++ errorMsg)%string];
                Locals.deletedCount := Locals.deletedCount l;
                Locals.savedSpace := Locals.savedSpace l |}).

Definition handleDelete_with (fuel : nat) (s : State) : M unit :=
  if StringSet.size (selectedAssets s) =? 0 then ret tt
  else
    setIsDeleting true ;;
    setMessage NoMessage ;;
    let assetsToDelete := StringSet.to_array (selectedAssets s) in
    try_finally
      (try_catch
         (l <- for_loop fuel 0 (List.length assetsToDelete) (batchSize props)
                 (handleDelete_batch s assetsToDelete)
                 {| Locals.errors := [];
                    Locals.deletedCount := 0;
                    Locals.savedSpace := 0%N |} ;;
          let remainingAssets :=
            filter (fun asset =>
                      negb (StringSet.has (selectedAssets s) (_id asset)))
                   (unusedAssets s) in
          setUnusedAssets remainingAssets ;;
          setSelectedAssets StringSet.empty ;;
          let finalMessage :=
            if dryRun props
            then MsgDryRun (Locals.deletedCount l) (Locals.savedSpace l)
            else MsgDeleted (Locals.deletedCount l) (Locals.savedSpace l)
                            (List.length (Locals.errors l)) in
          setMessage finalMessage ;;
          let results := {| deleted := Locals.deletedCount l;
                            savedSpace := Locals.savedSpace l;
                            errors := Locals.errors l |} in
          call_optional (onComplete props) (OnComplete results)
                        (onComplete_throws callbacks results))
         (fun error =>
            let errorMessage := message_or "Delete operation failed" error in
            setMessage (MsgDeleteError errorMessage) ;;
            call_optional (onError props) (OnError errorMessage)
                          (onError_throws callbacks errorMessage)))
      (setIsDeleting false ;;
       setShowConfirmDialog false).

End Component.

(** The handlers for callbacks that return. *)
Definition scanForUnusedAssets {platform : Platform}
    (props : DeleteUnusedAssetsProps) : M unit :=
  scanForUnusedAssets_with props returning.

Definition handleDelete (props : DeleteUnusedAssetsProps) (fuel : nat)
    (s : State) : M unit :=
  handleDelete_with props returning fuel s.

(** A handler started in state [s]: the state it leaves and what it did to
    the outside. *)
Definition run (handler : M unit) (s : State) : option World :=
  match handler {| state := s; trace := [] |} with
  | Some (_, w) => Some w
  | None => None
  end.

(* ================================================================= *)
(** ** Notions used to state the properties *)

(** The batch loop visits the indices [k * batchSize]: batch [k] of the
    array, and how many batches there are. *)
Definition batch_at (batchSize : nat) (arr : list string) (k : nat)
    : list string :=
  slice arr (k * batchSize) (k * batchSize + batchSize).

Definition batch_count (batchSize n : nat) : nat :=
  (n + batchSize - 1) / batchSize.

(** The batches a run handed over, to the console in a dry run and to
    [commit] otherwise, in order. *)
Fixpoint batches_in_trace (t : list Event) : list (list string) :=
  match t with
  | [] => []
  | ConsoleLog batch :: t' => batch :: batches_in_trace t'
  | Commit ids :: t' => ids :: batches_in_trace t'
  | _ :: t' => batches_in_trace t'
  end.

Definition sum_N (l : list N) : N := fold_right N.add 0%N l.

(** [body] at each index of [l], in order. *)
Fixpoint foldM {A B} (body : B -> A -> M A) (l : list B) (acc : A) : M A :=
  match l with
  | [] => ret acc
  | x :: l' => acc' <- body x acc ;; foldM body l' acc'
  end.

(** [out] is [l] without the elements that fail [P], in the order of [l]. *)
Inductive Selects {A} (P : A -> Prop) : list A -> list A -> Prop :=
| Selects_nil : Selects P [] []
| Selects_keep a l out : P a -> Selects P l out -> Selects P (a :: l) (a :: out)
| Selects_drop a l out : ~ P a -> Selects P l out -> Selects P (a :: l) out.

(** A platform for the examples: a date is written as its time value in
    decimal, the view filters of size and age let everything pass, and
    the engine is not asked: the examples use the sources that [JS.RegExp]
    reads, and one with a group that nothing closes. *)
Definition example_Date_new (s : string) : Date :=
  {| time_value :=
       option_map (fun u => Z.of_nat (Nat.of_uint u)) (NilEmpty.uint_of_string s) |}.

#[local] Instance example_platform : Platform := {|
  Date_new := example_Date_new;
  above_megabytes := fun _ _ => true;
  days_ago := fun now _ => {| time_value := Some now |};
  RegExp_engine := fun _ => None;
  SyntaxError_message :=
    fun source =>
      ("Invalid regular expression: /" ++ source ++ "/: Unterminated group")%string
|}.

Definition example_asset (id filename : string) (bytes : N) (created : string)
    : AssetInfo := {|
  _id := id;
  _type := sanity_imageAsset;
  originalFilename := Some filename;
  url := EmptyString;
  size := Some bytes;
  mimeType := "image/jpeg";
  _createdAt := created;
  _updatedAt := created;
  extension := Some "jpg"
|}.

(** A client whose queries answer [inventory] and no reference, and whose
    [k]-th commit fails with [error] when [failing k]. *)
Definition example_client (inventory : list AssetInfo) (failing : nat -> bool)
    : SanityClient := {|
  fetch_allAssets := fun _ _ => Ok inventory;
  fetch_referencedAssets := fun _ => Ok [];
  fetch_complexRefs := Ok [];
  transaction_throws := fun _ => None;
  commit_throws := fun k _ => if failing k then Some (ErrorObject "boom") else None
|}.

Definition example_props (c : SanityClient) (size : nat) (dry : bool)
    : DeleteUnusedAssetsProps := {|
  client := c;
  assetTypes := [image; file];
  olderThan := None;
  excludePatterns := [];
  onComplete := true;
  onError := true;
  batchSize := size;
  dryRun := dry;
  maxAssets := 500
|}.

Definition five_assets : list AssetInfo :=
  [ example_asset "A" "a.jpg" 10 "100";
    example_asset "B" "b.jpg" 20 "200";
    example_asset "C" "c.jpg" 30 "300";
    example_asset "D" "d.jpg" 40 "400";
    example_asset "E" "e.jpg" 50 "500" ].

Definition with_candidates (assets : list AssetInfo) (selected : StringSet.t)
    : State := {|
  unusedAssets := assets;
  selectedAssets := selected;
  isScanning := false;
  isDeleting := false;
  showConfirmDialog := true;
  scanProgress := 0;
  message := NoMessage;
  filterType := filter_all;
  filterSize := EmptyString;
  filterAge := EmptyString;
  totalAssets := List.length assets;
  totalSize := sum_sizes assets
|}.

Definition five_selected : State :=
  with_candidates five_assets ["A"; "B"; "C"; "D"; "E"].

(** [props] with another [assetTypes]. *)
Definition with_assetTypes (p : DeleteUnusedAssetsProps)
    (kinds : list AssetKind) : DeleteUnusedAssetsProps := {|
  client := client p;
  assetTypes := kinds;
  olderThan := olderThan p;
  excludePatterns := excludePatterns p;
  onComplete := onComplete p;
  onError := onError p;
  batchSize := batchSize p;
  dryRun := dryRun p;
  maxAssets := maxAssets p
|}.

(** The three read queries of a scan, in the order they are issued. *)
Definition scan_queries (p : DeleteUnusedAssetsProps) : list Event :=
  [ Fetch (allAssetsQuery (typeFilter p) (maxAssets p));
    Fetch (referencedAssetsQuery (typeFilter p));
    Fetch complexRefsQuery ].

(** The queries before the [n]-th (from 0) answer, and the [n]-th throws
    [e]. *)
Definition scan_fails_at (p : DeleteUnusedAssetsProps) (n : nat) (e : Thrown)
    : Prop :=
  let c := client p in
  match n with
  | 0 => fetch_allAssets c (typeFilter p) (maxAssets p) = Throw e
  | 1 => (exists assets, fetch_allAssets c (typeFilter p) (maxAssets p) = Ok assets)
         /\ fetch_referencedAssets c (typeFilter p) = Throw e
  | 2 => (exists assets, fetch_allAssets c (typeFilter p) (maxAssets p) = Ok assets)
         /\ (exists docs, fetch_referencedAssets c (typeFilter p) = Ok docs)
         /\ fetch_complexRefs c = Throw e
  | _ => False
  end.

(** The pattern matches the file name or the identifier of the asset. *)
Definition excluded_by {platform : Platform} (asset : AssetInfo)
    (pattern : string) : Prop :=
  exists regex,
    RegExp_new (replace_stars pattern) = Ok regex
    /\ (RegExp_test regex (string_or (originalFilename asset) EmptyString) = true
        \/ RegExp_test regex (_id asset) = true).

(** The creation date of the asset is a point in time strictly before the
    cutoff, itself a point in time. *)
Definition created_before {platform : Platform} (asset : AssetInfo)
    (cutoff : Date) : Prop :=
  exists created limit,
    time_value (Date_new (_createdAt asset)) = Some created
    /\ time_value cutoff = Some limit
    /\ (created < limit)%Z.

(** The candidates in the words of the specification: not referenced,
    excluded by no pattern, created strictly before the cutoff if there is
    one. *)
Definition is_candidate {platform : Platform} (p : DeleteUnusedAssetsProps)
    (references : StringSet.t) (asset : AssetInfo) : Prop :=
  ~ In (_id asset) references
  /\ (forall pattern, In pattern (excludePatterns p) -> ~ excluded_by asset pattern)
  /\ (forall cutoff, olderThan p = Some cutoff -> created_before asset cutoff).

(** Every pattern is a regular expression: [new RegExp] does not throw
    for it. *)
Definition patterns_compile {platform : Platform}
    (p : DeleteUnusedAssetsProps) : Prop :=
  forall pattern, In pattern (excludePatterns p) ->
    exists regex, RegExp_new (replace_stars pattern) = Ok regex.


(** *** Words for the properties of pattern matching *)

(** The reference semantics of the fragment: the strings that a regular
    expression matches from their first to their last code unit. *)
Inductive Matches : RegExp.t -> list ascii -> Prop :=
| Matches_nil : Matches [] []
| Matches_lit c x r s :
    RegExp.same_letter c x = true -> Matches r s ->
    Matches (RegExp.Lit c :: r) (x :: s)
| Matches_any x r s :
    RegExp.is_line_terminator x = false -> Matches r s ->
    Matches (RegExp.AnyChar :: r) (x :: s)
| Matches_star mid r s :
    Forall (fun x => RegExp.is_line_terminator x = false) mid -> Matches r s ->
    Matches (RegExp.AnyStar :: r) (mid ++ s).

(** ASCII text without [.], [*] or another syntax character. *)
Definition plain_character (c : ascii) : bool :=
  negb (Ascii.eqb c RegExp.dot) && negb (RegExp.is_syntax_character c)
  && RegExp.is_ascii c.

Definition plain_text (s : string) : Prop :=
  forallb plain_character (list_ascii_of_string s) = true.

(** The same character, or the same letter of the alphabet in its two
    cases: [A] is 65 and [a] is 97. *)
Definition letters_agree (a b : ascii) : Prop :=
  a = b
  \/ exists k, k < 26
               /\ ((nat_of_ascii a = 65 + k /\ nat_of_ascii b = 97 + k)
                   \/ (nat_of_ascii a = 97 + k /\ nat_of_ascii b = 65 + k)).

(** Equal up to the case of letters. *)
Definition same_letters (a b : string) : Prop :=
  Forall2 letters_agree (list_ascii_of_string a) (list_ascii_of_string b).

(** Line feed and carriage return. *)
Definition line_terminator (c : ascii) : Prop :=
  c = "010"%char \/ c = "013"%char.

Definition no_line_terminator (s : string) : Prop :=
  Forall (fun x => ~ line_terminator x) (list_ascii_of_string s).

(** A string of ASCII characters. *)
Definition ascii_text (s : string) : Prop :=
  forallb RegExp.is_ascii (list_ascii_of_string s) = true.

(** A pattern of the fragment: plain characters, [.] and [*]. *)
Definition wildcard_character (c : ascii) : bool :=
  plain_character c || Ascii.eqb c RegExp.dot || Ascii.eqb c RegExp.star.

Definition wildcard_text (pattern : string) : Prop :=
  forallb wildcard_character (list_ascii_of_string pattern) = true.

(** What a pattern of the fragment matches from the first to the last
    character, in the words of the specification amended: a [*] stands
    for any run of characters without a line terminator, a [.] for one
    such character, and a plain character for itself in either case. *)
Inductive Wildcard : list ascii -> list ascii -> Prop :=
| Wildcard_end : Wildcard [] []
| Wildcard_star pattern run found :
    Forall (fun x => ~ line_terminator x) run ->
    Wildcard pattern found ->
    Wildcard ("*"%char :: pattern) (run ++ found)
| Wildcard_dot pattern x found :
    ~ line_terminator x ->
    Wildcard pattern found ->
    Wildcard ("."%char :: pattern) (x :: found)
| Wildcard_plain c pattern x found :
    plain_character c = true ->
    letters_agree c x ->
    Wildcard pattern found ->
    Wildcard (c :: pattern) (x :: found).

(** The pattern matches somewhere in the string. *)
Definition matches_within (pattern input : string) : Prop :=
  exists before found after,
    input = (before ++ found ++ after)%string
    /\ Wildcard (list_ascii_of_string pattern) (list_ascii_of_string found).

(** The item of a character of a pattern of the fragment. *)
Definition item_of (c : ascii) : RegExp.item :=
  if Ascii.eqb c RegExp.star then RegExp.AnyStar
  else if Ascii.eqb c RegExp.dot then RegExp.AnyChar
  else RegExp.Lit c.

Definition with_excludePatterns (p : DeleteUnusedAssetsProps)
    (patterns : list string) : DeleteUnusedAssetsProps := {|
  client := client p;
  assetTypes := assetTypes p;
  olderThan := olderThan p;
  excludePatterns := patterns;
  onComplete := onComplete p;
  onError := onError p;
  batchSize := batchSize p;
  dryRun := dryRun p;
  maxAssets := maxAssets p
|}.

(** The reading of [*] as any substring whatever: [pre*post] excludes
    every asset whose file name is [pre], anything, [post]. *)
Definition star_matches_every_substring : Prop :=
  forall (platform : Platform) (asset : AssetInfo) (pre mid post : string),
    plain_text pre -> plain_text post ->
    originalFilename asset = Some (pre ++ mid ++ post)%string ->
    pattern_excludes asset (pre ++ "*" ++ post)%string = Ok true.

Definition newline : string := String "010"%char EmptyString.

Definition two_line_name : AssetInfo :=
  example_asset "image-1" ("a" ++ newline ++ "b")%string 10 "100".

(** An item with its letter in canonical form. *)
Definition canonical_item (i : RegExp.item) : RegExp.item :=
  match i with
  | RegExp.Lit c => RegExp.Lit (RegExp.canonicalize c)
  | other => other
  end.

Definition hero_props : DeleteUnusedAssetsProps :=
  with_excludePatterns (example_props (example_client [] (fun _ => false)) 10 false)
                       ["hero-*"].

Definition hero_banner : AssetInfo :=
  example_asset "image-abc" "hero-banner.jpg" 10 "100".

Definition banner_hero : AssetInfo :=
  example_asset "image-def" "banner-hero.jpg" 10 "100".

(** *** Words for the properties of the batch loop *)

(** The state without its status message: the batch loop writes no other
    cell. *)
Definition forget_message (s : State) : State := {|
  unusedAssets := unusedAssets s;
  selectedAssets := selectedAssets s;
  isScanning := isScanning s;
  isDeleting := isDeleting s;
  showConfirmDialog := showConfirmDialog s;
  scanProgress := scanProgress s;
  message := NoMessage;
  filterType := filterType s;
  filterSize := filterSize s;
  filterAge := filterAge s;
  totalAssets := totalAssets s;
  totalSize := totalSize s
|}.

(** What batch [k] does to the local variables of a run that really
    deletes, when [client.transaction()] does not throw. *)
Definition after_commit (p : DeleteUnusedAssetsProps) (s : State)
    (arr : list string) (l : Locals.t) (k : nat) : Locals.t :=
  let batch := batch_at (batchSize p) arr k in
  match commit_throws (client p) k batch with
  | None =>
      {| Locals.errors := Locals.errors l;
         Locals.deletedCount := Locals.deletedCount l + List.length batch;
         Locals.savedSpace := (Locals.savedSpace l + batch_space s batch)%N |}
  | Some error =>
      {| Locals.errors :=
           Locals.errors l
           ++ [("Batch " ++ show_nat (k + 1) ++ ": "
                ++ message_or "Unknown error" error)%string];
         Locals.deletedCount := Locals.deletedCount l;
         Locals.savedSpace := Locals.savedSpace l |}
  end.

(** What a dry run does to them. *)
Definition after_preview (p : DeleteUnusedAssetsProps) (s : State)
    (arr : list string) (l : Locals.t) (k : nat) : Locals.t :=
  let batch := batch_at (batchSize p) arr k in
  {| Locals.errors := Locals.errors l;
     Locals.deletedCount := Locals.deletedCount l + List.length batch;
     Locals.savedSpace := (Locals.savedSpace l + batch_space s batch)%N |}.

(** The local variables before the first batch. *)
Definition no_batch_yet : Locals.t :=
  {| Locals.errors := []; Locals.deletedCount := 0; Locals.savedSpace := 0%N |}.

(** The identifiers whose batch was processed with success: all of them
    in a dry run, those of the committed batches otherwise. *)
Definition successful_ids (p : DeleteUnusedAssetsProps) (arr : list string)
    : list string :=
  flat_map
    (fun k =>
       let batch := batch_at (batchSize p) arr k in
       if dryRun p then batch
       else match commit_throws (client p) k batch with
            | None => batch
            | Some _ => []
            end)
    (seq 0 (batch_count (batchSize p) (List.length arr))).

(** The state a deletion run leaves when it reaches its end with the
    local variables [l], and the completion callback it makes. *)
Definition after_run (p : DeleteUnusedAssetsProps) (s : State) (l : Locals.t)
    : State := {|
  unusedAssets :=
    filter (fun asset => negb (StringSet.has (selectedAssets s) (_id asset)))
           (unusedAssets s);
  selectedAssets := StringSet.empty;
  isScanning := isScanning s;
  isDeleting := false;
  showConfirmDialog := false;
  scanProgress := scanProgress s;
  message :=
    if dryRun p
    then MsgDryRun (Locals.deletedCount l) (Locals.savedSpace l)
    else MsgDeleted (Locals.deletedCount l) (Locals.savedSpace l)
                    (List.length (Locals.errors l));
  filterType := filterType s;
  filterSize := filterSize s;
  filterAge := filterAge s;
  totalAssets := totalAssets s;
  totalSize := totalSize s
|}.

Definition completion (p : DeleteUnusedAssetsProps) (l : Locals.t)
    : list Event :=
  if onComplete p
  then [OnComplete {| deleted := Locals.deletedCount l;
                      savedSpace := Locals.savedSpace l;
                      errors := Locals.errors l |}]
  else [].

(** The batches of the selection of [s], by index. *)
Definition selected_batch (p : DeleteUnusedAssetsProps) (s : State) (k : nat)
    : list string :=
  batch_at (batchSize p) (StringSet.to_array (selectedAssets s)) k.

Definition selected_batches (p : DeleteUnusedAssetsProps) (s : State) : nat :=
  batch_count (batchSize p) (StringSet.size (selectedAssets s)).

(** *** Words for the properties of the candidate list and the selection *)

(** The assets whose identifier is not in [ids]. *)
Definition without_ids (ids : list string) (assets : list AssetInfo)
    : list AssetInfo :=
  filter (fun asset => negb (includes ids (_id asset))) assets.

Definition candidate_ids (s : State) : list string :=
  map _id (unusedAssets s).

(** Selection is a subset of the identifiers of the candidates. *)
Definition selection_within_candidates (s : State) : Prop :=
  forall id, In id (selectedAssets s) -> In id (candidate_ids s).

(** What the operator and the client can make of a state: every handler
    of the component, run to its end from the state of the render that
    created it.  The check boxes exist for the assets of the filtered
    view only. *)
Inductive step {platform : Platform} : State -> State -> Prop :=
| step_scan p s w :
    run (scanForUnusedAssets p) s = Some w -> step s (state w)
| step_toggle s now asset w :
    In asset (getFilteredAssets s now) ->
    run (toggleAssetSelection s (_id asset)) s = Some w -> step s (state w)
| step_selectAll s now w :
    run (selectAll s now) s = Some w -> step s (state w)
| step_clearSelection s w :
    run clearSelection s = Some w -> step s (state w)
| step_delete p fuel s w :
    run (handleDelete p fuel s) s = Some w -> step s (state w)
| step_confirmDialog s shown w :
    run (setShowConfirmDialog shown) s = Some w -> step s (state w)
| step_filterType s v w :
    run (setFilterType v) s = Some w -> step s (state w)
| step_filterSize s v w :
    run (setFilterSize v) s = Some w -> step s (state w)
| step_filterAge s v w :
    run (setFilterAge v) s = Some w -> step s (state w).

Inductive reachable {platform : Platform} : State -> Prop :=
| reachable_initial : reachable initialState
| reachable_step s s' : reachable s -> step s s' -> reachable s'.

(** One candidate, selected; its only batch fails to commit. *)
Definition one_asset : list AssetInfo := [example_asset "A" "a.jpg" 10 "100"].

Definition one_selected : State := with_candidates one_asset ["A"].

Definition failing_props : DeleteUnusedAssetsProps :=
  example_props (example_client one_asset (fun _ => true)) 10 false.

(** One candidate of size 0, selected, in a dry run. *)
Definition empty_file : list AssetInfo := [example_asset "A" "a.txt" 0 "100"].

Definition empty_file_selected : State := with_candidates empty_file ["A"].

Definition preview_props : DeleteUnusedAssetsProps :=
  example_props (example_client empty_file (fun _ => false)) 10 true.

(** *** Runs used as examples *)

(** Five candidates selected, batches of two, the second batch fails. *)
Definition second_batch_fails : DeleteUnusedAssetsProps :=
  example_props (example_client five_assets (Nat.eqb 1)) 2 false.

Definition preview_in_twos : DeleteUnusedAssetsProps :=
  example_props (example_client five_assets (fun _ => false)) 2 true.

(** A client whose third read query throws. *)
Definition third_query_throws : SanityClient := {|
  fetch_allAssets := fun _ _ => Ok five_assets;
  fetch_referencedAssets := fun _ => Ok [];
  fetch_complexRefs := Throw (ErrorObject "timeout");
  transaction_throws := fun _ => None;
  commit_throws := fun _ _ => None
|}.

Definition failing_scan_props : DeleteUnusedAssetsProps :=
  example_props third_query_throws 10 false.

(** The state after a first scan that found the five assets, and after
    the check box of [A] was then toggled. *)
Definition scan_props : DeleteUnusedAssetsProps :=
  example_props (example_client five_assets (fun _ => false)) 2 false.

Definition scanned : World :=
  Eval vm_compute in
    match run (scanForUnusedAssets scan_props) initialState with
    | Some w => w
    | None => {| state := initialState; trace := [] |}
    end.

Definition toggled : World :=
  Eval vm_compute in
    match run (toggleAssetSelection (state scanned) "A") (state scanned) with
    | Some w => w
    | None => scanned
    end.

Definition hero_inventory : list AssetInfo := [hero_banner; banner_hero].

(** The props of [hero_props] with another batch size and a dry run. *)
Definition hero_preview_props : DeleteUnusedAssetsProps :=
  with_excludePatterns (example_props (example_client [] (fun _ => true)) 3 true)
                       ["hero-*"].

(** Running the setters of a handler, keeping the state a plain record. *)
Ltac run_setters :=
  cbn [bind ret modify emit call_optional try_catch try_finally
       onComplete_throws onError_throws returning
       setUnusedAssets setSelectedAssets setIsScanning setIsDeleting
       setShowConfirmDialog setScanProgress setMessage setFilterType
       setFilterSize setFilterAge setTotalAssets setTotalSize
       state trace unusedAssets selectedAssets isScanning isDeleting
       showConfirmDialog scanProgress message filterType filterSize
       filterAge totalAssets totalSize app].

(** *** The rest of the component *)

(** [getAssetDisplayName] *)
Definition getAssetDisplayName (asset : AssetInfo) : string :=
  string_or (originalFilename asset) (_id asset).

(** [selectedSize], the figure of the selection bar and of the
    confirmation dialog. *)
Definition selectedSize (s : State) : N :=
  sum_sizes (filter (fun asset => StringSet.has (selectedAssets s) (_id asset))
                    (unusedAssets s)).

(** *** Words for the further properties *)

Definition is_fetch (e : Event) : bool :=
  match e with Fetch _ => true | _ => false end.

Definition is_completion (e : Event) : bool :=
  match e with OnComplete _ => true | _ => false end.

(** The identifiers a run handed to [commit]. *)
Fixpoint committed_ids (t : list Event) : list string :=
  match t with
  | [] => []
  | Commit ids :: t' => ids ++ committed_ids t'
  | _ :: t' => committed_ids t'
  end.

(** Does the commit of batch [k] of the selection fail? *)
Definition commit_fails (p : DeleteUnusedAssetsProps) (s : State) (k : nat)
    : bool :=
  match commit_throws (client p) k (selected_batch p s k) with
  | Some _ => true
  | None => false
  end.

(** The entry of [errors] for batch [k]. *)
Definition batch_error (p : DeleteUnusedAssetsProps) (s : State) (k : nat)
    : list string :=
  match commit_throws (client p) k (selected_batch p s k) with
  | Some error =>
      [("Batch " ++ show_nat (k + 1) ++ ": "
        ++ message_or "Unknown error" error)%string]
  | None => []
  end.

(** The identifiers the reference queries answered: those of the direct
    query, and those of the three nested fields that are not empty. *)
Definition referenced_directly (docs : list ReferencedDoc) (id : string) : Prop :=
  exists doc ids, In doc docs /\ referencedAssets doc = Some ids /\ In id ids.

Definition referenced_nested (nested : list ComplexDoc) (id : string) : Prop :=
  id <> EmptyString
  /\ exists doc,
       In doc nested
       /\ In (Some id) (list_or_empty (complexRefs doc)
                        ++ list_or_empty (contentRefs doc)
                        ++ list_or_empty (blockRefs doc)).

(** The view of a state: what the type, size and age filters let pass. *)
Definition passes_view {platform : Platform} (s : State) (now : Z)
    (asset : AssetInfo) : Prop :=
  match filterType s with
  | filter_all => True
  | filter_image => _type asset = sanity_imageAsset
  | filter_file => _type asset = sanity_fileAsset
  end
  /\ (filterSize s <> EmptyString ->
      above_megabytes (number_or_0 (size asset)) (filterSize s) = true)
  /\ (filterAge s <> EmptyString ->
      Date_lt (Date_new (_createdAt asset)) (days_ago now (filterAge s)) = true).

(** What the operator does between a scan and a deletion: the handlers
    that touch the selection, the view filters and the dialog. *)
Inductive browse_step {platform : Platform} : State -> State -> Prop :=
| browse_toggle s now asset w :
    In asset (getFilteredAssets s now) ->
    run (toggleAssetSelection s (_id asset)) s = Some w ->
    browse_step s (state w)
| browse_selectAll s now w :
    run (selectAll s now) s = Some w -> browse_step s (state w)
| browse_clearSelection s w :
    run clearSelection s = Some w -> browse_step s (state w)
| browse_confirmDialog s shown w :
    run (setShowConfirmDialog shown) s = Some w -> browse_step s (state w)
| browse_filterType s v w :
    run (setFilterType v) s = Some w -> browse_step s (state w)
| browse_filterSize s v w :
    run (setFilterSize v) s = Some w -> browse_step s (state w)
| browse_filterAge s v w :
    run (setFilterAge v) s = Some w -> browse_step s (state w).

Inductive browsing {platform : Platform} : State -> State -> Prop :=
| browsing_here s : browsing s s
| browsing_on s s' s'' : browsing s s' -> browse_step s' s'' -> browsing s s''.

(** [props] with another client, batch size or dry-run flag. *)
Definition with_dryRun (p : DeleteUnusedAssetsProps) (dry : bool)
    : DeleteUnusedAssetsProps := {|
  client := client p;
  assetTypes := assetTypes p;
  olderThan := olderThan p;
  excludePatterns := excludePatterns p;
  onComplete := onComplete p;
  onError := onError p;
  batchSize := batchSize p;
  dryRun := dry;
  maxAssets := maxAssets p
|}.

Definition with_olderThan (p : DeleteUnusedAssetsProps) (cutoff : option Date)
    : DeleteUnusedAssetsProps := {|
  client := client p;
  assetTypes := assetTypes p;
  olderThan := cutoff;
  excludePatterns := excludePatterns p;
  onComplete := onComplete p;
  onError := onError p;
  batchSize := batchSize p;
  dryRun := dryRun p;
  maxAssets := maxAssets p
|}.

(** [s] holds [pattern] somewhere, up to the case of letters. *)
Definition contains_letters (s pattern : string) : Prop :=
  exists u found v,
    s = (u ++ found ++ v)%string /\ same_letters pattern found.

(** What one batch may do to the outside: log its identifiers in a dry
    run; open a transaction and commit identifiers of the array
    otherwise. *)
Definition batch_event (p : DeleteUnusedAssetsProps) (arr : list string)
    (e : Event) : Prop :=
  match e with
  | ConsoleLog _ => dryRun p = true
  | Transaction => dryRun p = false
  | Commit ids => dryRun p = false /\ forall id, In id ids -> In id arr
  | _ => False
  end.

Definition is_error_callback (e : Event) : bool :=
  match e with OnError _ => true | _ => false end.

(** The argument of [onComplete]. *)
Definition results_of (l : Locals.t) : CleanupResult :=
  {| deleted := Locals.deletedCount l;
     savedSpace := Locals.savedSpace l;
     errors := Locals.errors l |}.

(** What the outer [catch] of a deletion run does to the outside for
    [error]. *)
Definition delete_error_report (p : DeleteUnusedAssetsProps) (error : Thrown)
    : list Event :=
  if onError p
  then [OnError (message_or "Delete operation failed" error)]
  else [].

Definition is_console_error (e : Event) : bool :=
  match e with ConsoleError _ => true | _ => false end.

(** What the [catch] of the scan does to the outside for [error]. *)
Definition scan_error_report (p : DeleteUnusedAssetsProps) (error : Thrown)
    : list Event :=
  [ConsoleError error]
  ++ (if onError p then [OnError (message_or "Scan failed" error)] else []).

(** *** Further runs used as examples *)

(** A completion callback that throws, and the run of the five assets
    with it. *)
Definition complaining : Callbacks := {|
  onComplete_throws := fun _ => Some (ErrorObject "handler failed");
  onError_throws := fun _ => None
|}.

Definition complained_run : World :=
  Eval vm_compute in
    match run (handleDelete_with second_batch_fails complaining 5 five_selected)
              five_selected with
    | Some w => w
    | None => {| state := five_selected; trace := [] |}
    end.

(** The five assets, [B] referenced directly and [D] from a nested
    field, beside a [null] and an empty entry. *)
Definition referencing_client : SanityClient := {|
  fetch_allAssets := fun _ _ => Ok five_assets;
  fetch_referencedAssets := fun _ => Ok [{| referencedAssets := Some ["B"] |}];
  fetch_complexRefs :=
    Ok [{| complexRefs := Some [Some "D"; None; Some EmptyString];
           contentRefs := None;
           blockRefs := None |}];
  transaction_throws := fun _ => None;
  commit_throws := fun _ _ => None
|}.

Definition referencing_props : DeleteUnusedAssetsProps :=
  example_props referencing_client 2 false.

Definition scanned_references : World :=
  Eval vm_compute in
    match run (scanForUnusedAssets referencing_props) initialState with
    | Some w => w
    | None => {| state := initialState; trace := [] |}
    end.

Definition all_selected : World :=
  Eval vm_compute in
    match run (selectAll (state scanned_references) 0%Z)
              (state scanned_references) with
    | Some w => w
    | None => scanned_references
    end.

Definition all_deleted : World :=
  Eval vm_compute in
    match run (handleDelete_with referencing_props complaining 3
                 (state all_selected))
              (state all_selected) with
    | Some w => w
    | None => all_selected
    end.

(** A cutoff at the time value 250. *)
Definition cutoff_props : DeleteUnusedAssetsProps :=
  with_olderThan scan_props (Some {| time_value := Some 250%Z |}).

Definition match_all_props : DeleteUnusedAssetsProps :=
  with_excludePatterns scan_props ["*"].

(** A pattern that is no regular expression, alone and before [*]. *)
Definition unbalanced_props : DeleteUnusedAssetsProps :=
  with_excludePatterns scan_props ["("].

Definition unbalanced_first_props : DeleteUnusedAssetsProps :=
  with_excludePatterns scan_props ["("; "*"].

(** The scan with the pattern [(], started with one candidate selected. *)
Definition unbalanced_scan : World :=
  Eval vm_compute in
    match run (scanForUnusedAssets unbalanced_props) one_selected with
    | Some w => w
    | None => {| state := one_selected; trace := [] |}
    end.

(** A client whose second [client.transaction()] throws. *)
Definition second_transaction_throws : SanityClient := {|
  fetch_allAssets := fun _ _ => Ok five_assets;
  fetch_referencedAssets := fun _ => Ok [];
  fetch_complexRefs := Ok [];
  transaction_throws :=
    fun k => if k =? 1 then Some (ErrorObject "offline") else None;
  commit_throws := fun _ _ => None
|}.

Definition aborting_props : DeleteUnusedAssetsProps :=
  example_props second_transaction_throws 2 false.

Definition partial_run : World :=
  Eval vm_compute in
    match run (handleDelete second_batch_fails 5 five_selected) five_selected with
    | Some w => w
    | None => {| state := five_selected; trace := [] |}
    end.

Definition zero_size_props : DeleteUnusedAssetsProps :=
  example_props (example_client five_assets (fun _ => false)) 0 true.

(* ================================================================= *)
(** ** Properties of the scan *)

Lemma includes_In (arr : list string) (x : string) :
  includes arr x = true <-> In x arr.
Proof.
  unfold includes. rewrite existsb_exists. split.
  - intros [y [Hy Heq]]. apply String.eqb_eq in Heq. now subst.
  - intros H. exists x. split; [assumption | apply String.eqb_refl].
Qed.

Lemma includes_false (arr : list string) (x : string) :
  includes arr x = false <-> ~ In x arr.
Proof.
  rewrite <- includes_In. destruct (includes arr x); split; congruence.
Qed.

Lemma Selects_In {A} (P : A -> Prop) (l out : list A) :
  Selects P l out -> forall a, In a out <-> In a l /\ P a.
Proof.
  induction 1 as [| a l out Ha _ IH | a l out Ha _ IH]; intros b; simpl.
  - tauto.
  - rewrite IH. split.
    + intros [-> | [Hin Hb]]; auto.
    + intros [[-> | Hin] Hb]; auto.
  - rewrite IH. split.
    + intros [Hin Hb]; auto.
    + intros [[-> | Hin] Hb]; [contradiction | auto].
Qed.

Lemma Date_lt_spec {platform : Platform} (asset : AssetInfo) (cutoff : Date) :
  Date_lt (Date_new (_createdAt asset)) cutoff = true
  <-> created_before asset cutoff.
Proof.
  unfold Date_lt, created_before. split.
  - destruct (time_value (Date_new (_createdAt asset))) as [created |];
      [| discriminate].
    destruct (time_value cutoff) as [limit |]; [| discriminate].
    intros H. exists created, limit. repeat split. now apply Z.ltb_lt.
  - intros [created [limit [-> [-> H]]]]. now apply Z.ltb_lt.
Qed.

Section ScanFacts.

Context {platform : Platform}.
Variable p : DeleteUnusedAssetsProps.

Lemma some_result_false (asset : AssetInfo) (patterns : list string) :
  some_result (pattern_excludes asset) patterns = Ok false ->
  forall pattern, In pattern patterns -> ~ excluded_by asset pattern.
Proof.
  induction patterns as [| q patterns IH]; simpl; intros H pattern Hin.
  - contradiction.
  - unfold pattern_excludes at 1 in H.
    destruct (RegExp_new (replace_stars q)) as [regex | e] eqn:Hq;
      [| discriminate].
    destruct (RegExp_test regex _ || RegExp_test regex _) eqn:Ht;
      [discriminate |].
    apply orb_false_elim in Ht. destruct Ht as [Hf Hi].
    destruct Hin as [<- | Hin].
    + intros [regex' [Hc [Hm | Hm]]]; rewrite Hq in Hc;
        injection Hc as <-; congruence.
    + now apply IH.
Qed.

Lemma some_result_true (asset : AssetInfo) (patterns : list string) :
  some_result (pattern_excludes asset) patterns = Ok true ->
  exists pattern, In pattern patterns /\ excluded_by asset pattern.
Proof.
  induction patterns as [| q patterns IH]; simpl; intros H.
  - discriminate.
  - unfold pattern_excludes at 1 in H.
    destruct (RegExp_new (replace_stars q)) as [regex | e] eqn:Hq;
      [| discriminate].
    destruct (RegExp_test regex _ || RegExp_test regex _) eqn:Ht.
    + exists q. split; [now left |]. exists regex. split; [assumption |].
      now apply orb_true_iff in Ht.
    + destruct (IH H) as [pattern [Hin Hex]]. exists pattern. auto.
Qed.

Lemma some_result_throws (asset : AssetInfo) (patterns : list string)
    (error : Thrown) :
  some_result (pattern_excludes asset) patterns = Throw error ->
  exists pattern,
    In pattern patterns /\ RegExp_new (replace_stars pattern) = Throw error.
Proof.
  induction patterns as [| q patterns IH]; simpl; intros H.
  - discriminate.
  - unfold pattern_excludes at 1 in H.
    destruct (RegExp_new (replace_stars q)) as [regex | e] eqn:Hq.
    + destruct (RegExp_test regex _ || RegExp_test regex _);
        [discriminate |].
      destruct (IH H) as [pattern [Hin Hex]]. exists pattern. auto.
    + injection H as <-. exists q. auto.
Qed.

Lemma some_result_returns (asset : AssetInfo) (patterns : list string) :
  (forall pattern, In pattern patterns ->
     exists regex, RegExp_new (replace_stars pattern) = Ok regex) ->
  exists excluded, some_result (pattern_excludes asset) patterns = Ok excluded.
Proof.
  induction patterns as [| q patterns IH]; simpl; intros H.
  - now exists false.
  - unfold pattern_excludes at 1.
    destruct (H q (or_introl eq_refl)) as [regex ->].
    destruct (RegExp_test regex _ || RegExp_test regex _);
      [now exists true | apply IH; auto].
Qed.

Lemma isExcluded_false (asset : AssetInfo) :
  isExcluded p asset = Ok false ->
  forall pattern, In pattern (excludePatterns p) -> ~ excluded_by asset pattern.
Proof.
  unfold isExcluded.
  destruct (excludePatterns p) as [| q patterns] eqn:Hp;
    cbn [List.length Nat.eqb].
  - intros _ pattern [].
  - apply some_result_false.
Qed.

Lemma isExcluded_true (asset : AssetInfo) :
  isExcluded p asset = Ok true ->
  exists pattern, In pattern (excludePatterns p) /\ excluded_by asset pattern.
Proof.
  unfold isExcluded.
  destruct (excludePatterns p) as [| q patterns] eqn:Hp;
    cbn [List.length Nat.eqb].
  - discriminate.
  - apply some_result_true.
Qed.

Lemma isExcluded_throws (asset : AssetInfo) (error : Thrown) :
  isExcluded p asset = Throw error ->
  exists pattern,
    In pattern (excludePatterns p)
    /\ RegExp_new (replace_stars pattern) = Throw error.
Proof.
  unfold isExcluded.
  destruct (List.length (excludePatterns p) =? 0); [discriminate |].
  apply some_result_throws.
Qed.

Lemma isExcluded_returns (asset : AssetInfo) :
  patterns_compile p -> exists excluded, isExcluded p asset = Ok excluded.
Proof.
  unfold patterns_compile, isExcluded.
  destruct (List.length (excludePatterns p) =? 0); [now exists false |].
  apply some_result_returns.
Qed.

Variable references : StringSet.t.

(** The callback of the filter decides candidacy whenever it answers. *)
Lemma is_unused_spec (asset : AssetInfo) (keep : bool) :
  is_unused p references asset = Ok keep ->
  (keep = true <-> is_candidate p references asset).
Proof.
  unfold is_unused, is_candidate, StringSet.has.
  destruct (includes references (_id asset)) eqn:Hr.
  - intros [= <-]. apply includes_In in Hr. split; [discriminate | tauto].
  - apply includes_false in Hr.
    destruct (isExcluded p asset) as [[|] | e] eqn:He; [| | discriminate].
    + intros [= <-]. split; [discriminate |].
      intros [_ [Hno _]].
      destruct (isExcluded_true _ He) as [pattern [Hin Hex]].
      exfalso. exact (Hno pattern Hin Hex).
    + pose proof (isExcluded_false _ He) as Hno.
      unfold isOlderThan.
      destruct (olderThan p) as [cutoff |] eqn:Ho; simpl.
      * destruct (Date_lt (Date_new (_createdAt asset)) cutoff) eqn:Hd;
          simpl; intros [= <-].
        -- split; [intros _ | reflexivity].
           repeat split; auto. intros c [= <-]. now apply Date_lt_spec.
        -- split; [discriminate |].
           intros [_ [_ Hc]]. specialize (Hc cutoff eq_refl).
           apply Date_lt_spec in Hc. congruence.
      * intros [= <-]. split; [intros _ | reflexivity].
        repeat split; auto. intros c Hc. discriminate.
Qed.


(** The callback throws only for an asset that is not referenced, and
    what it throws is what [new RegExp] throws for one of the patterns. *)
Lemma is_unused_throws (asset : AssetInfo) (error : Thrown) :
  is_unused p references asset = Throw error ->
  ~ In (_id asset) references
  /\ exists pattern,
       In pattern (excludePatterns p)
       /\ RegExp_new (replace_stars pattern) = Throw error.
Proof.
  unfold is_unused, StringSet.has.
  destruct (includes references (_id asset)) eqn:Hr; [discriminate |].
  apply includes_false in Hr.
  destruct (isExcluded p asset) as [[|] | e] eqn:He.
  - discriminate.
  - destruct (negb (isOlderThan p asset)); discriminate.
  - intros [= <-]. split; [assumption | now apply (isExcluded_throws asset)].
Qed.

Lemma filter_result_Selects (inventory out : list AssetInfo) :
  filter_result (is_unused p references) inventory = Ok out ->
  Selects (is_candidate p references) inventory out.
Proof.
  revert out. induction inventory as [| a inventory IH]; simpl; intros out H.
  - injection H as <-. constructor.
  - destruct (is_unused p references a) as [keep | e] eqn:Ha; [| discriminate].
    destruct (filter_result (is_unused p references) inventory) as [rest | e];
      [| discriminate].
    injection H as <-. pose proof (is_unused_spec _ _ Ha) as Hs.
    destruct keep.
    + apply Selects_keep; [now apply Hs | now apply IH].
    + apply Selects_drop; [| now apply IH].
      intros Hc. apply Hs in Hc. discriminate.
Qed.


Lemma filter_result_throws (inventory : list AssetInfo) (error : Thrown) :
  filter_result (is_unused p references) inventory = Throw error ->
  exists asset pattern,
    In asset inventory
    /\ ~ In (_id asset) references
    /\ In pattern (excludePatterns p)
    /\ RegExp_new (replace_stars pattern) = Throw error.
Proof.
  induction inventory as [| a inventory IH]; simpl; intros H.
  - discriminate.
  - destruct (is_unused p references a) as [keep | e] eqn:Ha.
    + destruct (filter_result (is_unused p references) inventory)
        as [rest | e]; [discriminate |].
      injection H as <-.
      destruct (IH eq_refl) as [asset [pattern [Hin Hrest]]].
      exists asset, pattern. auto.
    + injection H as <-.
      destruct (is_unused_throws _ _ Ha) as [Hr [pattern [Hin Hthrow]]].
      exists a, pattern. auto.
Qed.

End ScanFacts.

(** A scan whose queries all answer, and whose filter gives a list,
    leaves that list as the candidate list and an empty selection. *)
Lemma scan_completes {platform : Platform} (p : DeleteUnusedAssetsProps)
    (s : State) (inventory : list AssetInfo) (docs : list ReferencedDoc)
    (nested : list ComplexDoc) (out : list AssetInfo) :
  fetch_allAssets (client p) (typeFilter p) (maxAssets p) = Ok inventory ->
  fetch_referencedAssets (client p) (typeFilter p) = Ok docs ->
  fetch_complexRefs (client p) = Ok nested ->
  filter_result (is_unused p (collect_references docs nested)) inventory
    = Ok out ->
  exists w,
    run (scanForUnusedAssets p) s = Some w
    /\ unusedAssets (state w) = out
    /\ selectedAssets (state w) = StringSet.empty
    /\ totalAssets (state w) = List.length inventory
    /\ totalSize (state w) = sum_sizes out
    /\ message (state w) = MsgFound (List.length out) (sum_sizes out)
    /\ trace w = scan_queries p.
Proof.
  intros Ha Hd Hn Hf.
  unfold run, scanForUnusedAssets, scanForUnusedAssets_with, try_finally,
    try_catch, bind, client_fetch_allAssets, client_fetch_referencedAssets,
    client_fetch_complexRefs, lift_result. cbn.
  rewrite Ha. cbn. rewrite Hd. cbn. rewrite Hn. cbn. rewrite Hf. cbn.
  eexists. split; [reflexivity |]. cbn. repeat split; reflexivity.
Qed.

Lemma filter_result_ext {A} (f g : A -> Result bool) (l : list A) :
  (forall x, f x = g x) -> filter_result f l = filter_result g l.
Proof.
  intros H. induction l as [| x l IH]; simpl; [reflexivity |].
  now rewrite H, IH.
Qed.

Lemma filter_result_again {A} (f : A -> Result bool) (l out : list A) :
  filter_result f l = Ok out -> filter_result f out = Ok out.
Proof.
  revert out. induction l as [| x l IH]; simpl; intros out H.
  - now injection H as <-.
  - destruct (f x) as [keep | e] eqn:Hx; [| discriminate].
    destruct (filter_result f l) as [rest | e]; [| discriminate].
    injection H as <-. specialize (IH rest eq_refl).
    destruct keep; [| assumption].
    simpl. now rewrite Hx, IH.
Qed.

Lemma is_unused_same_inputs {platform : Platform}
    (p1 p2 : DeleteUnusedAssetsProps) (r1 r2 : StringSet.t) :
  excludePatterns p1 = excludePatterns p2 ->
  olderThan p1 = olderThan p2 ->
  (forall id, In id r1 <-> In id r2) ->
  forall asset, is_unused p1 r1 asset = is_unused p2 r2 asset.
Proof.
  intros He Ho Hr asset.
  unfold is_unused, isExcluded, isOlderThan, StringSet.has.
  rewrite He, Ho.
  assert (Hi : includes r1 (_id asset) = includes r2 (_id asset)).
  { destruct (includes r2 (_id asset)) eqn:H2.
    - apply includes_In. apply Hr. now apply includes_In.
    - apply includes_false. rewrite Hr. now apply includes_false. }
  now rewrite Hi.
Qed.

(** C8: the unused-set filter is a function of the inventory, the
    members of the reference set, the exclude patterns and the cutoff
    alone: two runs that agree on them give the same candidate list in the
    same order (or throw the same error), whatever the other props; and
    filtering the result again changes nothing.  Two scans that agree on
    them leave the same candidate list, the list of the filter, whatever
    the states they start from; when the filter throws, each scan keeps
    the list it started with. *)
Theorem unused_filter_deterministic :
  forall (platform : Platform) (p1 p2 : DeleteUnusedAssetsProps)
         (r1 r2 : StringSet.t) (inventory : list AssetInfo),
    excludePatterns p1 = excludePatterns p2 ->
    olderThan p1 = olderThan p2 ->
    (forall id, In id r1 <-> In id r2) ->
    filter_result (is_unused p1 r1) inventory
      = filter_result (is_unused p2 r2) inventory
    /\ (forall out,
          filter_result (is_unused p1 r1) inventory = Ok out ->
          filter_result (is_unused p2 r2) out = Ok out)
    /\ (forall (s1 s2 : State) docs nested,
          fetch_allAssets (client p1) (typeFilter p1) (maxAssets p1) = Ok inventory ->
          fetch_allAssets (client p2) (typeFilter p2) (maxAssets p2) = Ok inventory ->
          fetch_referencedAssets (client p1) (typeFilter p1) = Ok docs ->
          fetch_referencedAssets (client p2) (typeFilter p2) = Ok docs ->
          fetch_complexRefs (client p1) = Ok nested ->
          fetch_complexRefs (client p2) = Ok nested ->
          exists w1 w2,
            run (scanForUnusedAssets p1) s1 = Some w1
            /\ run (scanForUnusedAssets p2) s2 = Some w2
            /\ ((exists out,
                    filter_result (is_unused p1 (collect_references docs nested))
                                  inventory = Ok out
                    /\ unusedAssets (state w1) = out
                    /\ unusedAssets (state w2) = out)
                \/ (exists error,
                      filter_result (is_unused p1 (collect_references docs nested))
                                    inventory = Throw error
                      /\ unusedAssets (state w1) = unusedAssets s1
                      /\ unusedAssets (state w2) = unusedAssets s2))).
Proof.
  intros platform p1 p2 r1 r2 inventory He Ho Hr.
  pose proof (is_unused_same_inputs p1 p2 r1 r2 He Ho Hr) as Hsame.
  split; [now apply filter_result_ext |]. split.
  - intros out H.
    rewrite <- (filter_result_ext _ _ out Hsame).
    now apply filter_result_again with (l := inventory).
  - intros s1 s2 docs nested Ha1 Ha2 Hd1 Hd2 Hn1 Hn2.
    assert (Hrefl : forall id : string,
               In id (collect_references docs nested)
               <-> In id (collect_references docs nested)) by tauto.
    pose proof (filter_result_ext _ _ inventory
                  (is_unused_same_inputs p1 p2 _ _ He Ho Hrefl)) as Hf.
    unfold run, scanForUnusedAssets, scanForUnusedAssets_with, try_finally,
      try_catch, bind, client_fetch_allAssets, client_fetch_referencedAssets,
      client_fetch_complexRefs, lift_result. cbn.
    rewrite Ha1, Ha2. cbn. rewrite Hd1, Hd2. cbn. rewrite Hn1, Hn2. cbn.
    rewrite <- Hf.
    destruct (filter_result (is_unused p1 (collect_references docs nested))
                inventory) as [out | e]; cbn.
    + eexists _, _. split; [reflexivity |]. split; [reflexivity |].
      left. exists out. repeat split.
    + destruct (onError p1), (onError p2); cbn;
        eexists _, _; (split; [reflexivity |]); (split; [reflexivity |]);
        right; exists e; repeat split.
Qed.

(** C7: when a read query of the scan throws, the queries after it are
    not issued, the error callback receives the message of the failure,
    and the candidate list, the selection and the total size are the ones
    from before the scan. *)
Theorem scan_failure_keeps_candidates :
  forall (platform : Platform) (p : DeleteUnusedAssetsProps) (s : State)
         (n : nat) (e : Thrown),
    scan_fails_at p n e ->
    exists w,
      run (scanForUnusedAssets p) s = Some w
      /\ unusedAssets (state w) = unusedAssets s
      /\ selectedAssets (state w) = selectedAssets s
      /\ totalSize (state w) = totalSize s
      /\ isScanning (state w) = false
      /\ scanProgress (state w) = 0
      /\ message (state w) = MsgScanError (message_or "Scan failed" e)
      /\ trace w = firstn (S n) (scan_queries p)
                   ++ [ConsoleError e]
                   ++ (if onError p
                       then [OnError (message_or "Scan failed" e)]
                       else []).
Proof.
  intros platform p s n e H.
  destruct n as [| [| [| n]]]; simpl in H.
  - unfold run, scanForUnusedAssets, scanForUnusedAssets_with, try_finally,
      try_catch, bind, client_fetch_allAssets. cbn. rewrite H. cbn.
    destruct (onError p); cbn; eexists; (split; [reflexivity |]);
      cbn; repeat split; reflexivity.
  - destruct H as [[assets Ha] Hd].
    unfold run, scanForUnusedAssets, scanForUnusedAssets_with, try_finally,
      try_catch, bind, client_fetch_allAssets, client_fetch_referencedAssets.
    cbn.
    rewrite Ha. cbn. rewrite Hd. cbn.
    destruct (onError p); cbn; eexists; (split; [reflexivity |]);
      cbn; repeat split; reflexivity.
  - destruct H as [[assets Ha] [[docs Hd] Hn]].
    unfold run, scanForUnusedAssets, scanForUnusedAssets_with, try_finally,
      try_catch, bind, client_fetch_allAssets, client_fetch_referencedAssets,
      client_fetch_complexRefs. cbn.
    rewrite Ha. cbn. rewrite Hd. cbn. rewrite Hn. cbn.
    destruct (onError p); cbn; eexists; (split; [reflexivity |]);
      cbn; repeat split; reflexivity.
  - contradiction.
Qed.

(** C10: with [assetTypes] empty the type filter of the scan is the one
    of file assets, and the scan is the scan of [assetTypes = ['file']]. *)
Theorem empty_assetTypes_scans_files :
  forall (platform : Platform) (p : DeleteUnusedAssetsProps),
    typeFilter (with_assetTypes p [])
      = ("_type == " ++ dquote ++ "sanity.fileAsset" ++ dquote)%string
    /\ typeFilter (with_assetTypes p []) = typeFilter (with_assetTypes p [file])
    /\ (forall w, scanForUnusedAssets (with_assetTypes p []) w
                  = scanForUnusedAssets (with_assetTypes p [file]) w).
Proof.
  intros platform p. repeat split.
Qed.

(* ================================================================= *)
(** ** Properties of pattern matching *)

Module RegExpFacts.

Import RegExp.

Lemma match_here_star (r : t) (s : list ascii) :
  match_here (AnyStar :: r) s
  = match_here r s
    || match s with
       | x :: s' => negb (is_line_terminator x) && match_here (AnyStar :: r) s'
       | [] => false
       end.
Proof. destruct s; reflexivity. Qed.

(** The matcher finds only matches of the reference semantics... *)
Lemma match_here_sound (r : t) :
  forall s, match_here r s = true ->
  exists s1 s2, s = s1 ++ s2 /\ Matches r s1.
Proof.
  induction r as [| [c | |] r IH]; intros s H.
  - exists [], s. split; [reflexivity | constructor].
  - destruct s as [| x s]; simpl in H; [discriminate |].
    apply andb_prop in H. destruct H as [Hc Hr].
    destruct (IH s Hr) as [s1 [s2 [-> Hm]]].
    exists (x :: s1), s2. split; [reflexivity | now constructor].
  - destruct s as [| x s]; simpl in H; [discriminate |].
    apply andb_prop in H. destruct H as [Hc Hr].
    apply negb_true_iff in Hc.
    destruct (IH s Hr) as [s1 [s2 [-> Hm]]].
    exists (x :: s1), s2. split; [reflexivity | now constructor].
  - induction s as [| x s IHs]; rewrite match_here_star in H;
      apply orb_prop in H; destruct H as [H | H].
    + destruct (IH _ H) as [s1 [s2 [Heq Hm]]].
      exists s1, s2. split; [assumption |].
      now apply (Matches_star []).
    + discriminate.
    + destruct (IH _ H) as [s1 [s2 [Heq Hm]]].
      exists s1, s2. split; [assumption |].
      now apply (Matches_star []).
    + apply andb_prop in H. destruct H as [Hc Hr].
      apply negb_true_iff in Hc.
      destruct (IHs Hr) as [s1 [s2 [-> Hm]]].
      inversion Hm as [| | | mid r' t' Hmid Ht]; subst.
      exists (x :: mid ++ t'), s2. split; [reflexivity |].
      apply (Matches_star (x :: mid)); [now constructor | assumption].
Qed.

(** ... and it finds every one of them. *)
Lemma match_here_complete (r : t) (s1 : list ascii) :
  Matches r s1 -> forall s2, match_here r (s1 ++ s2) = true.
Proof.
  induction 1 as [| c x r s Hc _ IH | x r s Hx _ IH | mid r s Hmid _ IH];
    intros s2.
  - reflexivity.
  - cbn [match_here app]. now rewrite Hc, IH.
  - cbn [match_here app]. now rewrite Hx, IH.
  - induction Hmid as [| x mid Hx _ IHmid]; cbn [app];
      rewrite match_here_star.
    + now rewrite IH.
    + rewrite Hx, IHmid. apply orb_true_r.
Qed.

Lemma search_unfold (r : t) (s : list ascii) :
  search r s
  = match_here r s
    || match s with
       | _ :: s' => search r s'
       | [] => false
       end.
Proof. destruct s; reflexivity. Qed.

Lemma search_spec (r : t) (s : list ascii) :
  search r s = true <->
  exists u s1 v, s = u ++ s1 ++ v /\ Matches r s1.
Proof.
  split.
  - induction s as [| x s IH]; simpl; intros H;
      apply orb_prop in H; destruct H as [H | H].
    + destruct (match_here_sound _ _ H) as [s1 [s2 [Heq Hm]]].
      exists [], s1, s2. auto.
    + discriminate.
    + destruct (match_here_sound _ _ H) as [s1 [s2 [Heq Hm]]].
      exists [], s1, s2. auto.
    + destruct (IH H) as [u [s1 [v [-> Hm]]]].
      exists (x :: u), s1, v. auto.
  - intros [u [s1 [v [-> Hm]]]].
    induction u as [| x u IH].
    + cbn [app]. rewrite search_unfold.
      now rewrite (match_here_complete _ _ Hm v).
    + cbn [app]. rewrite search_unfold, IH. apply orb_true_r.
Qed.

(** *** Letters and case *)

Lemma canonicalize_idempotent (c : ascii) :
  canonicalize (canonicalize c) = canonicalize c.
Proof. destruct c as [[] [] [] [] [] [] [] []]; reflexivity. Qed.

Lemma is_line_terminator_canonicalize (c : ascii) :
  is_line_terminator (canonicalize c) = is_line_terminator c.
Proof. destruct c as [[] [] [] [] [] [] [] []]; reflexivity. Qed.

Lemma is_syntax_character_canonicalize (c : ascii) :
  is_syntax_character (canonicalize c) = is_syntax_character c.
Proof. destruct c as [[] [] [] [] [] [] [] []]; reflexivity. Qed.

Lemma is_dot_canonicalize (c : ascii) :
  Ascii.eqb (canonicalize c) dot = Ascii.eqb c dot.
Proof. destruct c as [[] [] [] [] [] [] [] []]; reflexivity. Qed.

Lemma is_star_canonicalize (c : ascii) :
  Ascii.eqb (canonicalize c) star = Ascii.eqb c star.
Proof. destruct c as [[] [] [] [] [] [] [] []]; reflexivity. Qed.

Lemma match_here_canonical (r : t) :
  forall s, match_here (map canonical_item r) (map canonicalize s)
            = match_here r s.
Proof.
  induction r as [| [c | |] r IH]; intros s.
  - reflexivity.
  - destruct s as [| x s]; simpl; [reflexivity |].
    unfold same_letter. now rewrite !canonicalize_idempotent, IH.
  - destruct s as [| x s]; simpl; [reflexivity |].
    now rewrite is_line_terminator_canonicalize, IH.
  - change (map canonical_item (AnyStar :: r))
      with (AnyStar :: map canonical_item r).
    induction s as [| x s IHs].
    + cbn [map]. rewrite !match_here_star. now rewrite <- (IH []).
    + rewrite (match_here_star r (x :: s)), <- (IH (x :: s)), <- IHs.
      cbn [map].
      rewrite (match_here_star (map canonical_item r)
                 (canonicalize x :: map canonicalize s)).
      now rewrite is_line_terminator_canonicalize.
Qed.

Lemma search_canonical (r : t) (s : list ascii) :
  search (map canonical_item r) (map canonicalize s) = search r s.
Proof.
  induction s as [| x s IH];
    rewrite (search_unfold (map canonical_item r) (map canonicalize _)),
      (search_unfold r _), match_here_canonical; cbn [map].
  - reflexivity.
  - now rewrite IH.
Qed.

Lemma is_ascii_canonicalize (c : ascii) :
  is_ascii (canonicalize c) = is_ascii c.
Proof. destruct c as [[] [] [] [] [] [] [] []]; reflexivity. Qed.

Lemma parse_canonical (src : list ascii) :
  parse (map canonicalize src) = option_map (map canonical_item) (parse src).
Proof.
  remember (List.length src) as n eqn:Hn.
  revert src Hn. induction n as [n IH] using lt_wf_ind. intros src Hn.
  destruct src as [| c rest]; [reflexivity |].
  cbn [map parse].
  rewrite is_dot_canonicalize, is_syntax_character_canonicalize,
    is_ascii_canonicalize.
  destruct (Ascii.eqb c dot).
  - destruct rest as [| c' rest']; [reflexivity |].
    cbn [map]. rewrite is_star_canonicalize.
    destruct (Ascii.eqb c' star).
    + rewrite (IH (List.length rest')) by (subst n; simpl; lia || reflexivity).
      destruct (parse rest'); reflexivity.
    + change (canonicalize c' :: map canonicalize rest')
        with (map canonicalize (c' :: rest')).
      rewrite (IH (List.length (c' :: rest'))) by (subst n; simpl; lia || reflexivity).
      destruct (parse (c' :: rest')); reflexivity.
  - destruct (is_syntax_character c || negb (is_ascii c)); [reflexivity |].
    rewrite (IH (List.length rest)) by (subst n; simpl; lia || reflexivity).
    destruct (parse rest); reflexivity.
Qed.

End RegExpFacts.

(** *** The words of the specification and the functions of the matcher *)

Lemma nat_of_canonicalize (c : ascii) :
  nat_of_ascii (RegExp.canonicalize c)
  = if (97 <=? nat_of_ascii c) && (nat_of_ascii c <=? 122)
    then nat_of_ascii c - 32
    else nat_of_ascii c.
Proof.
  unfold RegExp.canonicalize. cbv zeta.
  destruct ((97 <=? nat_of_ascii c) && (nat_of_ascii c <=? 122));
    [| reflexivity].
  apply nat_ascii_embedding. pose proof (nat_ascii_bounded c). lia.
Qed.

(** The matcher identifies two characters exactly when they agree up to
    the case of a letter. *)
Lemma canonicalize_agree (a b : ascii) :
  RegExp.canonicalize a = RegExp.canonicalize b <-> letters_agree a b.
Proof.
  unfold letters_agree. split.
  - intros H. apply (f_equal nat_of_ascii) in H.
    rewrite !nat_of_canonicalize in H.
    destruct (Nat.eq_dec (nat_of_ascii a) (nat_of_ascii b)) as [E | E].
    + left. rewrite <- (ascii_nat_embedding a), <- (ascii_nat_embedding b).
      now rewrite E.
    + right.
      destruct (Nat.leb_spec 97 (nat_of_ascii a)),
        (Nat.leb_spec (nat_of_ascii a) 122),
        (Nat.leb_spec 97 (nat_of_ascii b)),
        (Nat.leb_spec (nat_of_ascii b) 122); cbn [andb] in H;
        try lia;
        try (exists (nat_of_ascii a - 97); lia);
        try (exists (nat_of_ascii b - 97); lia).
  - intros [-> | [k [Hk Hab]]]; [reflexivity |].
    rewrite <- (ascii_nat_embedding (RegExp.canonicalize a)),
      <- (ascii_nat_embedding (RegExp.canonicalize b)).
    f_equal. rewrite !nat_of_canonicalize.
    destruct (Nat.leb_spec 97 (nat_of_ascii a)),
      (Nat.leb_spec (nat_of_ascii a) 122),
      (Nat.leb_spec 97 (nat_of_ascii b)),
      (Nat.leb_spec (nat_of_ascii b) 122); cbn [andb]; lia.
Qed.

Lemma same_letters_canonical (a b : string) :
  same_letters a b
  <-> map RegExp.canonicalize (list_ascii_of_string a)
      = map RegExp.canonicalize (list_ascii_of_string b).
Proof.
  unfold same_letters.
  generalize (list_ascii_of_string a) (list_ascii_of_string b).
  intros l. induction l as [| c l IH]; intros [| d l']; cbn [map]; split;
    intros H; try discriminate; try reflexivity; try constructor;
    try (inversion H; fail).
  - inversion H as [| ? ? ? ? Hc Hl]; subst.
    apply canonicalize_agree in Hc. apply IH in Hl. now rewrite Hc, Hl.
  - injection H as Hc Hl. now apply canonicalize_agree.
  - injection H as Hc Hl. now apply IH.
Qed.

Lemma is_line_terminator_false (x : ascii) :
  RegExp.is_line_terminator x = false <-> ~ line_terminator x.
Proof.
  unfold RegExp.is_line_terminator, line_terminator.
  rewrite orb_false_iff, !Ascii.eqb_neq. tauto.
Qed.

Lemma no_line_terminators (l : list ascii) :
  Forall (fun x => RegExp.is_line_terminator x = false) l
  <-> Forall (fun x => ~ line_terminator x) l.
Proof.
  split; apply Forall_impl; intros x; apply is_line_terminator_false.
Qed.

Section PatternFacts.

Import RegExp.

Lemma list_ascii_of_string_app (a b : string) :
  list_ascii_of_string (a ++ b)
  = list_ascii_of_string a ++ list_ascii_of_string b.
Proof.
  induction a as [| c a IH]; simpl; [reflexivity | now rewrite IH].
Qed.

Lemma replace_stars_app (a b : string) :
  replace_stars (a ++ b) = (replace_stars a ++ replace_stars b)%string.
Proof.
  induction a as [| c a IH]; simpl; [reflexivity |].
  destruct (Ascii.eqb c star); simpl; now rewrite IH.
Qed.

Lemma plain_character_spec (c : ascii) :
  plain_character c = true ->
  Ascii.eqb c dot = false
  /\ is_syntax_character c = false
  /\ is_ascii c = true.
Proof.
  unfold plain_character. intros H.
  apply andb_prop in H. destruct H as [H Ha].
  apply andb_prop in H. destruct H as [Hd Hs].
  apply negb_true_iff in Hd, Hs. auto.
Qed.

Lemma plain_character_not_star (c : ascii) :
  plain_character c = true -> Ascii.eqb c star = false.
Proof.
  intros H. apply plain_character_spec in H. destruct H as [_ [H _]].
  destruct (Ascii.eqb c star) eqn:E; [| reflexivity].
  apply Ascii.eqb_eq in E. subst c. discriminate.
Qed.

Lemma replace_stars_plain (s : string) :
  plain_text s -> replace_stars s = s.
Proof.
  unfold plain_text. induction s as [| c s IH]; simpl; intros H.
  - reflexivity.
  - apply andb_prop in H. destruct H as [Hc Hs].
    now rewrite (plain_character_not_star _ Hc), IH.
Qed.

(** A plain text is parsed to its letters, whatever follows it. *)
Lemma parse_plain_app (l rest : list ascii) :
  forallb plain_character l = true ->
  parse (l ++ rest) = option_map (app (map Lit l)) (parse rest).
Proof.
  induction l as [| c l IH]; simpl; intros H.
  - destruct (parse rest); reflexivity.
  - apply andb_prop in H. destruct H as [Hc Hl].
    apply plain_character_spec in Hc. destruct Hc as [Hd [Hs Ha]].
    rewrite Hd, Hs, Ha, (IH Hl). destruct (parse rest); reflexivity.
Qed.

Lemma parse_star_pattern (pre post : string) :
  plain_text pre -> plain_text post ->
  compile (replace_stars (pre ++ "*" ++ post))
  = Some (map Lit (list_ascii_of_string pre)
          ++ AnyStar :: map Lit (list_ascii_of_string post)).
Proof.
  intros Hpre Hpost. unfold compile.
  rewrite !replace_stars_app, (replace_stars_plain _ Hpre),
    (replace_stars_plain _ Hpost), !list_ascii_of_string_app.
  rewrite (parse_plain_app _ _ Hpre). cbn [replace_stars list_ascii_of_string app].
  change (Ascii.eqb "*" star) with true. cbn iota.
  cbn [list_ascii_of_string app parse].
  change (Ascii.eqb dot dot) with true. change (Ascii.eqb star star) with true.
  cbn iota.
  pose proof (parse_plain_app (list_ascii_of_string post) [] Hpost) as Hp.
  rewrite app_nil_r in Hp. rewrite Hp. cbn. now rewrite app_nil_r.
Qed.

(** What a run of letters matches, followed by [r]. *)
Lemma Matches_letters (l : list ascii) (r : t) (s : list ascii) :
  Matches (map Lit l ++ r) s <->
  exists l' s', s = l' ++ s'
                /\ map canonicalize l = map canonicalize l'
                /\ Matches r s'.
Proof.
  revert s. induction l as [| c l IH]; intros s; simpl.
  - split.
    + intros H. exists [], s. auto.
    + intros [l' [s' [-> [Hl H]]]]. destruct l'; [assumption | discriminate].
  - split.
    + intros H. inversion H as [| c0 x r0 s0 Hc Hm | |]; subst.
      apply IH in Hm. destruct Hm as [l' [s' [-> [Hl Hm]]]].
      exists (x :: l'), s'. split; [reflexivity |]. split; [| assumption].
      simpl. apply Ascii.eqb_eq in Hc. now rewrite Hc, Hl.
    + intros [l' [s' [-> [Hl H]]]].
      destruct l' as [| x l']; [discriminate |].
      simpl in Hl. injection Hl as Hc Hl.
      simpl. constructor.
      * unfold same_letter. rewrite Hc. apply Ascii.eqb_refl.
      * apply IH. exists l', s'. auto.
Qed.

Lemma Matches_star_letters (pre post : list ascii) (s : list ascii) :
  Matches (map Lit pre ++ AnyStar :: map Lit post) s <->
  exists pre' mid post',
    s = pre' ++ mid ++ post'
    /\ map canonicalize pre = map canonicalize pre'
    /\ Forall (fun x => is_line_terminator x = false) mid
    /\ map canonicalize post = map canonicalize post'.
Proof.
  rewrite Matches_letters. split.
  - intros [pre' [s' [-> [Hpre H]]]].
    inversion H as [| | | mid r0 s0 Hmid Hm]; subst.
    pose proof (Matches_letters post [] s0) as Hl.
    rewrite app_nil_r in Hl. apply Hl in Hm.
    destruct Hm as [post' [s'' [-> [Hpost Hnil]]]].
    inversion Hnil; subst. rewrite app_nil_r.
    exists pre', mid, post'. auto.
  - intros [pre' [mid [post' [-> [Hpre [Hmid Hpost]]]]]].
    exists pre', (mid ++ post'). split; [reflexivity |]. split; [assumption |].
    constructor; [assumption |].
    pose proof (Matches_letters post [] post') as Hl.
    rewrite app_nil_r in Hl. apply Hl.
    exists post', []. rewrite app_nil_r. repeat split; auto. constructor.
Qed.

Lemma canonical_replace_stars (a b : string) :
  map canonicalize (list_ascii_of_string a)
  = map canonicalize (list_ascii_of_string b) ->
  map canonicalize (list_ascii_of_string (replace_stars a))
  = map canonicalize (list_ascii_of_string (replace_stars b)).
Proof.
  revert b.
  induction a as [| c a IH]; intros [| d b]; simpl; intros H;
    try discriminate; [reflexivity |].
  injection H as Hc Hl. specialize (IH b Hl).
  assert (Hs : Ascii.eqb c star = Ascii.eqb d star).
  { now rewrite <- (RegExpFacts.is_star_canonicalize c),
      <- (RegExpFacts.is_star_canonicalize d), Hc. }
  rewrite Hs. destruct (Ascii.eqb d star); simpl; now rewrite ?Hc, IH.
Qed.

(** Neither the case of the pattern nor the case of the input counts. *)
Lemma test_same_letters (p1 p2 a b : string) (r1 r2 : t) :
  same_letters p1 p2 -> same_letters a b ->
  compile (replace_stars p1) = Some r1 ->
  compile (replace_stars p2) = Some r2 ->
  test r1 a = test r2 b.
Proof.
  intros Hp Hab H1 H2. unfold test, compile in *.
  apply same_letters_canonical, canonical_replace_stars in Hp.
  apply same_letters_canonical in Hab.
  assert (Hr : map canonical_item r1 = map canonical_item r2).
  { pose proof (RegExpFacts.parse_canonical
                  (list_ascii_of_string (replace_stars p1))) as E1.
    pose proof (RegExpFacts.parse_canonical
                  (list_ascii_of_string (replace_stars p2))) as E2.
    rewrite H1 in E1. rewrite H2 in E2. rewrite Hp in E1.
    rewrite E1 in E2. simpl in E2. now injection E2. }
  rewrite <- (RegExpFacts.search_canonical r1),
    <- (RegExpFacts.search_canonical r2).
  now rewrite Hr, Hab.
Qed.

(** *** The patterns of the fragment *)

Lemma replace_stars_head (s : string) :
  match list_ascii_of_string (replace_stars s) with
  | c :: _ => Ascii.eqb c star = false
  | [] => True
  end.
Proof.
  destruct s as [| c s]; cbn; [exact I |].
  destruct (Ascii.eqb c star) eqn:E; cbn; [reflexivity | exact E].
Qed.

Lemma wildcard_character_cases (c : ascii) :
  wildcard_character c = true ->
  c = star \/ c = dot
  \/ (Ascii.eqb c star = false /\ Ascii.eqb c dot = false
      /\ plain_character c = true).
Proof.
  unfold wildcard_character. intros H.
  destruct (Ascii.eqb c star) eqn:Es;
    [left; now apply Ascii.eqb_eq |].
  destruct (Ascii.eqb c dot) eqn:Ed;
    [right; left; now apply Ascii.eqb_eq |].
  rewrite !orb_false_r in H. auto.
Qed.

Lemma compile_wildcard (pattern : string) :
  wildcard_text pattern ->
  compile (replace_stars pattern)
  = Some (map item_of (list_ascii_of_string pattern)).
Proof.
  unfold wildcard_text, compile.
  induction pattern as [| c pattern IH];
    cbn [list_ascii_of_string forallb map replace_stars]; intros H.
  - reflexivity.
  - apply andb_prop in H. destruct H as [Hc Hrest]. specialize (IH Hrest).
    destruct (wildcard_character_cases c Hc) as [-> | [-> | [Es [Ed Hp]]]].
    + change (Ascii.eqb star star) with true. cbn iota.
      cbn [list_ascii_of_string parse].
      change (Ascii.eqb dot dot) with true.
      change (Ascii.eqb star star) with true. cbn iota.
      now rewrite IH.
    + change (Ascii.eqb dot star) with false. cbn iota.
      cbn [list_ascii_of_string parse].
      change (Ascii.eqb dot dot) with true. cbn iota.
      pose proof (replace_stars_head pattern) as Hh.
      destruct (list_ascii_of_string (replace_stars pattern)) as [| c' rest'].
      * cbn in IH. injection IH as <-. reflexivity.
      * now rewrite Hh, IH.
    + rewrite Es. cbn [list_ascii_of_string parse].
      apply plain_character_spec in Hp. destruct Hp as [_ [Hs Ha]].
      rewrite Ed, Hs, Ha, IH. unfold item_of. now rewrite Es, Ed.
Qed.

(** The reference semantics of the items is the specification's reading
    of the pattern. *)
Lemma Matches_wildcard (l : list ascii) :
  forallb wildcard_character l = true ->
  forall s, Matches (map item_of l) s <-> Wildcard l s.
Proof.
  induction l as [| c l IH]; cbn [forallb map]; intros H s.
  - split; intros Hm; inversion Hm; constructor.
  - apply andb_prop in H. destruct H as [Hc Hrest]. specialize (IH Hrest).
    destruct (wildcard_character_cases c Hc) as [-> | [-> | [Es [Ed Hp]]]].
    + change (item_of star) with AnyStar. split; intros Hm.
      * inversion Hm as [| | | mid r0 s0 Hmid Hs]; subst.
        apply (Wildcard_star l mid s0);
          [now apply no_line_terminators | now apply IH].
      * inversion Hm as [| ? run found Hrun Hf | | ? ? ? ? Hpl]; subst.
        -- constructor; [now apply no_line_terminators | now apply IH].
        -- discriminate Hpl.
    + change (item_of dot) with AnyChar. split; intros Hm.
      * inversion Hm as [| | x r0 s0 Hx Hs |]; subst.
        apply (Wildcard_dot l x s0);
          [now apply is_line_terminator_false | now apply IH].
      * inversion Hm as [| | ? x found Hx Hf | ? ? ? ? Hpl]; subst.
        -- constructor; [now apply is_line_terminator_false | now apply IH].
        -- discriminate Hpl.
    + assert (Hi : item_of c = Lit c) by (unfold item_of; now rewrite Es, Ed).
      rewrite Hi. split; intros Hm.
      * inversion Hm as [| c0 x r0 s0 Hx Hs | |]; subst.
        apply Wildcard_plain; [assumption | | now apply IH].
        apply canonicalize_agree. now apply Ascii.eqb_eq.
      * inversion Hm as [| ? run found Hrun Hf | ? x found Hx Hf
                         | ? ? x found Hpl Hx Hf]; subst.
        -- discriminate Es.
        -- discriminate Ed.
        -- constructor; [| now apply IH].
           unfold same_letter. apply Ascii.eqb_eq.
           now apply canonicalize_agree.
Qed.

Lemma wildcard_canonical (a b : string) :
  wildcard_text a -> same_letters a b -> wildcard_text b.
Proof.
  unfold wildcard_text. intros Ha Hab.
  apply same_letters_canonical in Hab. revert Ha Hab.
  generalize (list_ascii_of_string a) (list_ascii_of_string b).
  intros l. induction l as [| c l IH]; intros [| d l']; cbn [map forallb];
    intros Ha Hab; try discriminate; [reflexivity |].
  injection Hab as Hc Hl. apply andb_prop in Ha. destruct Ha as [Ha Hrest].
  rewrite (IH l' Hrest Hl), andb_true_r.
  assert (Hw : forall x, wildcard_character (canonicalize x)
                         = wildcard_character x).
  { intros x. unfold wildcard_character, plain_character.
    now rewrite RegExpFacts.is_dot_canonicalize,
      RegExpFacts.is_star_canonicalize,
      RegExpFacts.is_syntax_character_canonicalize,
      RegExpFacts.is_ascii_canonicalize. }
  now rewrite <- Hw, <- Hc, Hw.
Qed.

End PatternFacts.

Lemma string_of_list_ascii_app (a b : list ascii) :
  string_of_list_ascii (a ++ b)
  = (string_of_list_ascii a ++ string_of_list_ascii b)%string.
Proof.
  induction a as [| c a IH]; simpl; [reflexivity | now rewrite IH].
Qed.

(** [new RegExp] of a source that [JS.RegExp] reads. *)
Lemma RegExp_new_compiled {platform : Platform} (source : string)
    (regex : RegExp.t) :
  RegExp.compile source = Some regex ->
  RegExp_new source = Ok {| RegExp_test := RegExp.test regex |}.
Proof. intros H. unfold RegExp_new. now rewrite H. Qed.

Lemma star_pattern_test (pre post input : string) :
  plain_text pre -> plain_text post ->
  RegExp.test (map RegExp.Lit (list_ascii_of_string pre)
               ++ RegExp.AnyStar :: map RegExp.Lit (list_ascii_of_string post))
              input = true
  <-> exists u pre' mid post' v,
        input = (u ++ pre' ++ mid ++ post' ++ v)%string
        /\ same_letters pre pre'
        /\ no_line_terminator mid
        /\ same_letters post post'.
Proof.
  intros Hpre Hpost.
  unfold RegExp.test. rewrite RegExpFacts.search_spec. split.
  - intros [u [s1 [v [Hin Hm]]]].
    apply Matches_star_letters in Hm.
    destruct Hm as [pre' [mid [post' [-> [Hp [Hmid Hq]]]]]].
    exists (string_of_list_ascii u), (string_of_list_ascii pre'),
      (string_of_list_ascii mid), (string_of_list_ascii post'),
      (string_of_list_ascii v).
    unfold no_line_terminator. rewrite !same_letters_canonical.
    rewrite !list_ascii_of_string_of_list_ascii.
    repeat split; try assumption; [| now apply no_line_terminators].
    rewrite <- (string_of_list_ascii_of_string input), Hin, <- !app_assoc.
    now rewrite !string_of_list_ascii_app.
  - intros [u [pre' [mid [post' [v [-> [Hp [Hmid Hq]]]]]]]].
    exists (list_ascii_of_string u),
      (list_ascii_of_string pre' ++ list_ascii_of_string mid
       ++ list_ascii_of_string post'),
      (list_ascii_of_string v).
    split.
    + rewrite !list_ascii_of_string_app, <- !app_assoc. reflexivity.
    + apply Matches_star_letters.
      exists (list_ascii_of_string pre'), (list_ascii_of_string mid),
        (list_ascii_of_string post').
      apply same_letters_canonical in Hp, Hq.
      apply no_line_terminators in Hmid. auto.
Qed.

Lemma wildcard_pattern_test (pattern input : string) :
  wildcard_text pattern ->
  RegExp.test (map item_of (list_ascii_of_string pattern)) input = true
  <-> matches_within pattern input.
Proof.
  intros Hw. unfold RegExp.test, matches_within.
  rewrite RegExpFacts.search_spec. split.
  - intros [u [s1 [v [Hin Hm]]]].
    apply (Matches_wildcard _ Hw) in Hm.
    exists (string_of_list_ascii u), (string_of_list_ascii s1),
      (string_of_list_ascii v).
    rewrite list_ascii_of_string_of_list_ascii. split; [| assumption].
    rewrite <- (string_of_list_ascii_of_string input), Hin.
    now rewrite !string_of_list_ascii_app.
  - intros [u [found [v [-> Hm]]]].
    exists (list_ascii_of_string u), (list_ascii_of_string found),
      (list_ascii_of_string v).
    split; [now rewrite !list_ascii_of_string_app |].
    now apply (Matches_wildcard _ Hw).
Qed.

(** An asset is excluded exactly when a pattern matches its file name or
    its identifier and [new RegExp] did not throw for a pattern before
    it. *)
Lemma some_result_true_iff {platform : Platform} (asset : AssetInfo)
    (patterns : list string) :
  some_result (pattern_excludes asset) patterns = Ok true
  <-> exists before pattern after regex,
        patterns = before ++ pattern :: after
        /\ (forall q, In q before ->
              exists r, RegExp_new (replace_stars q) = Ok r)
        /\ RegExp_new (replace_stars pattern) = Ok regex
        /\ (RegExp_test regex (string_or (originalFilename asset) EmptyString)
            = true
            \/ RegExp_test regex (_id asset) = true).
Proof.
  induction patterns as [| q patterns IH]; cbn [some_result].
  - split; [discriminate |].
    intros [before [pattern [after [regex [H _]]]]].
    destruct before; discriminate.
  - unfold pattern_excludes at 1.
    destruct (RegExp_new (replace_stars q)) as [r | e] eqn:Hq.
    + destruct (RegExp_test r _ || RegExp_test r _) eqn:Ht.
      * split; [intros _ | reflexivity].
        exists [], q, patterns, r. split; [reflexivity |].
        split; [intros q' [] |]. split; [assumption |].
        now apply orb_true_iff in Ht.
      * rewrite IH. split.
        -- intros [before [pattern [after [regex [-> [Hb Hrest]]]]]].
           exists (q :: before), pattern, after, regex.
           split; [reflexivity |]. split; [| assumption].
           intros q' [<- | Hin]; eauto.
        -- intros [before [pattern [after [regex [Heq [Hb [Hr Hm]]]]]]].
           destruct before as [| q' before]; cbn [app] in Heq;
             injection Heq as <- ->.
           ++ rewrite Hq in Hr. injection Hr as <-.
              apply orb_false_elim in Ht. destruct Ht as [Hf Hi].
              destruct Hm; congruence.
           ++ exists before, pattern, after, regex.
              split; [reflexivity |]. split; [| auto].
              intros q' Hin. apply Hb. now right.
    + split; [discriminate |].
      intros [before [pattern [after [regex [Heq [Hb [Hr Hm]]]]]]].
      destruct before as [| q' before]; cbn [app] in Heq;
        injection Heq as <- ->.
      * congruence.
      * destruct (Hb q (or_introl eq_refl)) as [r Hr']. congruence.
Qed.

Lemma isExcluded_true_iff {platform : Platform} (p : DeleteUnusedAssetsProps)
    (asset : AssetInfo) :
  isExcluded p asset = Ok true
  <-> exists before pattern after regex,
        excludePatterns p = before ++ pattern :: after
        /\ (forall q, In q before ->
              exists r, RegExp_new (replace_stars q) = Ok r)
        /\ RegExp_new (replace_stars pattern) = Ok regex
        /\ (RegExp_test regex (string_or (originalFilename asset) EmptyString)
            = true
            \/ RegExp_test regex (_id asset) = true).
Proof.
  unfold isExcluded.
  destruct (excludePatterns p) as [| q patterns] eqn:Hp;
    cbn [List.length Nat.eqb].
  - split; [discriminate |].
    intros [before [pattern [after [regex [H _]]]]].
    destruct before; discriminate.
  - apply some_result_true_iff.
Qed.

Lemma isExcluded_spec {platform : Platform} (p : DeleteUnusedAssetsProps)
    (asset : AssetInfo) :
  patterns_compile p ->
  (isExcluded p asset = Ok true
   <-> exists pattern regex,
         In pattern (excludePatterns p)
         /\ RegExp_new (replace_stars pattern) = Ok regex
         /\ (RegExp_test regex (string_or (originalFilename asset) EmptyString)
             = true
             \/ RegExp_test regex (_id asset) = true)).
Proof.
  intros Hm. split.
  - intros H. destruct (isExcluded_true p asset H) as [pattern [Hin [regex Hex]]].
    exists pattern, regex. tauto.
  - intros [pattern [regex [Hin Hex]]].
    destruct (isExcluded_returns p asset Hm) as [[|] E]; [assumption |].
    exfalso. apply (isExcluded_false p asset E pattern Hin).
    exists regex. exact Hex.
Qed.

(** C6, as stated, fails: [*] becomes [.*], and [.] matches no line
    terminator.  The pattern [a*b] does not exclude a file whose name is
    [a], a line feed, [b]. *)
Lemma star_stops_at_line_terminator :
  pattern_excludes two_line_name "a*b" = Ok false
  /\ ~ star_matches_every_substring.
Proof.
  split; [reflexivity |].
  intros H.
  specialize (H example_platform two_line_name "a" newline "b"
                eq_refl eq_refl eq_refl).
  discriminate.
Qed.

(** C6, amended: an exclude pattern is searched anywhere in the tested
    string; a [*] of the pattern matches any substring without a line
    terminator (and a [.] any one character that is not a line
    terminator); the case of letters does not count, in the pattern or in
    the tested string; an asset is excluded when a pattern matches its
    file name or its identifier; [hero-*] excludes [hero-banner.jpg] and
    does not exclude [banner-hero.jpg].  What a pattern matches is stated
    for the patterns of plain ASCII characters, [.] and [*], and for
    ASCII strings. *)
Theorem exclude_pattern_matching :
  forall platform : Platform,
    (forall pattern : string,
       wildcard_text pattern ->
       exists regex,
         RegExp_new (replace_stars pattern) = Ok regex
         /\ forall input,
              ascii_text input ->
              (RegExp_test regex input = true
               <-> matches_within pattern input))
    /\ (forall pre post : string,
          plain_text pre -> plain_text post ->
          exists regex,
            RegExp_new (replace_stars (pre ++ "*" ++ post)) = Ok regex
            /\ forall input,
                 ascii_text input ->
                 (RegExp_test regex input = true <->
                  exists u pre' mid post' v,
                    input = (u ++ pre' ++ mid ++ post' ++ v)%string
                    /\ same_letters pre pre'
                    /\ no_line_terminator mid
                    /\ same_letters post post'))
    /\ (forall p1 p2 a b : string,
          wildcard_text p1 ->
          same_letters p1 p2 -> same_letters a b ->
          exists r1 r2,
            RegExp_new (replace_stars p1) = Ok r1
            /\ RegExp_new (replace_stars p2) = Ok r2
            /\ RegExp_test r1 a = RegExp_test r2 b)
    /\ (forall (p : DeleteUnusedAssetsProps) (asset : AssetInfo),
          isExcluded p asset = Ok true
          <-> exists before pattern after regex,
                excludePatterns p = before ++ pattern :: after
                /\ (forall q, In q before ->
                      exists r, RegExp_new (replace_stars q) = Ok r)
                /\ RegExp_new (replace_stars pattern) = Ok regex
                /\ (RegExp_test regex
                      (string_or (originalFilename asset) EmptyString) = true
                    \/ RegExp_test regex (_id asset) = true))
    /\ isExcluded hero_props hero_banner = Ok true
    /\ isExcluded hero_props banner_hero = Ok false
    /\ isExcluded (with_excludePatterns hero_props ["HERO-*"]) hero_banner
       = Ok true.
Proof.
  intros platform. split; [| split; [| split; [| split; [| split; [| split]]]]].
  - intros pattern Hw. eexists.
    split; [apply RegExp_new_compiled; now apply compile_wildcard |].
    intros input _. cbn [RegExp_test]. now apply wildcard_pattern_test.
  - intros pre post Hpre Hpost. eexists.
    split; [apply RegExp_new_compiled; now apply parse_star_pattern |].
    intros input _. cbn [RegExp_test]. now apply star_pattern_test.
  - intros p1 p2 a b Hw Hp Hab.
    pose proof (compile_wildcard p1 Hw) as H1.
    pose proof (compile_wildcard p2 (wildcard_canonical p1 p2 Hw Hp)) as H2.
    eexists _, _.
    split; [exact (RegExp_new_compiled _ _ H1) |].
    split; [exact (RegExp_new_compiled _ _ H2) |].
    cbn [RegExp_test]. exact (test_same_letters p1 p2 a b _ _ Hp Hab H1 H2).
  - intros p asset. apply isExcluded_true_iff.
  - reflexivity.
  - reflexivity.
  - reflexivity.
Qed.

(** *** The unused-set filter *)




(* ================================================================= *)
(** ** Properties of the batch loop *)

Section BatchArithmetic.

Variable step : nat.
Hypothesis step_positive : 1 <= step.

(** Index [k] starts inside an array of length [n] exactly when [k] is
    below the number of batches. *)
Lemma batch_count_spec (n k : nat) :
  k < batch_count step n <-> k * step < n.
Proof.
  unfold batch_count. split; intros H.
  - destruct (Nat.lt_ge_cases (k * step) n) as [Hlt | Hge]; [assumption |].
    exfalso. apply (Nat.lt_irrefl k).
    eapply Nat.lt_le_trans; [exact H |].
    apply Nat.lt_succ_r. apply Nat.Div0.div_lt_upper_bound. nia.
  - apply (Nat.lt_le_trans _ (S k)); [apply Nat.lt_succ_diag_r |].
    apply Nat.div_le_lower_bound; [lia | nia].
Qed.

Lemma batch_count_0 : batch_count step 0 = 0.
Proof.
  destruct (batch_count step 0) as [| c] eqn:E; [reflexivity |].
  assert (H : 0 < batch_count step 0) by (rewrite E; lia).
  apply batch_count_spec in H. lia.
Qed.

(** The loop runs its body at [0], [step], [2 * step], ... as long as
    the index is in the array. *)
Lemma for_loop_foldM {A} (body : nat -> A -> M A) (n : nat) :
  forall fuel j acc w,
    n - j * step <= fuel ->
    for_loop fuel (j * step) n step body acc w
    = foldM (fun k => body (k * step)) (seq j (batch_count step n - j)) acc w.
Proof.
  induction fuel as [| fuel IH]; intros j acc w Hfuel.
  - assert (Hj : ~ j < batch_count step n)
      by (rewrite batch_count_spec; lia).
    replace (batch_count step n - j) with 0 by lia.
    cbn [for_loop seq foldM].
    destruct (j * step <? n) eqn:E; [| reflexivity].
    apply Nat.ltb_lt in E. lia.
  - cbn [for_loop]. destruct (j * step <? n) eqn:E.
    + apply Nat.ltb_lt in E.
      assert (Hj : j < batch_count step n) by (now apply batch_count_spec).
      replace (batch_count step n - j) with (S (batch_count step n - S j))
        by lia.
      cbn [seq foldM]. unfold bind.
      destruct (body (j * step) acc w) as [[[acc' | e] w'] |];
        [| reflexivity | reflexivity].
      replace (j * step + step) with (S j * step) by lia.
      apply IH. lia.
    + apply Nat.ltb_ge in E.
      assert (Hj : ~ j < batch_count step n)
        by (rewrite batch_count_spec; lia).
      replace (batch_count step n - j) with 0 by lia.
      reflexivity.
Qed.

(** The batches are the array cut at every [step] elements. *)
Lemma batches_concat (arr : list string) :
  forall c j,
    c = batch_count step (List.length arr) - j ->
    List.concat (map (batch_at step arr) (seq j c)) = skipn (j * step) arr.
Proof.
  induction c as [| c IH]; intros j Hc.
  - cbn [seq map List.concat]. symmetry. apply skipn_all2.
    assert (Hj : ~ j < batch_count step (List.length arr)) by lia.
    rewrite batch_count_spec in Hj. lia.
  - cbn [seq map List.concat]. rewrite (IH (S j)) by lia.
    unfold batch_at, slice.
    replace (j * step + step - j * step) with step by lia.
    replace (S j * step) with (step + j * step) by lia.
    rewrite <- skipn_skipn. apply firstn_skipn.
Qed.

Lemma batch_at_length (arr : list string) (k : nat) :
  List.length (batch_at step arr k)
  = Nat.min step (List.length arr - k * step).
Proof.
  unfold batch_at, slice. rewrite length_firstn, length_skipn.
  replace (k * step + step - k * step) with step by lia. reflexivity.
Qed.

End BatchArithmetic.

Lemma count_events_app (kind : Event -> bool) (t1 t2 : list Event) :
  count_events kind (t1 ++ t2) = count_events kind t1 + count_events kind t2.
Proof. unfold count_events. now rewrite filter_app, length_app. Qed.

Lemma fold_transaction_delete (batch transaction : list string) :
  fold_left transaction_delete batch transaction = transaction ++ batch.
Proof.
  revert transaction. induction batch as [| id batch IH]; intros transaction.
  - now rewrite app_nil_r.
  - simpl. rewrite IH. unfold transaction_delete. now rewrite <- app_assoc.
Qed.

Section BatchLoop.

Variable p : DeleteUnusedAssetsProps.
Variable s : State.
Variable arr : list string.

Let body (k : nat) : Locals.t -> M Locals.t :=
  handleDelete_batch p s arr (k * batchSize p).

(** One batch of a dry run. *)
Lemma preview_batch (k : nat) (l : Locals.t) (w : World) :
  dryRun p = true ->
  body k l w
  = Some (Ok (after_preview p s arr l k),
          {| state := state w;
             trace := trace w ++ [ConsoleLog (batch_at (batchSize p) arr k)] |}).
Proof.
  intros Hdry. unfold body, handleDelete_batch. rewrite Hdry. reflexivity.
Qed.

Lemma preview_loop :
  dryRun p = true ->
  forall indices l w,
    foldM body indices l w
    = Some (Ok (fold_left (after_preview p s arr) indices l),
            {| state := state w;
               trace := trace w
                        ++ map (fun k => ConsoleLog (batch_at (batchSize p) arr k))
                               indices |}).
Proof.
  intros Hdry. induction indices as [| k indices IH]; intros l w.
  - cbn. rewrite app_nil_r. now destruct w.
  - cbn [foldM]. unfold bind. rewrite (preview_batch k l w Hdry).
    rewrite IH. cbn [state trace fold_left map]. now rewrite <- app_assoc.
Qed.

(** One batch of a run that deletes. *)
Lemma commit_batch (k : nat) (l : Locals.t) (w : World) :
  dryRun p = false ->
  1 <= batchSize p ->
  transaction_throws (client p) k = None ->
  count_events is_transaction (trace w) = k ->
  count_events is_commit (trace w) = k ->
  exists w',
    body k l w = Some (Ok (after_commit p s arr l k), w')
    /\ forget_message (state w') = forget_message (state w)
    /\ trace w' = trace w ++ [Transaction; Commit (batch_at (batchSize p) arr k)].
Proof.
  intros Hdry Hsize Htx Hct Hcc.
  unfold body, handleDelete_batch, after_commit. rewrite Hdry.
  unfold bind, try_catch, client_transaction, transaction_commit.
  rewrite Hct, Htx. cbn [state trace].
  rewrite fold_transaction_delete. cbn [app].
  rewrite count_events_app, Hcc. cbn [count_events filter is_commit List.length].
  rewrite Nat.add_0_r, Nat.div_mul by lia.
  fold (batch_at (batchSize p) arr k).
  destruct (commit_throws (client p) k (batch_at (batchSize p) arr k));
    cbn; eexists; (split; [reflexivity |]); cbn;
    (split; [reflexivity | now rewrite <- app_assoc]).
Qed.

Lemma commit_loop :
  dryRun p = false ->
  1 <= batchSize p ->
  (forall k, transaction_throws (client p) k = None) ->
  forall c j l w,
    count_events is_transaction (trace w) = j ->
    count_events is_commit (trace w) = j ->
    exists w',
      foldM body (seq j c) l w
      = Some (Ok (fold_left (after_commit p s arr) (seq j c) l), w')
      /\ forget_message (state w') = forget_message (state w)
      /\ trace w' = trace w
                    ++ flat_map (fun k => [Transaction;
                                           Commit (batch_at (batchSize p) arr k)])
                                (seq j c).
Proof.
  intros Hdry Hsize Htx.
  induction c as [| c IH]; intros j l w Hct Hcc.
  - exists w. cbn. rewrite app_nil_r. auto.
  - destruct (commit_batch j l w Hdry Hsize (Htx j) Hct Hcc)
      as [w1 [Hb [Hf Ht]]].
    destruct (IH (S j) (after_commit p s arr l j) w1) as [w2 [Hl [Hf2 Ht2]]].
    + rewrite Ht, count_events_app, Hct. cbn. lia.
    + rewrite Ht, count_events_app, Hcc. cbn. lia.
    + exists w2. cbn [seq foldM fold_left flat_map]. unfold bind.
      rewrite Hb, Hl. split; [reflexivity |].
      split; [congruence |]. rewrite Ht2, Ht, <- app_assoc. reflexivity.
Qed.

(** Whatever the client does, a batch ends, and it writes no cell of
    the state but the message. *)
Lemma any_batch (i : nat) (l : Locals.t) (w : World) :
  exists r w',
    handleDelete_batch p s arr i l w = Some (r, w')
    /\ forget_message (state w') = forget_message (state w).
Proof.
  unfold handleDelete_batch.
  destruct (dryRun p).
  - eexists _, _. split; reflexivity.
  - unfold bind, try_catch, client_transaction, transaction_commit.
    destruct (transaction_throws (client p) _); cbn [state trace].
    + eexists _, _. split; reflexivity.
    + destruct (commit_throws (client p) _ _); cbn;
        eexists _, _; split; reflexivity.
Qed.

Lemma any_loop (indices : list nat) :
  forall l w,
    exists r w',
      foldM body indices l w = Some (r, w')
      /\ forget_message (state w') = forget_message (state w).
Proof.
  induction indices as [| k indices IH]; intros l w.
  - exists (Ok l), w. split; reflexivity.
  - destruct (any_batch (k * batchSize p) l w) as [r [w1 [Hb Hf]]].
    cbn [foldM]. unfold bind, body at 1. rewrite Hb.
    destruct r as [l' | e].
    + destruct (IH l' w1) as [r2 [w2 [Hl Hf2]]].
      exists r2, w2. split; [assumption | congruence].
    + exists (Throw e), w1. split; [reflexivity | assumption].
Qed.

(** The loop, when it ends, has written no cell but the message. *)
Lemma for_loop_frame (n step : nat) :
  forall fuel i l w r w',
    for_loop fuel i n step (handleDelete_batch p s arr) l w = Some (r, w') ->
    forget_message (state w') = forget_message (state w).
Proof.
  induction fuel as [| fuel IH]; intros i l w r w' H; cbn [for_loop] in H;
    destruct (i <? n).
  - discriminate.
  - injection H as _ <-. reflexivity.
  - unfold bind in H.
    destruct (any_batch i l w) as [r1 [w1 [Hb Hf]]]. rewrite Hb in H.
    destruct r1 as [l' | e].
    + rewrite (IH _ _ _ _ _ H). assumption.
    + injection H as _ <-. assumption.
  - injection H as _ <-. reflexivity.
Qed.

End BatchLoop.

Section DeletionRun.

Variable p : DeleteUnusedAssetsProps.
Variable s : State.
Hypothesis size_positive : 1 <= batchSize p.
Hypothesis selection_not_empty : selectedAssets s <> [].

Let arr := StringSet.to_array (selectedAssets s).
Let indices := seq 0 (selected_batches p s).

Lemma handleDelete_loop (fuel : nat) (w : World) :
  List.length arr <= fuel ->
  for_loop fuel 0 (List.length arr) (batchSize p)
    (handleDelete_batch p s arr) no_batch_yet w
  = foldM (fun k => handleDelete_batch p s arr (k * batchSize p))
      indices no_batch_yet w.
Proof.
  intros Hfuel.
  pose proof (for_loop_foldM (batchSize p) size_positive (handleDelete_batch p s arr)
                (List.length arr) fuel 0 no_batch_yet w) as H.
  cbn [Nat.mul] in H. rewrite !Nat.sub_0_r in H. now apply H.
Qed.

Lemma selection_size : (StringSet.size (selectedAssets s) =? 0) = false.
Proof.
  apply Nat.eqb_neq. unfold StringSet.size.
  destruct (selectedAssets s); [contradiction | discriminate].
Qed.

(** A dry run logs its batches, calls the completion callback and
    leaves the list without the selected assets. *)
Lemma handleDelete_preview (fuel : nat) :
  dryRun p = true ->
  List.length arr <= fuel ->
  let l := fold_left (after_preview p s arr) indices no_batch_yet in
  run (handleDelete p fuel s) s
  = Some {| state := after_run p s l;
            trace := map (fun k => ConsoleLog (selected_batch p s k)) indices
                     ++ completion p l |}.
Proof.
  intros Hdry Hfuel l.
  unfold run, handleDelete, handleDelete_with. rewrite selection_size.
  run_setters. fold arr.
  change {| Locals.errors := []; Locals.deletedCount := 0;
            Locals.savedSpace := 0%N |} with no_batch_yet.
  unfold try_finally, try_catch, bind.
  rewrite (handleDelete_loop fuel _ Hfuel).
  rewrite (preview_loop p s arr Hdry). fold l.
  unfold after_run, completion. rewrite Hdry.
  destruct (onComplete p); run_setters; rewrite ?app_nil_r; reflexivity.
Qed.

(** A run that deletes, whose [client.transaction()] does not throw,
    commits every batch, whatever the earlier commits did. *)
Lemma handleDelete_commit (fuel : nat) :
  dryRun p = false ->
  (forall k, transaction_throws (client p) k = None) ->
  List.length arr <= fuel ->
  let l := fold_left (after_commit p s arr) indices no_batch_yet in
  run (handleDelete p fuel s) s
  = Some {| state := after_run p s l;
            trace := flat_map (fun k => [Transaction;
                                         Commit (selected_batch p s k)])
                              indices
                     ++ completion p l |}.
Proof.
  intros Hdry Htx Hfuel l.
  unfold run, handleDelete, handleDelete_with. rewrite selection_size.
  run_setters. fold arr.
  change {| Locals.errors := []; Locals.deletedCount := 0;
            Locals.savedSpace := 0%N |} with no_batch_yet.
  unfold try_finally, try_catch, bind.
  rewrite (handleDelete_loop fuel _ Hfuel).
  match goal with
  | |- context [foldM _ indices no_batch_yet ?w0] =>
      destruct (commit_loop p s arr Hdry size_positive Htx
                  (selected_batches p s) 0 no_batch_yet w0 eq_refl eq_refl)
        as [w' [Hl [Hf Ht]]]
  end.
  fold indices in Hl, Ht. rewrite Hl. fold l.
  destruct w' as [st' tr']. cbn [state trace] in Hf, Ht. subst tr'.
  destruct st'. unfold forget_message in Hf. cbn in Hf.
  injection Hf as -> -> -> -> -> -> -> -> -> -> ->.
  unfold after_run, completion. rewrite Hdry.
  destruct (onComplete p); run_setters; rewrite ?app_nil_r; reflexivity.
Qed.

End DeletionRun.

(** *** Sums over the batches *)

Lemma sum_sizes_from (assets : list AssetInfo) (start : N) :
  fold_left (fun sum asset => (sum + number_or_0 (size asset))%N) assets start
  = (start + sum_sizes assets)%N.
Proof.
  unfold sum_sizes. revert start.
  induction assets as [| a assets IH]; intros start; cbn [fold_left].
  - now rewrite N.add_0_r.
  - rewrite (IH (start + number_or_0 (size a))%N),
      (IH (0 + number_or_0 (size a))%N).
    now rewrite N.add_0_l, N.add_assoc.
Qed.

Lemma sum_sizes_cons (a : AssetInfo) (assets : list AssetInfo) :
  sum_sizes (a :: assets) = (number_or_0 (size a) + sum_sizes assets)%N.
Proof. unfold sum_sizes at 1. cbn [fold_left]. now rewrite sum_sizes_from. Qed.

Lemma includes_app (a b : list string) (x : string) :
  includes (a ++ b) x = includes a x || includes b x.
Proof. unfold includes. apply existsb_app. Qed.

(** The assets of two disjoint sets of identifiers are counted apart. *)
Lemma sum_sizes_disjoint (assets : list AssetInfo) (a b : list string) :
  (forall x, In x a -> ~ In x b) ->
  sum_sizes (filter (fun asset => includes (a ++ b) (_id asset)) assets)
  = (sum_sizes (filter (fun asset => includes a (_id asset)) assets)
     + sum_sizes (filter (fun asset => includes b (_id asset)) assets))%N.
Proof.
  intros Hdisj. induction assets as [| x assets IH]; [reflexivity |].
  cbn [filter]. rewrite includes_app.
  destruct (includes a (_id x)) eqn:Ha; destruct (includes b (_id x)) eqn:Hb;
    cbn [orb]; rewrite ?sum_sizes_cons, IH; try lia.
  exfalso. apply includes_In in Ha, Hb. exact (Hdisj _ Ha Hb).
Qed.

Lemma sum_sizes_of_batches (assets : list AssetInfo)
    (batches : list (list string)) :
  NoDup (List.concat batches) ->
  sum_N (map (fun batch =>
                sum_sizes (filter (fun asset => includes batch (_id asset)) assets))
             batches)
  = sum_sizes (filter (fun asset => includes (List.concat batches) (_id asset))
                      assets).
Proof.
  induction batches as [| b batches IH]; intros Hnd.
  - cbn. induction assets as [| x assets IHa]; [reflexivity | assumption].
  - cbn [List.concat map sum_N fold_right] in *.
    rewrite sum_sizes_disjoint.
    + fold (sum_N (map (fun batch =>
                sum_sizes (filter (fun asset => includes batch (_id asset)) assets))
             batches)).
      rewrite IH; [reflexivity |].
      now apply NoDup_app_remove_l in Hnd.
    + intros x Hb Hrest. revert Hnd Hb Hrest. clear.
      induction b as [| y b IHb]; intros Hnd Hb Hrest; [contradiction |].
      cbn [app] in Hnd. inversion Hnd as [| ? ? Hy Hnd']; subst.
      destruct Hb as [-> | Hb].
      * apply Hy. apply in_or_app. now right.
      * now apply IHb.
Qed.

Section Accumulation.

Variable p : DeleteUnusedAssetsProps.
Variable s : State.
Variable arr : list string.

Let batch (k : nat) : list string := batch_at (batchSize p) arr k.

Lemma fold_preview (indices : list nat) (l : Locals.t) :
  fold_left (after_preview p s arr) indices l
  = {| Locals.errors := Locals.errors l;
       Locals.deletedCount :=
         Locals.deletedCount l
         + list_sum (map (fun k => List.length (batch k)) indices);
       Locals.savedSpace :=
         (Locals.savedSpace l
          + sum_N (map (fun k => batch_space s (batch k)) indices))%N |}.
Proof.
  revert l. induction indices as [| k indices IH]; intros l.
  - cbn. rewrite Nat.add_0_r, N.add_0_r. now destruct l.
  - cbn [fold_left map list_sum sum_N fold_right]. rewrite IH.
    unfold after_preview. cbn [Locals.errors Locals.deletedCount Locals.savedSpace].
    fold (batch k). f_equal.
    + now rewrite <- Nat.add_assoc.
    + now rewrite <- N.add_assoc.
Qed.

Lemma fold_commit_ok (indices : list nat) (l : Locals.t) :
  (forall k, In k indices -> commit_throws (client p) k (batch k) = None) ->
  fold_left (after_commit p s arr) indices l
  = fold_left (after_preview p s arr) indices l.
Proof.
  revert l. induction indices as [| k indices IH]; intros l Hok.
  - reflexivity.
  - cbn [fold_left]. rewrite IH by (intros j Hj; apply Hok; now right).
    f_equal. unfold after_commit, after_preview. fold (batch k).
    rewrite (Hok k) by now left. reflexivity.
Qed.

Hypothesis size_positive : 1 <= batchSize p.

Lemma batch_lengths :
  list_sum (map (fun k => List.length (batch k))
                (seq 0 (batch_count (batchSize p) (List.length arr))))
  = List.length arr.
Proof.
  pose proof (batches_concat (batchSize p) size_positive arr
                (batch_count (batchSize p) (List.length arr)) 0) as H.
  rewrite Nat.sub_0_r in H. specialize (H eq_refl). cbn [Nat.mul skipn] in H.
  etransitivity; [| exact (f_equal (@List.length string) H)].
  rewrite length_concat, map_map. reflexivity.
Qed.

Lemma batch_spaces :
  NoDup arr ->
  sum_N (map (fun k => batch_space s (batch k))
             (seq 0 (batch_count (batchSize p) (List.length arr))))
  = sum_sizes (filter (fun asset => includes arr (_id asset)) (unusedAssets s)).
Proof.
  intros Hnd.
  pose proof (batches_concat (batchSize p) size_positive arr
                (batch_count (batchSize p) (List.length arr)) 0) as H.
  rewrite Nat.sub_0_r in H. specialize (H eq_refl). cbn [Nat.mul skipn] in H.
  etransitivity;
    [| exact (f_equal (fun ids => sum_sizes
                         (filter (fun asset => includes ids (_id asset))
                                 (unusedAssets s))) H)].
  cbv beta. rewrite <- sum_sizes_of_batches, map_map; [reflexivity |].
  now rewrite H.
Qed.

End Accumulation.

Lemma seq_split_at (k m : nat) :
  k < m -> seq 0 m = seq 0 k ++ k :: seq (S k) (m - S k).
Proof.
  intros H. replace m with (k + S (m - S k)) at 1 by lia.
  rewrite seq_app. reflexivity.
Qed.

Lemma filter_other_indices (k m : nat) :
  k < m ->
  filter (fun j => negb (j =? k)) (seq 0 m) = seq 0 k ++ seq (S k) (m - S k).
Proof.
  intros H. rewrite (seq_split_at k m H), filter_app. cbn [filter].
  rewrite Nat.eqb_refl. cbn [negb].
  assert (Hkeep : forall l, (forall j, In j l -> j <> k) ->
                            filter (fun j => negb (j =? k)) l = l).
  { induction l as [| j l IH]; intros Hl; [reflexivity |].
    cbn [filter]. destruct (j =? k) eqn:E.
    - apply Nat.eqb_eq in E. exfalso. apply (Hl j); [now left | assumption].
    - cbn [negb]. rewrite IH; [reflexivity |].
      intros i Hi. apply Hl. now right. }
  rewrite !Hkeep; [reflexivity | |]; intros j Hj; apply in_seq in Hj; lia.
Qed.

(* ================================================================= *)
(** ** Properties of a deletion run *)

Lemma batches_in_trace_app (t1 t2 : list Event) :
  batches_in_trace (t1 ++ t2) = batches_in_trace t1 ++ batches_in_trace t2.
Proof.
  induction t1 as [| e t1 IH]; [reflexivity |].
  destruct e; cbn [app batches_in_trace]; now rewrite IH.
Qed.

Lemma batches_in_completion (p : DeleteUnusedAssetsProps) (l : Locals.t) :
  batches_in_trace (completion p l) = [].
Proof. unfold completion. now destruct (onComplete p). Qed.

Lemma batches_in_preview (batch : nat -> list string) (indices : list nat) :
  batches_in_trace (map (fun k => ConsoleLog (batch k)) indices)
  = map batch indices.
Proof.
  induction indices as [| k indices IH]; [reflexivity |].
  cbn [map batches_in_trace]. now rewrite IH.
Qed.

Lemma batches_in_commits (batch : nat -> list string) (indices : list nat) :
  batches_in_trace (flat_map (fun k => [Transaction; Commit (batch k)]) indices)
  = map batch indices.
Proof.
  induction indices as [| k indices IH]; [reflexivity |].
  cbn [flat_map app map batches_in_trace]. now rewrite IH.
Qed.

Lemma mutating_calls_app (t1 t2 : list Event) :
  filter is_mutating_call (t1 ++ t2)
  = filter is_mutating_call t1 ++ filter is_mutating_call t2.
Proof. apply filter_app. Qed.

Lemma no_mutating_call_in_preview (batch : nat -> list string)
    (indices : list nat) :
  filter is_mutating_call (map (fun k => ConsoleLog (batch k)) indices) = [].
Proof.
  induction indices as [| k indices IH]; [reflexivity | exact IH].
Qed.

Lemma no_mutating_call_in_completion (p : DeleteUnusedAssetsProps)
    (l : Locals.t) :
  filter is_mutating_call (completion p l) = [].
Proof. unfold completion. now destruct (onComplete p). Qed.

(** With nothing selected the handler returns at once. *)
Lemma handleDelete_nothing_selected (p : DeleteUnusedAssetsProps)
    (fuel : nat) (s : State) :
  selectedAssets s = [] ->
  run (handleDelete p fuel s) s = Some {| state := s; trace := [] |}.
Proof.
  intros H. unfold run, handleDelete, handleDelete_with. rewrite H. reflexivity.
Qed.

(** A run that ends either reached the update of the results, or left
    the candidate list and the selection as they were. *)
Lemma handleDelete_outcome (p : DeleteUnusedAssetsProps) (fuel : nat)
    (s : State) (w : World) :
  run (handleDelete p fuel s) s = Some w ->
  (unusedAssets (state w) = without_ids (selectedAssets s) (unusedAssets s)
   /\ selectedAssets (state w) = StringSet.empty)
  \/ (unusedAssets (state w) = unusedAssets s
      /\ selectedAssets (state w) = selectedAssets s).
Proof.
  destruct (selectedAssets s) as [| id ids] eqn:Hsel.
  - rewrite (handleDelete_nothing_selected p fuel s Hsel).
    intros [= <-]. right. cbn. auto.
  - unfold run, handleDelete, handleDelete_with. rewrite Hsel.
    cbn [StringSet.size List.length Nat.eqb]. run_setters.
    unfold try_finally, try_catch, bind.
    match goal with
    | |- context [for_loop fuel 0 ?n ?st ?b ?l0 ?w0] =>
        destruct (for_loop fuel 0 n st b l0 w0) as [[[l | e] w1] |] eqn:Hloop;
          [| | discriminate];
          pose proof (for_loop_frame _ _ _ _ _ _ _ _ _ _ _ Hloop) as Hf
    end.
    + destruct (onComplete p); run_setters; intros [= <-]; left;
        cbn [state unusedAssets selectedAssets]; rewrite ?Hsel;
        split; reflexivity.
    + destruct w1 as [st1 tr1]. destruct st1. unfold forget_message in Hf.
      cbn in Hf. injection Hf as -> -> -> -> -> -> -> -> -> -> ->.
      destruct (onError p); run_setters; intros [= <-]; right;
        cbn [state unusedAssets selectedAssets]; rewrite ?Hsel;
        split; reflexivity.
Qed.

(** A positive batch size and fuel for one turn per selected identifier
    are enough for the run to end. *)
Lemma handleDelete_ends (p : DeleteUnusedAssetsProps) (fuel : nat) (s : State) :
  1 <= batchSize p ->
  StringSet.size (selectedAssets s) <= fuel ->
  exists w, run (handleDelete p fuel s) s = Some w.
Proof.
  intros Hsize Hfuel.
  assert (Hcase : selectedAssets s = [] \/ selectedAssets s <> [])
    by (destruct (selectedAssets s); [now left | right; discriminate]).
  destruct Hcase as [Hsel | Hne].
  - eexists. now apply handleDelete_nothing_selected.
  - unfold run, handleDelete, handleDelete_with. rewrite (selection_size s Hne).
    run_setters. unfold try_finally, try_catch, bind.
    change {| Locals.errors := []; Locals.deletedCount := 0;
              Locals.savedSpace := 0%N |} with no_batch_yet.
    rewrite (handleDelete_loop p s Hsize fuel _ Hfuel).
    match goal with
    | |- context [foldM ?b ?ix ?l0 ?w0] =>
        destruct (any_loop p s (StringSet.to_array (selectedAssets s)) ix l0 w0)
          as [r [w1 [Hl _]]]
    end.
    rewrite Hl.
    destruct r as [l | e].
    + destruct (onComplete p); run_setters; eexists; reflexivity.
    + destruct (onError p); run_setters; eexists; reflexivity.
Qed.

Lemma nth_map_seq {A} (f : nat -> A) (m k : nat) (d : A) :
  k < m -> nth k (map f (seq 0 m)) d = f k.
Proof.
  intros H. rewrite (nth_indep _ d (f 0)) by now rewrite length_map, length_seq.
  rewrite map_nth, seq_nth by assumption. reflexivity.
Qed.

(** The batches of the selection: together they are the selection, in its
    order; there are as many as the ceiling of the quotient says; all but
    the last are full. *)
Lemma selected_batches_partition (p : DeleteUnusedAssetsProps) (s : State) :
  1 <= batchSize p ->
  let batches := map (selected_batch p s) (seq 0 (selected_batches p s)) in
  let n := StringSet.size (selectedAssets s) in
  List.concat batches = StringSet.to_array (selectedAssets s)
  /\ List.length batches = batch_count (batchSize p) n
  /\ n <= List.length batches * batchSize p < n + batchSize p
  /\ forall k, k < List.length batches ->
       List.length (nth k batches [])
       = if S k <? List.length batches then batchSize p
         else n - k * batchSize p.
Proof.
  intros Hsize batches n.
  assert (Hlen : List.length batches = batch_count (batchSize p) n)
    by (unfold batches; now rewrite length_map, length_seq).
  pose proof (batch_count_spec (batchSize p) Hsize n) as Hspec.
  split; [| split; [exact Hlen | split]].
  - unfold batches, selected_batch, selected_batches.
    pose proof (batches_concat (batchSize p) Hsize
                  (StringSet.to_array (selectedAssets s))
                  (batch_count (batchSize p) n) 0) as H.
    rewrite Nat.sub_0_r in H. exact (H eq_refl).
  - rewrite Hlen. split.
    + destruct (Nat.le_gt_cases n (batch_count (batchSize p) n * batchSize p))
        as [Hle | Hgt]; [assumption |].
      apply Hspec in Hgt. lia.
    + destruct (Nat.eq_dec (batch_count (batchSize p) n) 0) as [E | E];
        [lia |].
      assert (Hm : batch_count (batchSize p) n - 1 < batch_count (batchSize p) n)
        by lia.
      apply Hspec in Hm. nia.
  - intros k Hk. rewrite Hlen in *. unfold batches.
    rewrite nth_map_seq by assumption.
    unfold selected_batch. rewrite (batch_at_length (batchSize p) Hsize).
    change (List.length (StringSet.to_array (selectedAssets s))) with n.
    destruct (S k <? batch_count (batchSize p) n) eqn:E.
    + apply Nat.ltb_lt in E. apply Hspec in E.
      rewrite Nat.mul_succ_l in E. lia.
    + apply Nat.ltb_ge in E.
      assert (Hnot : ~ S k < batch_count (batchSize p) n) by lia.
      rewrite Hspec, Nat.mul_succ_l in Hnot. apply Hspec in Hk. lia.
Qed.

(** C9: with a batch size of at least 1 the batch loop ends for every
    selection, and the batches it hands over are the selection cut, in its
    order, into the ceiling of n / batchSize consecutive batches, each of
    them full except possibly the last. *)
Theorem batch_loop_terminates_and_partitions :
  forall (p : DeleteUnusedAssetsProps) (s : State) (fuel : nat),
    1 <= batchSize p ->
    StringSet.size (selectedAssets s) <= fuel ->
    exists w,
      run (handleDelete p fuel s) s = Some w
      /\ (dryRun p = true \/ (forall k, transaction_throws (client p) k = None) ->
          let batches := batches_in_trace (trace w) in
          let n := StringSet.size (selectedAssets s) in
          List.concat batches = StringSet.to_array (selectedAssets s)
          /\ List.length batches = batch_count (batchSize p) n
          /\ n <= List.length batches * batchSize p < n + batchSize p
          /\ forall k, k < List.length batches ->
               List.length (nth k batches [])
               = if S k <? List.length batches then batchSize p
                 else n - k * batchSize p).
Proof.
  intros p s fuel Hsize Hfuel.
  destruct (handleDelete_ends p fuel s Hsize Hfuel) as [w Hw].
  exists w. split; [assumption |]. intros Hmode.
  assert (Hbatches : batches_in_trace (trace w)
                     = map (selected_batch p s) (seq 0 (selected_batches p s))).
  { assert (Hcase : selectedAssets s = [] \/ selectedAssets s <> [])
      by (destruct (selectedAssets s); [now left | right; discriminate]).
    destruct Hcase as [Hsel | Hne].
    - rewrite (handleDelete_nothing_selected p fuel s Hsel) in Hw.
      injection Hw as <-. unfold selected_batches. rewrite Hsel.
      cbn [StringSet.size List.length]. now rewrite (batch_count_0 _ Hsize).
    - destruct (dryRun p) eqn:Hdry.
      + rewrite (handleDelete_preview p s Hsize Hne fuel Hdry Hfuel) in Hw.
        injection Hw as <-. cbn [trace].
        now rewrite batches_in_trace_app, batches_in_completion, app_nil_r,
          batches_in_preview.
      + destruct Hmode as [Hd | Htx]; [discriminate |].
        rewrite (handleDelete_commit p s Hsize Hne fuel Hdry Htx Hfuel) in Hw.
        injection Hw as <-. cbn [trace].
        now rewrite batches_in_trace_app, batches_in_completion, app_nil_r,
          batches_in_commits. }
  cbv zeta. rewrite Hbatches. now apply selected_batches_partition.
Qed.

Lemma sum_N_app (a b : list N) : sum_N (a ++ b) = (sum_N a + sum_N b)%N.
Proof.
  unfold sum_N. induction a as [| x a IH]; cbn [app fold_right].
  - reflexivity.
  - rewrite IH. now rewrite N.add_assoc.
Qed.

(** The local variables at the end of a run in which batch [k] alone
    fails to commit. *)
Lemma fold_commit_one_failure (p : DeleteUnusedAssetsProps) (s : State)
    (arr : list string) (k m : nat) (error : Thrown) :
  k < m ->
  commit_throws (client p) k (batch_at (batchSize p) arr k) = Some error ->
  (forall j, j <> k ->
     commit_throws (client p) j (batch_at (batchSize p) arr j) = None) ->
  let others := seq 0 k ++ seq (S k) (m - S k) in
  fold_left (after_commit p s arr) (seq 0 m) no_batch_yet
  = {| Locals.errors :=
         [("Batch " ++ show_nat (k + 1) ++ ": "
           ++ message_or "Unknown error" error)%string];
       Locals.deletedCount :=
         list_sum (map (fun j => List.length (batch_at (batchSize p) arr j)) others);
       Locals.savedSpace :=
         sum_N (map (fun j => batch_space s (batch_at (batchSize p) arr j)) others) |}.
Proof.
  intros Hk Hfail Hok others.
  rewrite (seq_split_at k m Hk), fold_left_app. cbn [fold_left].
  rewrite (fold_commit_ok p s arr (seq 0 k))
    by (intros j Hj; apply Hok; apply in_seq in Hj; lia).
  rewrite (fold_commit_ok p s arr (seq (S k) (m - S k)))
    by (intros j Hj; apply Hok; apply in_seq in Hj; lia).
  rewrite (fold_preview p s arr (seq 0 k)).
  unfold after_commit at 1. rewrite Hfail.
  rewrite fold_preview.
  cbn [Locals.errors Locals.deletedCount Locals.savedSpace no_batch_yet app].
  unfold others. rewrite !map_app, list_sum_app, sum_N_app.
  rewrite Nat.add_0_l, N.add_0_l. reflexivity.
Qed.

(** C1: in a run that deletes, when batch [k] (counted from 0) alone
    fails to commit, every batch is still committed in turn, the count of
    deleted assets is the size of the selection less the size of batch [k],
    the saved space is the sum over the other batches, and the list of
    errors has the one entry that names the batch by [k + 1]. *)
Theorem partial_failure_is_isolated :
  forall (p : DeleteUnusedAssetsProps) (s : State) (fuel k : nat)
         (error : Thrown),
    dryRun p = false ->
    1 <= batchSize p ->
    k < selected_batches p s ->
    StringSet.size (selectedAssets s) <= fuel ->
    (forall j, transaction_throws (client p) j = None) ->
    commit_throws (client p) k (selected_batch p s k) = Some error ->
    (forall j, j <> k -> commit_throws (client p) j (selected_batch p s j) = None) ->
    let result :=
      {| deleted :=
           StringSet.size (selectedAssets s) - List.length (selected_batch p s k);
         savedSpace :=
           sum_N (map (fun j => batch_space s (selected_batch p s j))
                      (filter (fun j => negb (j =? k))
                              (seq 0 (selected_batches p s))));
         errors :=
           [("Batch " ++ show_nat (k + 1) ++ ": "
             ++ message_or "Unknown error" error)%string] |} in
    exists w,
      run (handleDelete p fuel s) s = Some w
      /\ trace w
         = flat_map (fun j => [Transaction; Commit (selected_batch p s j)])
                    (seq 0 (selected_batches p s))
           ++ (if onComplete p then [OnComplete result] else [])
      /\ message (state w) = MsgDeleted (deleted result) (savedSpace result) 1.
Proof.
  intros p s fuel k error Hdry Hsize Hk Hfuel Htx Hfail Hok result.
  assert (Hne : selectedAssets s <> []).
  { intros Hsel. unfold selected_batches in Hk. rewrite Hsel in Hk.
    cbn [StringSet.size List.length] in Hk.
    rewrite (batch_count_0 _ Hsize) in Hk. lia. }
  rewrite (handleDelete_commit p s Hsize Hne fuel Hdry Htx Hfuel).
  eexists. split; [reflexivity |].
  unfold selected_batches in *.
  rewrite (fold_commit_one_failure p s _ k _ error Hk Hfail Hok).
  assert (Hdel : list_sum
                   (map (fun j => List.length
                                    (batch_at (batchSize p)
                                       (StringSet.to_array (selectedAssets s)) j))
                        (seq 0 k
                         ++ seq (S k)
                              (batch_count (batchSize p)
                                 (StringSet.size (selectedAssets s)) - S k)))
                 = deleted result).
  { pose proof (batch_lengths p (StringSet.to_array (selectedAssets s)) Hsize)
      as Hall.
    unfold StringSet.size, StringSet.to_array in *.
    rewrite (seq_split_at k _ Hk) in Hall.
    rewrite !map_app, !list_sum_app in *. cbn [map] in Hall.
    change (list_sum (?x :: ?l)) with (x + list_sum l) in Hall.
    unfold result, deleted, selected_batch, StringSet.size, StringSet.to_array.
    lia. }
  assert (Hspace : sum_N
                     (map (fun j => batch_space s
                                      (batch_at (batchSize p)
                                         (StringSet.to_array (selectedAssets s)) j))
                          (seq 0 k
                           ++ seq (S k)
                                (batch_count (batchSize p)
                                   (StringSet.size (selectedAssets s)) - S k)))
                   = savedSpace result).
  { unfold result, savedSpace, selected_batches.
    now rewrite (filter_other_indices k _ Hk). }
  rewrite Hdel, Hspace.
  unfold completion, after_run. rewrite Hdry.
  cbn [state trace message Locals.errors Locals.deletedCount Locals.savedSpace
       List.length].
  split; reflexivity.
Qed.

Lemma sum_sizes_positive (assets : list AssetInfo) :
  sum_sizes assets <> 0%N <->
  exists asset, In asset assets /\ number_or_0 (size asset) <> 0%N.
Proof.
  induction assets as [| a assets IH].
  - split; [intros H; now elim H | intros [asset [[] _]]].
  - rewrite sum_sizes_cons. split.
    + intros H.
      destruct (N.eq_dec (number_or_0 (size a)) 0) as [Ha | Ha].
      * rewrite Ha, N.add_0_l in H. apply IH in H.
        destruct H as [asset [Hin Hs]]. exists asset. split; [now right | assumption].
      * exists a. split; [now left | assumption].
    + intros [asset [[<- | Hin] Hs]].
      * lia.
      * assert (H : sum_sizes assets <> 0%N) by (apply IH; eauto). lia.
Qed.

(** C3, as stated, fails: the saved space of a dry run is the sum of the
    known sizes, which is 0 for a selection of empty files. *)
Lemma dry_run_of_empty_file_saves_nothing :
  selectedAssets empty_file_selected <> []
  /\ option_map trace
       (run (handleDelete preview_props 1 empty_file_selected) empty_file_selected)
     = Some [ConsoleLog ["A"];
             OnComplete {| deleted := 1; savedSpace := 0; errors := [] |}].
Proof. split; [discriminate | reflexivity]. Qed.

(** C3, amended: a dry run of a selection makes no call on the
    transaction mechanism of the client and still reports, as the count of
    deleted assets, the size of the selection, which is not 0, and as the
    saved space the sum of the known sizes of the selected candidates,
    which is not 0 exactly when one of them has a size other than 0. *)
Theorem dry_run_issues_no_mutation :
  forall (p : DeleteUnusedAssetsProps) (s : State) (fuel : nat),
    dryRun p = true ->
    1 <= batchSize p ->
    selectedAssets s <> [] ->
    NoDup (selectedAssets s) ->
    StringSet.size (selectedAssets s) <= fuel ->
    let result :=
      {| deleted := StringSet.size (selectedAssets s);
         savedSpace :=
           sum_sizes (filter (fun asset =>
                                StringSet.has (selectedAssets s) (_id asset))
                             (unusedAssets s));
         errors := [] |} in
    exists w,
      run (handleDelete p fuel s) s = Some w
      /\ filter is_mutating_call (trace w) = []
      /\ trace w
         = map (fun k => ConsoleLog (selected_batch p s k))
               (seq 0 (selected_batches p s))
           ++ (if onComplete p then [OnComplete result] else [])
      /\ message (state w) = MsgDryRun (deleted result) (savedSpace result)
      /\ deleted result <> 0
      /\ (savedSpace result <> 0%N <->
          exists asset,
            In asset (unusedAssets s)
            /\ In (_id asset) (selectedAssets s)
            /\ number_or_0 (size asset) <> 0%N).
Proof.
  intros p s fuel Hdry Hsize Hne Hnd Hfuel result.
  rewrite (handleDelete_preview p s Hsize Hne fuel Hdry Hfuel).
  eexists. split; [reflexivity |].
  rewrite fold_preview.
  unfold selected_batches.
  change (StringSet.size (selectedAssets s))
    with (List.length (StringSet.to_array (selectedAssets s))).
  rewrite (batch_lengths p (StringSet.to_array (selectedAssets s)) Hsize).
  rewrite (batch_spaces p s (StringSet.to_array (selectedAssets s)) Hsize Hnd).
  cbn [no_batch_yet Locals.errors Locals.deletedCount Locals.savedSpace].
  rewrite Nat.add_0_l, N.add_0_l.
  split; [| split; [| split; [| split]]].
  - cbn [trace]. now rewrite mutating_calls_app, no_mutating_call_in_preview,
      no_mutating_call_in_completion.
  - reflexivity.
  - unfold after_run. rewrite Hdry. reflexivity.
  - unfold result, deleted, StringSet.size.
    destruct (selectedAssets s); [contradiction | discriminate].
  - unfold result, savedSpace. rewrite sum_sizes_positive. split.
    + intros [asset [Hin Hs]]. apply filter_In in Hin. destruct Hin as [Hin Hsel].
      exists asset. repeat split; try assumption. now apply includes_In.
    + intros [asset [Hin [Hsel Hs]]]. exists asset. split; [| assumption].
      apply filter_In. split; [assumption | now apply includes_In].
Qed.

Lemma In_batch_at (step : nat) (arr : list string) (k : nat) (id : string) :
  In id (batch_at step arr k) -> In id arr.
Proof.
  unfold batch_at, slice. intros H.
  rewrite <- (firstn_skipn (k * step) arr). apply in_or_app. right.
  rewrite <- (firstn_skipn (k * step + step - k * step) (skipn (k * step) arr)).
  apply in_or_app. now left.
Qed.

Lemma successful_ids_selected (p : DeleteUnusedAssetsProps)
    (arr : list string) (id : string) :
  In id (successful_ids p arr) -> In id arr.
Proof.
  unfold successful_ids. rewrite in_flat_map. intros [k [_ H]].
  destruct (dryRun p).
  - now apply In_batch_at in H.
  - destruct (commit_throws (client p) k _); [contradiction |].
    now apply In_batch_at in H.
Qed.

Lemma without_ids_removes (ids : list string) (assets : list AssetInfo)
    (id : string) :
  In id ids -> ~ In id (map _id (without_ids ids assets)).
Proof.
  intros Hid Hin. apply in_map_iff in Hin. destruct Hin as [asset [<- Hin]].
  unfold without_ids in Hin. apply filter_In in Hin. destruct Hin as [_ H].
  apply negb_true_iff, includes_false in H. contradiction.
Qed.

(** C4: the code breaks the claim.  One candidate [A] is selected and the
    commit of its batch fails: the run counts no asset as deleted and
    reports one error, no identifier was processed with success, so the
    claim leaves [A] in the candidate list; the update of the results
    removes it all the same. *)
Lemma failed_batch_leaves_the_list :
  successful_ids failing_props (selectedAssets one_selected) = []
  /\ without_ids (successful_ids failing_props (selectedAssets one_selected))
                 (unusedAssets one_selected)
     = one_asset
  /\ option_map (fun w => (unusedAssets (state w), message (state w)))
       (run (handleDelete failing_props 1 one_selected) one_selected)
     = Some ([], MsgDeleted 0 0 1)
  /\ option_map trace
       (run (handleDelete failing_props 1 one_selected) one_selected)
     = Some [Transaction; Commit ["A"];
             OnComplete {| deleted := 0; savedSpace := 0;
                           errors := ["Batch 1: boom"] |}].
Proof. repeat split. Qed.

(** The update of the results in general: a deletion run that reaches
    its end takes every selected identifier out of the candidate list,
    those of the batches that failed to commit like those processed with
    success, and empties the selection. *)
Lemma finished_run_removes_the_selection :
  forall (p : DeleteUnusedAssetsProps) (s : State) (fuel : nat),
    1 <= batchSize p ->
    StringSet.size (selectedAssets s) <= fuel ->
    selectedAssets s <> [] ->
    dryRun p = true \/ (forall k, transaction_throws (client p) k = None) ->
    exists w,
      run (handleDelete p fuel s) s = Some w
      /\ unusedAssets (state w) = without_ids (selectedAssets s) (unusedAssets s)
      /\ selectedAssets (state w) = StringSet.empty
      /\ (forall id, In id (successful_ids p (selectedAssets s)) ->
            In id (selectedAssets s) /\ ~ In id (candidate_ids (state w)))
      /\ (dryRun p = true ->
            successful_ids p (selectedAssets s) = selectedAssets s).
Proof.
  intros p s fuel Hsize Hfuel Hne Hmode.
  assert (Hrun : exists l t,
             run (handleDelete p fuel s) s
             = Some {| state := after_run p s l; trace := t |}).
  { destruct (dryRun p) eqn:Hdry.
    - rewrite (handleDelete_preview p s Hsize Hne fuel Hdry Hfuel). eauto.
    - destruct Hmode as [Hd | Htx]; [discriminate |].
      rewrite (handleDelete_commit p s Hsize Hne fuel Hdry Htx Hfuel). eauto. }
  destruct Hrun as [l [t Hrun]]. rewrite Hrun.
  eexists. split; [reflexivity |].
  cbn [state after_run unusedAssets selectedAssets].
  split; [reflexivity |]. split; [reflexivity |]. split.
  - intros id Hid. apply successful_ids_selected in Hid.
    split; [assumption |].
    unfold candidate_ids. cbn [unusedAssets].
    now apply (without_ids_removes (selectedAssets s)).
  - intros Hdry. unfold successful_ids. rewrite Hdry, flat_map_concat_map.
    pose proof (batches_concat (batchSize p) Hsize (selectedAssets s)
                  (batch_count (batchSize p) (List.length (selectedAssets s))) 0)
      as H.
    rewrite Nat.sub_0_r in H. exact (H eq_refl).
Qed.

(* ================================================================= *)
(** ** The selection invariant *)

Module StringSetFacts.

Import StringSet.

Lemma In_add (s : t) (id x : string) :
  In x (add s id) <-> In x s \/ x = id.
Proof.
  unfold add, has. destruct (includes s id) eqn:E.
  - apply includes_In in E. split; [auto | intros [H | ->]; assumption].
  - rewrite in_app_iff. cbn [In]. split.
    + intros [H | [<- | []]]; auto.
    + intros [H | ->]; auto.
Qed.

Lemma In_delete (s : t) (id x : string) :
  In x (delete s id) -> In x s.
Proof. unfold delete. intros H. now apply filter_In in H. Qed.

Lemma In_fold_add (l : list string) :
  forall (acc : t) (x : string),
    In x (fold_left add l acc) <-> In x acc \/ In x l.
Proof.
  induction l as [| y l IH]; intros acc x; cbn [fold_left In].
  - tauto.
  - rewrite IH, In_add. split; intros H.
    + destruct H as [[H | ->] | H]; auto.
    + destruct H as [H | [<- | H]]; auto.
Qed.

Lemma In_of_list (l : list string) (x : string) :
  In x (of_list l) <-> In x l.
Proof.
  unfold of_list. rewrite In_fold_add. unfold empty. cbn [In]. tauto.
Qed.

Lemma NoDup_add (s : t) (id : string) : NoDup s -> NoDup (add s id).
Proof.
  intros H. unfold add, has. destruct (includes s id) eqn:E; [assumption |].
  apply includes_false in E.
  apply NoDup_app; [assumption | repeat constructor; intros [] |].
  intros x Hx [<- | []]. contradiction.
Qed.

Lemma NoDup_of_list (l : list string) : NoDup (of_list l).
Proof.
  unfold of_list.
  assert (H : forall acc, NoDup acc -> NoDup (fold_left add l acc)).
  { induction l as [| y l IH]; intros acc Hacc; cbn [fold_left];
      [assumption | apply IH; now apply NoDup_add]. }
  apply H. constructor.
Qed.

End StringSetFacts.

Section Invariant.

Context {platform : Platform}.

Lemma getFilteredAssets_candidates (s : State) (now : Z) (asset : AssetInfo) :
  In asset (getFilteredAssets s now) -> In asset (unusedAssets s).
Proof.
  unfold getFilteredAssets. intros H.
  destruct (string_truthy (filterAge s));
    [apply filter_In in H; destruct H as [H _] |];
    (destruct (string_truthy (filterSize s));
     [apply filter_In in H; destruct H as [H _] |]);
    (destruct (filterType s);
     [| apply filter_In in H; destruct H as [H _]
      | apply filter_In in H; destruct H as [H _]]);
    exact H.
Qed.

(** A scan that ends either emptied the selection, or left the candidate
    list and the selection as they were. *)
Lemma scan_outcome (p : DeleteUnusedAssetsProps) (s : State) (w : World) :
  run (scanForUnusedAssets p) s = Some w ->
  selectedAssets (state w) = StringSet.empty
  \/ (unusedAssets (state w) = unusedAssets s
      /\ selectedAssets (state w) = selectedAssets s).
Proof.
  unfold run, scanForUnusedAssets, scanForUnusedAssets_with, lift_result,
    try_finally, try_catch, bind,
    client_fetch_allAssets, client_fetch_referencedAssets,
    client_fetch_complexRefs. cbn.
  destruct (fetch_allAssets (client p) (typeFilter p) (maxAssets p))
    as [inventory | e]; cbn.
  - destruct (fetch_referencedAssets (client p) (typeFilter p))
      as [docs | e]; cbn.
    + destruct (fetch_complexRefs (client p)) as [nested | e]; cbn.
      * destruct (filter_result _ inventory) as [out | e]; cbn.
        -- intros [= <-]. now left.
        -- destruct (onError p); cbn; intros [= <-]; right; split;
             reflexivity.
      * destruct (onError p); cbn; intros [= <-]; right; split; reflexivity.
    + destruct (onError p); cbn; intros [= <-]; right; split; reflexivity.
  - destruct (onError p); cbn; intros [= <-]; right; split; reflexivity.
Qed.

Lemma step_keeps_selection_within (s s' : State) :
  step s s' ->
  selection_within_candidates s -> selection_within_candidates s'.
Proof.
  unfold selection_within_candidates, candidate_ids.
  intros Hstep Hinv.
  destruct Hstep as [p s w H | s now asset w Hin H | s now w H | s w H
                    | p fuel s w H | s shown w H | s v w H | s v w H
                    | s v w H].
  - destruct (scan_outcome _ _ _ H) as [-> | [-> ->]];
      [intros id [] | assumption].
  - unfold run, toggleAssetSelection, setSelectedAssets, modify in H.
    injection H as <-. cbn [state selectedAssets unusedAssets].
    intros id Hid. destruct (StringSet.has (selectedAssets s) (_id asset)).
    + apply Hinv. now apply StringSetFacts.In_delete in Hid.
    + apply StringSetFacts.In_add in Hid. destruct Hid as [Hid | ->].
      * now apply Hinv.
      * apply in_map. now apply getFilteredAssets_candidates in Hin.
  - unfold run, selectAll, setSelectedAssets, modify in H.
    injection H as <-. cbn [state selectedAssets unusedAssets].
    intros id Hid. apply StringSetFacts.In_of_list, in_map_iff in Hid.
    destruct Hid as [asset [<- Hin]].
    apply in_map. now apply getFilteredAssets_candidates in Hin.
  - unfold run, clearSelection, setSelectedAssets, modify in H.
    injection H as <-. intros id [].
  - destruct (handleDelete_outcome _ _ _ _ H) as [[_ ->] | [-> ->]];
      [intros id [] | assumption].
  - unfold run, setShowConfirmDialog, modify in H. now injection H as <-.
  - unfold run, setFilterType, modify in H. now injection H as <-.
  - unfold run, setFilterSize, modify in H. now injection H as <-.
  - unfold run, setFilterAge, modify in H. now injection H as <-.
Qed.

Lemma reachable_selection_within (s : State) :
  reachable s -> selection_within_candidates s.
Proof.
  induction 1 as [| s s' _ IH Hstep].
  - intros id [].
  - now apply (step_keeps_selection_within _ _ Hstep).
Qed.

(** The selection of a reachable state lists no identifier twice: it is
    a set. *)
Lemma step_keeps_selection_NoDup (s s' : State) :
  step s s' -> NoDup (selectedAssets s) -> NoDup (selectedAssets s').
Proof.
  intros Hstep Hnd.
  destruct Hstep as [p s w H | s now asset w Hin H | s now w H | s w H
                    | p fuel s w H | s shown w H | s v w H | s v w H
                    | s v w H].
  - destruct (scan_outcome _ _ _ H) as [-> | [_ ->]];
      [constructor | assumption].
  - unfold run, toggleAssetSelection, setSelectedAssets, modify in H.
    injection H as <-. cbn [state selectedAssets].
    destruct (StringSet.has (selectedAssets s) (_id asset)).
    + now apply NoDup_filter.
    + now apply StringSetFacts.NoDup_add.
  - unfold run, selectAll, setSelectedAssets, modify in H.
    injection H as <-. apply StringSetFacts.NoDup_of_list.
  - unfold run, clearSelection, setSelectedAssets, modify in H.
    injection H as <-. constructor.
  - destruct (handleDelete_outcome _ _ _ _ H) as [[_ ->] | [_ ->]];
      [constructor | assumption].
  - unfold run, setShowConfirmDialog, modify in H. now injection H as <-.
  - unfold run, setFilterType, modify in H. now injection H as <-.
  - unfold run, setFilterSize, modify in H. now injection H as <-.
  - unfold run, setFilterAge, modify in H. now injection H as <-.
Qed.

Lemma reachable_selection_NoDup (s : State) :
  reachable s -> NoDup (selectedAssets s).
Proof.
  induction 1 as [| s s' _ IH Hstep].
  - constructor.
  - now apply (step_keeps_selection_NoDup _ _ Hstep).
Qed.

End Invariant.

(** C5: Selection is a subset of the identifiers of the candidates in
    the initial state and after every handler: a scan, ended or failed,
    the toggle of a candidate of the view, select-all, clear, and a
    deletion run, whatever its batches did; so, after a deletion run, no
    identifier that left the candidate list is still selected. *)
Theorem selection_stays_within_candidates :
  forall (platform : Platform) (s : State),
    reachable s ->
    selection_within_candidates s
    /\ (forall s', step s s' -> selection_within_candidates s')
    /\ (forall p fuel w,
          run (handleDelete p fuel s) s = Some w ->
          forall id,
            In id (candidate_ids s) ->
            ~ In id (candidate_ids (state w)) ->
            ~ In id (selectedAssets (state w))).
Proof.
  intros platform s Hs.
  pose proof (reachable_selection_within s Hs) as Hinv.
  split; [assumption |]. split.
  - intros s' Hstep. now apply (step_keeps_selection_within _ _ Hstep).
  - intros p fuel w Hrun id _ Hgone Hsel.
    apply Hgone.
    apply (step_keeps_selection_within _ _ (step_delete p fuel s w Hrun) Hinv).
    assumption.
Qed.

(** Without the precondition of C9 the loop does not end: with a batch
    size of 0 a dry run of a selection stays at index 0 whatever the
    fuel. *)
Lemma zero_batch_size_never_ends (p : DeleteUnusedAssetsProps) (s : State)
    (fuel : nat) :
  dryRun p = true ->
  batchSize p = 0 ->
  selectedAssets s <> [] ->
  run (handleDelete p fuel s) s = None.
Proof.
  intros Hdry Hzero Hne.
  unfold run, handleDelete, handleDelete_with. rewrite (selection_size s Hne).
  run_setters. unfold try_finally, try_catch, bind.
  assert (Hloop : forall l w,
             for_loop fuel 0 (List.length (StringSet.to_array (selectedAssets s)))
               (batchSize p)
               (handleDelete_batch p s (StringSet.to_array (selectedAssets s)))
               l w = None).
  { rewrite Hzero.
    assert (Hn : (0 <? List.length (StringSet.to_array (selectedAssets s))) = true).
    { apply Nat.ltb_lt. unfold StringSet.to_array.
      destruct (selectedAssets s); [contradiction | cbn; lia]. }
    induction fuel as [| fuel IH]; intros l w; cbn [for_loop]; rewrite Hn.
    - reflexivity.
    - unfold bind.
      assert (Hb : exists l' w',
                 handleDelete_batch p s (StringSet.to_array (selectedAssets s))
                   0 l w = Some (Ok l', w')).
      { unfold handleDelete_batch. rewrite Hdry. eexists _, _. reflexivity. }
      destruct Hb as [l' [w' Hb]]. rewrite Hb. apply IH. }
  now rewrite Hloop.
Qed.

(* ================================================================= *)
(** ** The properties on examples *)

Lemma partial_failure_example :
  exists w,
    run (handleDelete second_batch_fails 5 five_selected) five_selected = Some w
    /\ trace w
       = [Transaction; Commit ["A"; "B"]; Transaction; Commit ["C"; "D"];
          Transaction; Commit ["E"];
          OnComplete {| deleted := 3; savedSpace := 80;
                        errors := ["Batch 2: boom"] |}]
    /\ message (state w) = MsgDeleted 3 80 1.
Proof.
  apply (partial_failure_is_isolated second_batch_fails five_selected 5 1
           (ErrorObject "boom")).
  - reflexivity.
  - cbn. lia.
  - vm_compute. lia.
  - cbn. lia.
  - reflexivity.
  - reflexivity.
  - intros j Hj. cbn. destruct j as [| [| j]]; [reflexivity | | reflexivity].
    now elim Hj.
Defined.


Lemma dry_run_example :
  exists w,
    run (handleDelete preview_in_twos 5 five_selected) five_selected = Some w
    /\ filter is_mutating_call (trace w) = []
    /\ trace w
       = [ConsoleLog ["A"; "B"]; ConsoleLog ["C"; "D"]; ConsoleLog ["E"];
          OnComplete {| deleted := 5; savedSpace := 150; errors := [] |}]
    /\ message (state w) = MsgDryRun 5 150
    /\ 5 <> 0
    /\ (150%N <> 0%N <->
        exists asset,
          In asset (unusedAssets five_selected)
          /\ In (_id asset) (selectedAssets five_selected)
          /\ number_or_0 (size asset) <> 0%N).
Proof.
  apply (dry_run_issues_no_mutation preview_in_twos five_selected 5).
  - reflexivity.
  - cbn. lia.
  - discriminate.
  - repeat (constructor;
            [cbn; intros H;
             repeat (destruct H as [H | H]; [discriminate H |]); exact H |]).
    constructor.
  - cbn. lia.
Defined.

Lemma finished_run_example :
  exists w,
    run (handleDelete second_batch_fails 5 five_selected) five_selected = Some w
    /\ unusedAssets (state w) = []
    /\ selectedAssets (state w) = []
    /\ (forall id,
          In id (successful_ids second_batch_fails (selectedAssets five_selected)) ->
          In id (selectedAssets five_selected)
          /\ ~ In id (candidate_ids (state w)))
    /\ (dryRun second_batch_fails = true ->
        successful_ids second_batch_fails (selectedAssets five_selected)
        = selectedAssets five_selected).
Proof.
  apply (finished_run_removes_the_selection second_batch_fails five_selected 5).
  - cbn. lia.
  - cbn. lia.
  - discriminate.
  - right. reflexivity.
Defined.

Lemma reachable_toggled : reachable (platform := example_platform) (state toggled).
Proof.
  apply (reachable_step (state scanned)).
  - apply (reachable_step initialState).
    + apply reachable_initial.
    + apply (step_scan scan_props initialState scanned). reflexivity.
  - apply (step_toggle (state scanned) 0%Z
             (example_asset "A" "a.jpg" 10 "100") toggled).
    + cbn. now left.
    + reflexivity.
Defined.

Lemma selection_invariant_example :
  selectedAssets (state toggled) = ["A"]
  /\ selection_within_candidates (state toggled)
  /\ (forall s',
        step (platform := example_platform) (state toggled) s' ->
        selection_within_candidates s')
  /\ (forall p fuel w,
        run (handleDelete p fuel (state toggled)) (state toggled) = Some w ->
        forall id,
          In id (candidate_ids (state toggled)) ->
          ~ In id (candidate_ids (state w)) ->
          ~ In id (selectedAssets (state w))).
Proof.
  split; [reflexivity |].
  apply (selection_stays_within_candidates example_platform (state toggled)).
  exact reachable_toggled.
Defined.

Lemma pattern_matching_example :
  (exists regex,
     RegExp_new (platform := example_platform) (replace_stars "hero-*.J*")
     = Ok regex
     /\ forall input,
          ascii_text input ->
          (RegExp_test regex input = true
           <-> matches_within "hero-*.J*" input))
  /\ (exists regex,
        RegExp_new (platform := example_platform)
                   (replace_stars ("hero-" ++ "*" ++ "jpg")) = Ok regex
        /\ forall input,
             ascii_text input ->
             (RegExp_test regex input = true <->
              exists u pre' mid post' v,
                input = (u ++ pre' ++ mid ++ post' ++ v)%string
                /\ same_letters "hero-" pre'
                /\ no_line_terminator mid
                /\ same_letters "jpg" post')).
Proof.
  split.
  - apply (proj1 (exclude_pattern_matching example_platform) "hero-*.J*").
    reflexivity.
  - apply (proj1 (proj2 (exclude_pattern_matching example_platform))
             "hero-" "jpg"); reflexivity.
Defined.

Lemma scan_failure_example :
  exists w,
    run (scanForUnusedAssets (platform := example_platform) failing_scan_props)
        one_selected = Some w
    /\ unusedAssets (state w) = one_asset
    /\ selectedAssets (state w) = ["A"]
    /\ totalSize (state w) = 10%N
    /\ isScanning (state w) = false
    /\ scanProgress (state w) = 0
    /\ message (state w) = MsgScanError "timeout"
    /\ trace w = scan_queries failing_scan_props
                 ++ [ConsoleError (ErrorObject "timeout"); OnError "timeout"].
Proof.
  apply (scan_failure_keeps_candidates example_platform failing_scan_props
           one_selected 2 (ErrorObject "timeout")).
  cbn. repeat split; eexists; reflexivity.
Defined.

Lemma determinism_example :
  filter_result (is_unused (platform := example_platform) hero_props ["x"; "y"])
                hero_inventory
  = filter_result (is_unused (platform := example_platform) hero_preview_props
                             ["y"; "x"])
                  hero_inventory.
Proof.
  apply (unused_filter_deterministic example_platform hero_props
           hero_preview_props ["x"; "y"] ["y"; "x"] hero_inventory).
  - reflexivity.
  - reflexivity.
  - intros id. cbn. tauto.
Defined.

Lemma batch_partition_example :
  exists w,
    run (handleDelete second_batch_fails 5 five_selected) five_selected = Some w
    /\ (dryRun second_batch_fails = true
        \/ (forall k, transaction_throws (client second_batch_fails) k = None) ->
        let batches := batches_in_trace (trace w) in
        List.concat batches = ["A"; "B"; "C"; "D"; "E"]
        /\ List.length batches = batch_count 2 5
        /\ 5 <= List.length batches * 2 < 5 + 2
        /\ forall k, k < List.length batches ->
             List.length (nth k batches [])
             = if S k <? List.length batches then 2 else 5 - k * 2).
Proof.
  apply (batch_loop_terminates_and_partitions second_batch_fails five_selected 5).
  - cbn. lia.
  - cbn. lia.
Defined.

(* ================================================================= *)
(** ** Further properties of the scan *)

Lemma In_filter_Boolean (arr : list (option string)) (id : string) :
  In id (filter_Boolean arr) <-> id <> EmptyString /\ In (Some id) arr.
Proof.
  induction arr as [| [[| c rest] |] arr IH]; cbn [filter_Boolean In].
  - tauto.
  - rewrite IH. split.
    + intros [Hne Hin]. auto.
    + intros [Hne [Heq | Hin]]; [| auto].
      injection Heq as <-. now elim Hne.
  - rewrite IH. split.
    + intros [<- | [Hne Hin]]; [split; [discriminate | now left] | auto].
    + intros [Hne [Heq | Hin]]; [left; now injection Heq | auto].
  - rewrite IH. split.
    + intros [Hne Hin]. auto.
    + intros [Hne [Heq | Hin]]; [discriminate | auto].
Qed.

Lemma In_nested_references (nested : list ComplexDoc) :
  forall (acc : StringSet.t) (id : string),
    In id (fold_left
             (fun set doc =>
                fold_left StringSet.add
                  (filter_Boolean (list_or_empty (complexRefs doc)
                                   ++ list_or_empty (contentRefs doc)
                                   ++ list_or_empty (blockRefs doc)))
                  set)
             nested acc)
    <-> In id acc \/ referenced_nested nested id.
Proof.
  unfold referenced_nested.
  induction nested as [| doc nested IH]; intros acc id; cbn [fold_left].
  - split; [auto | intros [H | [_ [doc [[] _]]]]; assumption].
  - rewrite IH, StringSetFacts.In_fold_add, In_filter_Boolean. split.
    + intros [[H | [Hne Hin]] | [Hne [d [Hd Hin]]]].
      * now left.
      * right. split; [assumption |]. exists doc. split; [now left | assumption].
      * right. split; [assumption |]. exists d. split; [now right | assumption].
    + intros [H | [Hne [d [[<- | Hd] Hin]]]].
      * left. now left.
      * left. right. auto.
      * right. split; [assumption |]. exists d. auto.
Qed.

Lemma In_collect_references (docs : list ReferencedDoc)
    (nested : list ComplexDoc) (id : string) :
  In id (collect_references docs nested)
  <-> referenced_directly docs id \/ referenced_nested nested id.
Proof.
  unfold collect_references.
  rewrite In_nested_references, StringSetFacts.In_of_list, in_flat_map.
  unfold referenced_directly. split.
  - intros [[doc [Hd Hin]] | H]; [left | now right].
    destruct (referencedAssets doc) as [ids |] eqn:E; [| contradiction].
    exists doc, ids. auto.
  - intros [[doc [ids [Hd [E Hin]]]] | H]; [left | now right].
    exists doc. split; [assumption |]. now rewrite E.
Qed.

Lemma NoDup_fold_add (l : list string) :
  forall acc, NoDup acc -> NoDup (fold_left StringSet.add l acc).
Proof.
  induction l as [| y l IH]; intros acc Hacc; cbn [fold_left];
    [assumption | apply IH; now apply StringSetFacts.NoDup_add].
Qed.

Lemma NoDup_collect_references (docs : list ReferencedDoc)
    (nested : list ComplexDoc) :
  NoDup (collect_references docs nested).
Proof.
  unfold collect_references.
  generalize (StringSetFacts.NoDup_of_list
                (flat_map (fun doc => list_or_empty (referencedAssets doc)) docs)).
  generalize (StringSet.of_list
                (flat_map (fun doc => list_or_empty (referencedAssets doc)) docs)).
  induction nested as [| doc nested IH]; intros acc Hacc; cbn [fold_left].
  - assumption.
  - apply IH. now apply NoDup_fold_add.
Qed.

(** The reference set of a scan holds, once each, exactly the
    identifiers of the direct query and the identifiers of the three
    nested fields that are not empty; a [null] or empty entry of a nested
    field never enters it. *)
Theorem references_collected :
  forall (docs : list ReferencedDoc) (nested : list ComplexDoc),
    NoDup (collect_references docs nested)
    /\ (forall id,
          In id (collect_references docs nested)
          <-> referenced_directly docs id \/ referenced_nested nested id)
    /\ ~ In EmptyString
           (collect_references [] nested).
Proof.
  intros docs nested. split; [apply NoDup_collect_references |].
  split; [intros id; apply In_collect_references |].
  rewrite In_collect_references. intros [[doc [ids [[] _]]] | [Hne _]].
  now elim Hne.
Qed.

(** The error callback is the last call of the scan: whether it returns
    or throws, the scan leaves the same state and the same trace. *)
Lemma scan_whatever_the_callbacks {platform : Platform}
    (p : DeleteUnusedAssetsProps) (callbacks : Callbacks) (s : State) :
  run (scanForUnusedAssets_with p callbacks) s = run (scanForUnusedAssets p) s.
Proof.
  unfold run, scanForUnusedAssets, scanForUnusedAssets_with, lift_result,
    try_finally, try_catch, bind,
    client_fetch_allAssets, client_fetch_referencedAssets,
    client_fetch_complexRefs. cbn.
  destruct (fetch_allAssets (client p) (typeFilter p) (maxAssets p))
    as [inventory | e]; cbn.
  - destruct (fetch_referencedAssets (client p) (typeFilter p))
      as [docs | e]; cbn.
    + destruct (fetch_complexRefs (client p)) as [nested | e]; cbn.
      * destruct (filter_result _ inventory) as [out | e]; cbn;
          [reflexivity |].
        destruct (onError p); cbn; [| reflexivity].
        now destruct (onError_throws callbacks (message_or "Scan failed" e)).
      * destruct (onError p); cbn; [| reflexivity].
        now destruct (onError_throws callbacks (message_or "Scan failed" e)).
    + destruct (onError p); cbn; [| reflexivity].
      now destruct (onError_throws callbacks (message_or "Scan failed" e)).
  - destruct (onError p); cbn; [| reflexivity].
    now destruct (onError_throws callbacks (message_or "Scan failed" e)).
Qed.

(** How a scan ends: with the filtered inventory, or in its [catch],
    after a query that throws or after a pattern for which [new RegExp]
    throws. *)
Lemma scan_cases {platform : Platform} (p : DeleteUnusedAssetsProps)
    (s : State) (w : World) :
  run (scanForUnusedAssets p) s = Some w ->
  (exists inventory docs nested out,
      fetch_allAssets (client p) (typeFilter p) (maxAssets p) = Ok inventory
      /\ fetch_referencedAssets (client p) (typeFilter p) = Ok docs
      /\ fetch_complexRefs (client p) = Ok nested
      /\ filter_result (is_unused p (collect_references docs nested)) inventory
         = Ok out
      /\ unusedAssets (state w) = out
      /\ selectedAssets (state w) = StringSet.empty
      /\ totalAssets (state w) = List.length inventory
      /\ totalSize (state w) = sum_sizes out
      /\ isScanning (state w) = false
      /\ scanProgress (state w) = 0
      /\ trace w = scan_queries p)
  \/ (exists n e,
        scan_fails_at p n e
        /\ unusedAssets (state w) = unusedAssets s
        /\ selectedAssets (state w) = selectedAssets s
        /\ isScanning (state w) = false
        /\ scanProgress (state w) = 0
        /\ trace w = firstn (S n) (scan_queries p) ++ scan_error_report p e)
  \/ (exists inventory docs nested e,
        fetch_allAssets (client p) (typeFilter p) (maxAssets p) = Ok inventory
        /\ fetch_referencedAssets (client p) (typeFilter p) = Ok docs
        /\ fetch_complexRefs (client p) = Ok nested
        /\ filter_result (is_unused p (collect_references docs nested)) inventory
           = Throw e
        /\ unusedAssets (state w) = unusedAssets s
        /\ selectedAssets (state w) = selectedAssets s
        /\ totalSize (state w) = totalSize s
        /\ totalAssets (state w) = List.length inventory
        /\ message (state w) = MsgScanError (message_or "Scan failed" e)
        /\ isScanning (state w) = false
        /\ scanProgress (state w) = 0
        /\ trace w = scan_queries p ++ scan_error_report p e).
Proof.
  unfold run, scanForUnusedAssets, scanForUnusedAssets_with, lift_result,
    try_finally, try_catch, bind,
    client_fetch_allAssets, client_fetch_referencedAssets,
    client_fetch_complexRefs, scan_error_report. cbn.
  destruct (fetch_allAssets (client p) (typeFilter p) (maxAssets p))
    as [inventory | e] eqn:Ha; cbn.
  - destruct (fetch_referencedAssets (client p) (typeFilter p))
      as [docs | e] eqn:Hd; cbn.
    + destruct (fetch_complexRefs (client p)) as [nested | e] eqn:Hn; cbn.
      * destruct (filter_result _ inventory) as [out | e] eqn:Hf; cbn.
        -- intros [= <-]. left. exists inventory, docs, nested, out.
           cbn. repeat split; assumption || reflexivity.
        -- intros H. right. right. exists inventory, docs, nested, e.
           destruct (onError p); cbn in H; injection H as <-; cbn;
             repeat split; assumption || reflexivity.
      * intros H. right. left. exists 2, e. cbn [scan_fails_at].
        rewrite Ha, Hd, Hn.
        destruct (onError p); cbn in H; injection H as <-; cbn;
          repeat split; eauto.
    + intros H. right. left. exists 1, e. cbn [scan_fails_at]. rewrite Ha, Hd.
      destruct (onError p); cbn in H; injection H as <-; cbn;
        repeat split; eauto.
  - intros H. right. left. exists 0, e. cbn [scan_fails_at]. rewrite Ha.
    destruct (onError p); cbn in H; injection H as <-; cbn;
      repeat split; eauto.
Qed.

Lemma scan_error_report_events (p : DeleteUnusedAssetsProps) (e : Thrown) :
  filter is_mutating_call (scan_error_report p e) = []
  /\ filter is_completion (scan_error_report p e) = []
  /\ filter is_fetch (scan_error_report p e) = []
  /\ filter is_console_error (scan_error_report p e) = [ConsoleError e].
Proof. unfold scan_error_report. destruct (onError p); repeat split. Qed.

(** A scan only reads: whatever the client answers, a scan that ends has
    issued the first one, two or three of its queries, in their order, no
    call on the transaction mechanism and no completion callback; and it
    leaves the scanning flag down and the progress at 0. *)
Theorem scan_only_reads :
  forall (platform : Platform) (p : DeleteUnusedAssetsProps) (s : State)
         (w : World),
    run (scanForUnusedAssets p) s = Some w ->
    filter is_mutating_call (trace w) = []
    /\ filter is_completion (trace w) = []
    /\ (exists n, 1 <= n <= 3
                  /\ filter is_fetch (trace w) = firstn n (scan_queries p))
    /\ isScanning (state w) = false
    /\ scanProgress (state w) = 0.
Proof.
  intros platform p s w H.
  destruct (scan_cases p s w H)
    as [[inventory [docs [nested [out [_ [_ [_ [_ [_ [_ [_ [_ [Hs [Hp Ht]]]]]]]]]]]]]]
       | [[n [e [Hfail [_ [_ [Hs [Hp Ht]]]]]]]
         | [inventory [docs [nested [e [_ [_ [_ [_ [_ [_ [_ [_ [_ [Hs [Hp Ht]]]]]]]]]]]]]]]]].
  - rewrite Ht. repeat split; try assumption; try reflexivity.
    exists 3. split; [lia | reflexivity].
  - destruct (scan_error_report_events p e) as [Hm [Hc [Hf _]]].
    rewrite Ht, !filter_app, Hm, Hc, Hf, !app_nil_r.
    destruct n as [| [| [| n]]]; [| | | contradiction];
      (repeat split; try assumption; try reflexivity;
       match goal with
       | |- exists n, _ /\ ?l = _ => exists (List.length l)
       end; (split; [cbn; lia | reflexivity])).
  - destruct (scan_error_report_events p e) as [Hm [Hc [Hf _]]].
    rewrite Ht, !filter_app, Hm, Hc, Hf, !app_nil_r.
    repeat split; try assumption; try reflexivity.
    exists 3. split; [lia | reflexivity].
Qed.

(** After a scan whose queries answered and that ends without logging an
    error, every candidate is an asset of the inventory whose identifier
    neither the direct query nor a nested field gave, and the count and
    the total size shown are those of the candidates.  When it logs an
    error, [new RegExp] threw for an exclude pattern that is no regular
    expression, and the candidate list and the selection are left as they
    were.  The callbacks of the props may return or throw. *)
Theorem scan_candidates_are_unreferenced :
  forall (platform : Platform) (p : DeleteUnusedAssetsProps)
         (callbacks : Callbacks) (s : State)
         (w : World) inventory docs nested,
    fetch_allAssets (client p) (typeFilter p) (maxAssets p) = Ok inventory ->
    fetch_referencedAssets (client p) (typeFilter p) = Ok docs ->
    fetch_complexRefs (client p) = Ok nested ->
    run (scanForUnusedAssets_with p callbacks) s = Some w ->
    (filter is_console_error (trace w) = [] ->
     (forall asset,
        In asset (unusedAssets (state w)) ->
        In asset inventory
        /\ ~ referenced_directly docs (_id asset)
        /\ ~ referenced_nested nested (_id asset))
     /\ List.length (unusedAssets (state w)) <= totalAssets (state w)
     /\ totalSize (state w) = sum_sizes (unusedAssets (state w))
     /\ selectedAssets (state w) = StringSet.empty)
    /\ (filter is_console_error (trace w) <> [] ->
        unusedAssets (state w) = unusedAssets s
        /\ selectedAssets (state w) = selectedAssets s
        /\ exists pattern error,
             In pattern (excludePatterns p)
             /\ RegExp_new (replace_stars pattern) = Throw error
             /\ message (state w)
                = MsgScanError (message_or "Scan failed" error)).
Proof.
  intros platform p callbacks s w inventory docs nested Ha Hd Hn H.
  rewrite scan_whatever_the_callbacks in H.
  destruct (scan_cases p s w H)
    as [[inventory' [docs' [nested' [out [Ha' [Hd' [Hn' [Hf [Hu [Hsel [Hta [Hts [_ [_ Ht]]]]]]]]]]]]]]
       | [[n [e [Hfail _]]]
         | [inventory' [docs' [nested' [e [Ha' [Hd' [Hn' [Hf [Hu [Hsel [_ [_ [Hmsg [_ [_ Ht]]]]]]]]]]]]]]]]].
  - rewrite Ha in Ha'. rewrite Hd in Hd'. rewrite Hn in Hn'.
    injection Ha' as <-. injection Hd' as <-. injection Hn' as <-.
    pose proof (filter_result_Selects _ _ _ _ Hf) as Hs.
    split; [intros _ | intros Herr; now elim Herr; rewrite Ht].
    rewrite Hu, Hta, Hts. split; [| split; [| split]].
    + intros asset Hin. apply (Selects_In _ _ _ Hs) in Hin.
      destruct Hin as [Hin [Hnot _]]. split; [assumption |].
      rewrite In_collect_references in Hnot. tauto.
    + clear - Hs. induction Hs; cbn [List.length]; lia.
    + reflexivity.
    + assumption.
  - exfalso. destruct n as [| [| [| n]]]; cbn [scan_fails_at] in Hfail.
    + congruence.
    + destruct Hfail as [_ Hfail]. congruence.
    + destruct Hfail as [_ [_ Hfail]]. congruence.
    + contradiction.
  - destruct (scan_error_report_events p e) as [_ [_ [_ Hc]]].
    split.
    + intros Hnone. rewrite Ht, filter_app, Hc in Hnone.
      destruct (filter is_console_error (scan_queries p)); discriminate.
    + intros _. split; [assumption |]. split; [assumption |].
      destruct (filter_result_throws _ _ _ _ Hf)
        as [asset [pattern [_ [_ [Hin Hthrow]]]]].
      exists pattern, e. auto.
Qed.

Lemma RegExp_new_throws {platform : Platform} (source : string)
    (error : Thrown) :
  RegExp_new source = Throw error ->
  error = ErrorObject (SyntaxError_message source).
Proof.
  unfold RegExp_new. destruct (RegExp.compile source); [discriminate |].
  destruct (RegExp.unterminated_group source); [now intros [= <-] |].
  destruct (RegExp_engine source); [discriminate | now intros [= <-]].
Qed.

Lemma filter_result_first_pattern_throws {platform : Platform}
    (p : DeleteUnusedAssetsProps) (references : StringSet.t)
    (inventory : list AssetInfo) (pattern : string) (rest : list string)
    (error : Thrown) :
  excludePatterns p = pattern :: rest ->
  RegExp_new (replace_stars pattern) = Throw error ->
  (exists asset, In asset inventory /\ ~ In (_id asset) references) ->
  filter_result (is_unused p references) inventory = Throw error.
Proof.
  intros Hp Hthrow.
  induction inventory as [| a inventory IH]; intros [asset [Hin Hnot]].
  - contradiction.
  - cbn [filter_result]. unfold is_unused at 1, StringSet.has.
    destruct (includes references (_id a)) eqn:Hr.
    + destruct Hin as [-> | Hin];
        [apply includes_In in Hr; contradiction |].
      rewrite IH; [reflexivity | eauto].
    + unfold isExcluded. rewrite Hp. cbn [List.length Nat.eqb some_result].
      unfold pattern_excludes at 1. now rewrite Hthrow.
Qed.

(** An exclude pattern that is no regular expression fails the scan: when
    [new RegExp] throws for the first pattern and an asset of the
    inventory is not referenced, the scan ends in its [catch] after the
    three queries; the console and the error callback get the
    [SyntaxError], the status shows its message, the candidate list, the
    selection and the total size are those from before, and the count of
    assets is already the one of the new inventory. *)
Theorem invalid_pattern_fails_the_scan :
  forall (platform : Platform) (p : DeleteUnusedAssetsProps)
         (callbacks : Callbacks) (s : State)
         inventory docs nested (pattern : string) (rest : list string)
         (error : Thrown),
    fetch_allAssets (client p) (typeFilter p) (maxAssets p) = Ok inventory ->
    fetch_referencedAssets (client p) (typeFilter p) = Ok docs ->
    fetch_complexRefs (client p) = Ok nested ->
    excludePatterns p = pattern :: rest ->
    RegExp_new (replace_stars pattern) = Throw error ->
    (exists asset,
        In asset inventory
        /\ ~ referenced_directly docs (_id asset)
        /\ ~ referenced_nested nested (_id asset)) ->
    exists w,
      run (scanForUnusedAssets_with p callbacks) s = Some w
      /\ trace w = scan_queries p ++ scan_error_report p error
      /\ error = ErrorObject (SyntaxError_message (replace_stars pattern))
      /\ message (state w)
         = MsgScanError (SyntaxError_message (replace_stars pattern))
      /\ unusedAssets (state w) = unusedAssets s
      /\ selectedAssets (state w) = selectedAssets s
      /\ totalSize (state w) = totalSize s
      /\ totalAssets (state w) = List.length inventory
      /\ isScanning (state w) = false
      /\ scanProgress (state w) = 0.
Proof.
  intros platform p callbacks s inventory docs nested pattern rest error
    Ha Hd Hn Hp Hthrow [asset [Hin [Hdirect Hnested]]].
  assert (Hf : filter_result (is_unused p (collect_references docs nested))
                 inventory = Throw error).
  { apply (filter_result_first_pattern_throws p _ _ pattern rest);
      try assumption.
    exists asset. split; [assumption |].
    rewrite In_collect_references. tauto. }
  pose proof (RegExp_new_throws _ _ Hthrow) as ->.
  rewrite scan_whatever_the_callbacks.
  unfold run, scanForUnusedAssets, scanForUnusedAssets_with, lift_result,
    try_finally, try_catch, bind,
    client_fetch_allAssets, client_fetch_referencedAssets,
    client_fetch_complexRefs, scan_error_report. cbn.
  rewrite Ha. cbn. rewrite Hd. cbn. rewrite Hn. cbn. rewrite Hf. cbn.
  destruct (onError p); cbn; eexists; (split; [reflexivity |]);
    cbn; repeat split; reflexivity.
Qed.

Lemma Selects_refine {A} (P Q : A -> Prop) (l out out' : list A) :
  (forall a, Q a -> P a) ->
  Selects P l out -> Selects Q l out' -> Selects Q out out'.
Proof.
  intros Himp Hp. revert out'.
  induction Hp as [| a l out Ha _ IH | a l out Ha _ IH]; intros out' Hq.
  - inversion Hq. constructor.
  - inversion Hq as [| ? ? rest Hqa Hrest | ? ? rest Hqa Hrest]; subst.
    + apply Selects_keep; [assumption | now apply IH].
    + apply Selects_drop; [assumption | now apply IH].
  - inversion Hq as [| ? ? rest Hqa Hrest | ? ? rest Hqa Hrest]; subst.
    + elim Ha. now apply Himp.
    + now apply IH.
Qed.

Lemma Selects_length {A} (P : A -> Prop) (l out : list A) :
  Selects P l out -> List.length out <= List.length l.
Proof. induction 1; cbn [List.length]; lia. Qed.

(** More references and more exclude patterns never add a candidate: the
    candidates under the larger reference set and pattern list are
    candidates under the smaller ones, in the same order. *)
Theorem more_references_fewer_candidates :
  forall (platform : Platform) (p p' : DeleteUnusedAssetsProps)
         (r r' : StringSet.t) (inventory out out' : list AssetInfo),
    olderThan p = olderThan p' ->
    (forall pattern, In pattern (excludePatterns p) ->
                     In pattern (excludePatterns p')) ->
    (forall id, In id r -> In id r') ->
    filter_result (is_unused p r) inventory = Ok out ->
    filter_result (is_unused p' r') inventory = Ok out' ->
    Selects (is_candidate p' r') out out'
    /\ (forall asset, In asset out' -> In asset out)
    /\ List.length out' <= List.length out.
Proof.
  intros platform p p' r r' inventory out out' Ho Hp Hr Hf Hf'.
  pose proof (filter_result_Selects _ _ _ _ Hf) as Hs.
  pose proof (filter_result_Selects _ _ _ _ Hf') as Hs'.
  assert (Himp : forall a, is_candidate p' r' a -> is_candidate p r a).
  { intros a [Hnr [Hnp Hold]]. split; [| split].
    - intros Hin. apply Hnr. now apply Hr.
    - intros pattern Hin. apply Hnp. now apply Hp.
    - intros cutoff Hc. apply Hold. now rewrite <- Ho. }
  pose proof (Selects_refine _ _ _ _ _ Himp Hs Hs') as Href.
  split; [assumption |]. split.
  - intros asset Hin. apply (Selects_In _ _ _ Href) in Hin. tauto.
  - now apply Selects_length in Href.
Qed.

(** Dates that do not parse are never old: with a cutoff set, every
    candidate has a creation date that parses and lies strictly before the
    cutoff, so an invalid cutoff leaves no candidate at all. *)
Theorem invalid_dates_are_never_old :
  forall (platform : Platform) (p : DeleteUnusedAssetsProps)
         (references : StringSet.t) (inventory out : list AssetInfo)
         (cutoff : Date),
    olderThan p = Some cutoff ->
    filter_result (is_unused p references) inventory = Ok out ->
    (forall asset,
       In asset out ->
       exists created limit,
         time_value (Date_new (_createdAt asset)) = Some created
         /\ time_value cutoff = Some limit
         /\ (created < limit)%Z)
    /\ (time_value cutoff = None -> out = []).
Proof.
  intros platform p references inventory out cutoff Ho Hf.
  pose proof (filter_result_Selects _ _ _ _ Hf) as Hs.
  assert (Hall : forall asset,
             In asset out ->
             exists created limit,
               time_value (Date_new (_createdAt asset)) = Some created
               /\ time_value cutoff = Some limit
               /\ (created < limit)%Z).
  { intros asset Hin. apply (Selects_In _ _ _ Hs) in Hin.
    destruct Hin as [_ [_ [_ Hold]]]. exact (Hold cutoff Ho). }
  split; [assumption |].
  intros Hbad. destruct out as [| asset out]; [reflexivity |].
  destruct (Hall asset (or_introl eq_refl)) as [_ [limit [_ [Hl _]]]].
  congruence.
Qed.

(* ================================================================= *)
(** ** Further properties of the exclude patterns *)

Lemma test_empty_regexp (input : string) : RegExp.test [] input = true.
Proof. unfold RegExp.test. now rewrite RegExpFacts.search_unfold. Qed.

Lemma test_star_regexp (input : string) :
  RegExp.test [RegExp.AnyStar] input = true.
Proof.
  unfold RegExp.test.
  now rewrite RegExpFacts.search_unfold, RegExpFacts.match_here_star.
Qed.

Lemma filter_result_all_excluded {platform : Platform}
    (p : DeleteUnusedAssetsProps) (references : StringSet.t)
    (inventory : list AssetInfo) :
  (forall asset, isExcluded p asset = Ok true) ->
  filter_result (is_unused p references) inventory = Ok [].
Proof.
  intros Hall. induction inventory as [| a inventory IH]; [reflexivity |].
  cbn [filter_result]. unfold is_unused at 1. rewrite Hall, IH.
  now destruct (StringSet.has references (_id a)).
Qed.

Lemma filter_result_none_kept {platform : Platform}
    (p : DeleteUnusedAssetsProps) (references : StringSet.t)
    (inventory out : list AssetInfo) :
  (forall asset, isExcluded p asset <> Ok false) ->
  filter_result (is_unused p references) inventory = Ok out ->
  out = [].
Proof.
  intros Hall. revert out.
  induction inventory as [| a inventory IH]; cbn [filter_result]; intros out H.
  - now injection H as <-.
  - unfold is_unused at 1 in H.
    destruct (StringSet.has references (_id a)).
    + destruct (filter_result (is_unused p references) inventory)
        as [rest | e]; [| discriminate].
      injection H as <-. now apply IH.
    + specialize (Hall a).
      destruct (isExcluded p a) as [[|] | e]; [| congruence | discriminate].
      destruct (filter_result (is_unused p references) inventory)
        as [rest | e]; [| discriminate].
      injection H as <-. now apply IH.
Qed.

(** The empty pattern and the pattern [*] match every name. *)
Lemma match_all_excluded_by {platform : Platform} (asset : AssetInfo)
    (pattern : string) :
  pattern = EmptyString \/ pattern = "*" -> excluded_by asset pattern.
Proof.
  intros [-> | ->].
  - exists {| RegExp_test := RegExp.test [] |}. split; [reflexivity |].
    left. apply test_empty_regexp.
  - exists {| RegExp_test := RegExp.test [RegExp.AnyStar] |}.
    split; [reflexivity |]. left. apply test_star_regexp.
Qed.

(** A pattern that matches everything empties the scan: when the
    exclude list holds the empty pattern, or the pattern [*], no asset
    passes the exclusion check, so no inventory leaves a candidate; the
    check answers that the asset is excluded, unless [new RegExp] throws
    for a pattern that is no regular expression. *)
Theorem match_all_pattern_excludes_everything :
  forall (platform : Platform) (p : DeleteUnusedAssetsProps),
    In EmptyString (excludePatterns p) \/ In "*" (excludePatterns p) ->
    (forall asset, isExcluded p asset <> Ok false)
    /\ (forall references inventory out,
          filter_result (is_unused p references) inventory = Ok out ->
          out = [])
    /\ (patterns_compile p ->
        (forall asset, isExcluded p asset = Ok true)
        /\ (forall references inventory,
              filter_result (is_unused p references) inventory = Ok [])).
Proof.
  intros platform p Hin.
  assert (Hex : exists pattern,
             In pattern (excludePatterns p)
             /\ forall asset, excluded_by asset pattern).
  { destruct Hin as [Hin | Hin]; eexists; (split; [exact Hin |]);
      intros asset; apply match_all_excluded_by; auto. }
  destruct Hex as [pattern [Hpattern Hex]].
  assert (Hnot : forall asset, isExcluded p asset <> Ok false).
  { intros asset Hfalse.
    exact (isExcluded_false p asset Hfalse pattern Hpattern (Hex asset)). }
  split; [assumption |]. split.
  - intros references inventory out. now apply filter_result_none_kept.
  - intros Hm.
    assert (Hall : forall asset, isExcluded p asset = Ok true).
    { intros asset. destruct (isExcluded_returns p asset Hm) as [[|] E];
        [assumption | now elim (Hnot asset)]. }
    split; [assumption |].
    intros references inventory. now apply filter_result_all_excluded.
Qed.

Lemma parse_plain (l : list ascii) :
  forallb plain_character l = true ->
  RegExp.parse l = Some (map RegExp.Lit l).
Proof.
  intros H. pose proof (parse_plain_app l [] H) as Hp.
  rewrite app_nil_r in Hp. rewrite Hp. cbn. now rewrite app_nil_r.
Qed.

Lemma plain_pattern_test (pattern input : string) :
  plain_text pattern ->
  RegExp.compile (replace_stars pattern)
  = Some (map RegExp.Lit (list_ascii_of_string pattern))
  /\ (RegExp.test (map RegExp.Lit (list_ascii_of_string pattern)) input = true
      <-> contains_letters input pattern).
Proof.
  intros Hp. split.
  - unfold RegExp.compile. rewrite (replace_stars_plain _ Hp).
    now apply parse_plain.
  - unfold RegExp.test, contains_letters.
    rewrite RegExpFacts.search_spec. split.
    + intros [u [s1 [v [Hin Hm]]]].
      pose proof (Matches_letters (list_ascii_of_string pattern) [] s1) as Hl.
      rewrite app_nil_r in Hl. apply Hl in Hm.
      destruct Hm as [found [rest [-> [Hsame Hnil]]]].
      inversion Hnil; subst. rewrite app_nil_r in Hin.
      exists (string_of_list_ascii u), (string_of_list_ascii found),
        (string_of_list_ascii v).
      rewrite same_letters_canonical, list_ascii_of_string_of_list_ascii.
      split; [| assumption].
      rewrite <- (string_of_list_ascii_of_string input), Hin.
      now rewrite !string_of_list_ascii_app.
    + intros [u [found [v [-> Hsame]]]].
      exists (list_ascii_of_string u), (list_ascii_of_string found),
        (list_ascii_of_string v).
      split; [now rewrite !list_ascii_of_string_app |].
      pose proof (Matches_letters (list_ascii_of_string pattern) []
                    (list_ascii_of_string found)) as Hl.
      rewrite app_nil_r in Hl. apply Hl.
      exists (list_ascii_of_string found), [].
      rewrite app_nil_r. apply same_letters_canonical in Hsame.
      repeat split; [assumption | constructor].
Qed.

(** A pattern of plain ASCII text is searched for, not compared with the
    whole name: it excludes an asset exactly when the file name or the
    identifier holds the text somewhere, up to the case of letters. *)
Theorem plain_pattern_is_searched_anywhere :
  forall (platform : Platform) (p : DeleteUnusedAssetsProps)
         (asset : AssetInfo) (pattern : string),
    plain_text pattern ->
    (isExcluded (with_excludePatterns p [pattern]) asset = Ok true
     <-> contains_letters (string_or (originalFilename asset) EmptyString) pattern
         \/ contains_letters (_id asset) pattern)
    /\ (isExcluded (with_excludePatterns p [pattern]) asset = Ok false
        <-> ~ contains_letters (string_or (originalFilename asset) EmptyString)
                pattern
            /\ ~ contains_letters (_id asset) pattern).
Proof.
  intros platform p asset pattern Hp.
  destruct (plain_pattern_test pattern
              (string_or (originalFilename asset) EmptyString) Hp)
    as [Hr Hname].
  destruct (plain_pattern_test pattern (_id asset) Hp) as [_ Hid].
  unfold isExcluded, pattern_excludes. cbn.
  rewrite (RegExp_new_compiled _ _ Hr). cbn [RegExp_test].
  destruct (RegExp.test _ (string_or (originalFilename asset) EmptyString));
    destruct (RegExp.test _ (_id asset)); cbn;
    intuition (discriminate || auto).
Qed.

Lemma parse_dot_pattern (pre post : string) :
  plain_text pre -> plain_text post ->
  RegExp.compile (replace_stars (pre ++ "." ++ post))
  = Some (map RegExp.Lit (list_ascii_of_string pre)
          ++ RegExp.AnyChar :: map RegExp.Lit (list_ascii_of_string post)).
Proof.
  intros Hpre Hpost. unfold RegExp.compile.
  rewrite !replace_stars_app, (replace_stars_plain _ Hpre),
    (replace_stars_plain _ Hpost), !list_ascii_of_string_app.
  rewrite (parse_plain_app _ _ Hpre).
  cbn [replace_stars list_ascii_of_string app].
  change (Ascii.eqb "." RegExp.star) with false. cbn iota.
  cbn [list_ascii_of_string app RegExp.parse].
  change (Ascii.eqb "." RegExp.dot) with true. cbn iota.
  pose proof (parse_plain _ Hpost) as Hp.
  destruct (list_ascii_of_string post) as [| c rest] eqn:E.
  - reflexivity.
  - assert (Hc : Ascii.eqb c RegExp.star = false).
    { apply plain_character_not_star. unfold plain_text in Hpost.
      rewrite E in Hpost. cbn [forallb] in Hpost.
      now apply andb_prop in Hpost. }
    rewrite Hc, Hp. reflexivity.
Qed.

(** A dot in a pattern stands for any one character that is not a line
    terminator: [pre.post], of plain ASCII texts, matches in an ASCII
    string what holds [pre], one such character and [post] in a row. *)
Theorem dot_is_a_wildcard :
  forall (platform : Platform) (pre post : string),
    plain_text pre -> plain_text post ->
    exists regex,
      RegExp_new (replace_stars (pre ++ "." ++ post)) = Ok regex
      /\ forall input,
           ascii_text input ->
           (RegExp_test regex input = true <->
            exists u pre' c post' v,
              input = (u ++ pre' ++ String c post' ++ v)%string
              /\ same_letters pre pre'
              /\ ~ line_terminator c
              /\ same_letters post post').
Proof.
  intros platform pre post Hpre Hpost. eexists.
  split; [apply RegExp_new_compiled; now apply parse_dot_pattern |].
  intros input _. cbn [RegExp_test]. unfold RegExp.test.
  rewrite RegExpFacts.search_spec. split.
  - intros [u [s1 [v [Hin Hm]]]].
    apply Matches_letters in Hm.
    destruct Hm as [pre' [rest [-> [Hp Hm]]]].
    inversion Hm as [| | c r0 s0 Hc Hrest |]; subst.
    pose proof (Matches_letters (list_ascii_of_string post) [] s0) as Hl.
    rewrite app_nil_r in Hl. apply Hl in Hrest.
    destruct Hrest as [post' [rest' [-> [Hq Hnil]]]].
    inversion Hnil; subst. rewrite app_nil_r in Hin.
    exists (string_of_list_ascii u), (string_of_list_ascii pre'), c,
      (string_of_list_ascii post'), (string_of_list_ascii v).
    rewrite !same_letters_canonical, !list_ascii_of_string_of_list_ascii.
    repeat split; try assumption; [| now apply is_line_terminator_false].
    rewrite <- (string_of_list_ascii_of_string input), Hin, <- !app_assoc.
    now rewrite !string_of_list_ascii_app.
  - intros [u [pre' [c [post' [v [-> [Hp [Hc Hq]]]]]]]].
    apply same_letters_canonical in Hp, Hq.
    apply is_line_terminator_false in Hc.
    exists (list_ascii_of_string u),
      (list_ascii_of_string pre' ++ c :: list_ascii_of_string post'),
      (list_ascii_of_string v).
    split.
    + rewrite !list_ascii_of_string_app. cbn [list_ascii_of_string].
      rewrite ?list_ascii_of_string_app, <- ?app_assoc. reflexivity.
    + apply Matches_letters.
      exists (list_ascii_of_string pre'), (c :: list_ascii_of_string post').
      split; [reflexivity |]. split; [assumption |].
      constructor; [assumption |].
      pose proof (Matches_letters (list_ascii_of_string post) []
                    (list_ascii_of_string post')) as Hl.
      rewrite app_nil_r in Hl. apply Hl.
      exists (list_ascii_of_string post'), [].
      rewrite app_nil_r. repeat split; [assumption | constructor].
Qed.

Lemma existsb_kind (kind : AssetKind) (kinds : list AssetKind) :
  existsb (AssetKind_eqb kind) kinds = true <-> In kind kinds.
Proof.
  rewrite existsb_exists. split.
  - intros [k [Hin Heq]]. destruct kind, k; try discriminate; assumption.
  - intros Hin. exists kind. split; [assumption | now destruct kind].
Qed.

(** The type filter of the scan depends on which kinds [assetTypes]
    names, not on their order or repetition; and it is the filter of the
    file assets alone exactly when [assetTypes] does not name the image
    kind. *)
Theorem typeFilter_by_membership :
  forall p1 p2 : DeleteUnusedAssetsProps,
    (forall kind, In kind (assetTypes p1) <-> In kind (assetTypes p2)) ->
    typeFilter p1 = typeFilter p2
    /\ (In image (assetTypes p1) ->
        typeFilter p1 <> typeFilter (with_assetTypes p1 [file]))
    /\ (~ In image (assetTypes p1) ->
        typeFilter p1 = typeFilter (with_assetTypes p1 [file])).
Proof.
  intros p1 p2 H. unfold typeFilter.
  assert (Hk : forall kind,
             existsb (AssetKind_eqb kind) (assetTypes p1)
             = existsb (AssetKind_eqb kind) (assetTypes p2)).
  { intros kind.
    destruct (existsb (AssetKind_eqb kind) (assetTypes p2)) eqn:E.
    - apply existsb_kind, H, existsb_kind. assumption.
    - destruct (existsb (AssetKind_eqb kind) (assetTypes p1)) eqn:E1;
        [| reflexivity].
      apply existsb_kind, H, existsb_kind in E1. congruence. }
  rewrite !Hk. split; [reflexivity |]. rewrite <- !Hk. split.
  - intros Hi. apply existsb_kind in Hi. rewrite Hi. cbn.
    destruct (existsb (AssetKind_eqb file) (assetTypes p1)); discriminate.
  - intros Hi.
    destruct (existsb (AssetKind_eqb image) (assetTypes p1)) eqn:E;
      [apply existsb_kind in E; contradiction | reflexivity].
Qed.

(** An asset whose name as the list shows it matches an exclude pattern
    never passes the exclusion check: the name shown is the file name, or
    the identifier when there is no file name, and the check tests both.
    The check answers that the asset is excluded, unless [new RegExp]
    throws for a pattern that is no regular expression.  The name shown is
    empty only for an asset with an empty identifier. *)
Theorem shown_name_matched_is_excluded :
  forall (platform : Platform) (p : DeleteUnusedAssetsProps)
         (asset : AssetInfo) (pattern : string) (regex : RegExpObject),
    In pattern (excludePatterns p) ->
    RegExp_new (replace_stars pattern) = Ok regex ->
    RegExp_test regex (getAssetDisplayName asset) = true ->
    isExcluded p asset <> Ok false
    /\ (patterns_compile p -> isExcluded p asset = Ok true)
    /\ (getAssetDisplayName asset = EmptyString -> _id asset = EmptyString).
Proof.
  intros platform p asset pattern regex Hin Hregex Htest.
  assert (Hex : excluded_by asset pattern).
  { exists regex. split; [assumption |].
    unfold getAssetDisplayName in Htest.
    destruct (originalFilename asset) as [[| c name] |]; cbn in *.
    - now right.
    - now left.
    - now right. }
  assert (Hnot : isExcluded p asset <> Ok false).
  { intros Hfalse. exact (isExcluded_false p asset Hfalse pattern Hin Hex). }
  split; [assumption |]. split.
  - intros Hm. destruct (isExcluded_returns p asset Hm) as [[|] E];
      [assumption | contradiction].
  - unfold getAssetDisplayName.
    destruct (originalFilename asset) as [[| c name] |]; cbn;
      [auto | discriminate | auto].
Qed.

(* ================================================================= *)
(** ** Further properties of a deletion run *)

Lemma In_slice (arr : list string) (from to : nat) (id : string) :
  In id (slice arr from to) -> In id arr.
Proof.
  unfold slice. intros H.
  rewrite <- (firstn_skipn from arr). apply in_or_app. right.
  rewrite <- (firstn_skipn (to - from) (skipn from arr)).
  apply in_or_app. now left.
Qed.

Lemma committed_ids_app (t1 t2 : list Event) :
  committed_ids (t1 ++ t2) = committed_ids t1 ++ committed_ids t2.
Proof.
  induction t1 as [| e t1 IH]; [reflexivity |].
  destruct e; cbn [app committed_ids]; rewrite IH; try reflexivity.
  now rewrite app_assoc.
Qed.

Section BatchEvents.

Variable p : DeleteUnusedAssetsProps.
Variable s : State.
Variable arr : list string.

(** One batch: what it adds to the trace, and when it throws. *)
Lemma batch_step_events (i : nat) (l : Locals.t) (w : World) :
  exists r w' t,
    handleDelete_batch p s arr i l w = Some (r, w')
    /\ trace w' = trace w ++ t
    /\ Forall (batch_event p arr) t
    /\ (forall e, r = Throw e -> dryRun p = false)
    /\ forget_message (state w') = forget_message (state w).
Proof.
  unfold handleDelete_batch. destruct (dryRun p) eqn:Hdry.
  - eexists _, _, _. split; [reflexivity |]. cbn [trace state].
    split; [reflexivity |]. split; [| split; [discriminate | reflexivity]].
    repeat constructor. exact Hdry.
  - unfold bind, try_catch, client_transaction, transaction_commit.
    destruct (transaction_throws (client p) _) as [e |]; cbn [state trace].
    + eexists _, _, _. split; [reflexivity |]. cbn [trace state].
      split; [reflexivity |]. split; [| split; [reflexivity | reflexivity]].
      repeat constructor. exact Hdry.
    + rewrite fold_transaction_delete. cbn [app].
      assert (Hev : Forall (batch_event p arr)
                      [Transaction; Commit (slice arr i (i + batchSize p))]).
      { repeat constructor; [exact Hdry | exact Hdry |].
        intros id. apply In_slice. }
      destruct (commit_throws (client p) _ _); cbn;
        eexists _, _, _; (split; [reflexivity |]); cbn [trace state];
        rewrite <- app_assoc;
        (split; [reflexivity |]); (split; [exact Hev |]);
        (split; [discriminate | reflexivity]).
Qed.

Lemma for_loop_events (n step : nat) :
  forall fuel i l w r w',
    for_loop fuel i n step (handleDelete_batch p s arr) l w = Some (r, w') ->
    exists t,
      trace w' = trace w ++ t
      /\ Forall (batch_event p arr) t
      /\ (forall e, r = Throw e -> dryRun p = false)
      /\ forget_message (state w') = forget_message (state w).
Proof.
  induction fuel as [| fuel IH]; intros i l w r w' H; cbn [for_loop] in H;
    destruct (i <? n).
  - discriminate.
  - injection H as <- <-. exists []. rewrite app_nil_r.
    repeat split; [constructor | discriminate].
  - unfold bind in H.
    destruct (batch_step_events i l w) as [r1 [w1 [t1 [Hb [Ht [Hev [Hth Hf]]]]]]].
    rewrite Hb in H. destruct r1 as [l' | e].
    + destruct (IH _ _ _ _ _ H) as [t2 [Ht2 [Hev2 [Hth2 Hf2]]]].
      exists (t1 ++ t2). rewrite Ht2, Ht, app_assoc.
      split; [reflexivity |]. split; [now apply Forall_app |].
      split; [assumption | congruence].
    + injection H as <- <-. exists t1. auto.
  - injection H as <- <-. exists []. rewrite app_nil_r.
    repeat split; [constructor | discriminate].
Qed.

End BatchEvents.

(** How a deletion run of a selection ends: past the update of the
    results, or in the outer [catch]. *)
Lemma delete_cases (p : DeleteUnusedAssetsProps) (fuel : nat) (s : State)
    (w : World) :
  selectedAssets s <> [] ->
  run (handleDelete p fuel s) s = Some w ->
  exists t,
    Forall (batch_event p (selectedAssets s)) t
    /\ isDeleting (state w) = false
    /\ showConfirmDialog (state w) = false
    /\ ((exists l,
           trace w = t ++ completion p l
           /\ unusedAssets (state w)
              = without_ids (selectedAssets s) (unusedAssets s)
           /\ selectedAssets (state w) = StringSet.empty
           /\ message (state w) = message (after_run p s l))
        \/ (exists e,
              dryRun p = false
              /\ trace w = t ++ (if onError p
                                 then [OnError (message_or "Delete operation failed" e)]
                                 else [])
              /\ unusedAssets (state w) = unusedAssets s
              /\ selectedAssets (state w) = selectedAssets s
              /\ message (state w)
                 = MsgDeleteError (message_or "Delete operation failed" e))).
Proof.
  intros Hne. unfold run, handleDelete, handleDelete_with. rewrite (selection_size s Hne).
  run_setters. unfold try_finally, try_catch, bind.
  match goal with
  | |- context [for_loop fuel 0 ?n ?st ?b ?l0 ?w0] =>
      destruct (for_loop fuel 0 n st b l0 w0) as [[[l | e] w1] |] eqn:Hloop;
        [| | discriminate];
        destruct (for_loop_events _ _ _ _ _ _ _ _ _ _ _ Hloop)
          as [t [Ht [Hev [Hth Hf]]]]
  end; cbn [trace app] in Ht.
  - destruct (onComplete p) eqn:Hc; run_setters; intros [= <-];
      exists t; (split; [exact Hev |]);
      cbn [state trace isDeleting showConfirmDialog];
      (split; [reflexivity |]); (split; [reflexivity |]);
      left; exists l; unfold completion; rewrite Hc, Ht, ?app_nil_r;
      cbn [unusedAssets selectedAssets message after_run];
      repeat split; reflexivity.
  - destruct w1 as [st1 tr1]. destruct st1. unfold forget_message in Hf.
    cbn in Hf, Ht. injection Hf as -> -> -> -> -> -> -> -> -> -> ->.
    subst tr1.
    destruct (onError p) eqn:Hc; run_setters; intros [= <-];
      exists t; (split; [exact Hev |]);
      cbn [state trace isDeleting showConfirmDialog];
      (split; [reflexivity |]); (split; [reflexivity |]);
      right; exists e; rewrite ?app_nil_r;
      cbn [unusedAssets selectedAssets message];
      repeat split; try reflexivity; now apply (Hth e).
Qed.

Lemma batch_events_committed (p : DeleteUnusedAssetsProps) (arr : list string)
    (t : list Event) :
  Forall (batch_event p arr) t ->
  (forall id, In id (committed_ids t) -> In id arr)
  /\ filter is_completion t = []
  /\ filter is_error_callback t = []
  /\ (dryRun p = true -> filter is_mutating_call t = []).
Proof.
  induction 1 as [| e t He _ [IH1 [IH2 [IH3 IH4]]]].
  - repeat split; auto. intros id [].
  - destruct e; cbn [batch_event] in He; try contradiction;
      cbn [committed_ids filter is_completion is_error_callback
           is_mutating_call]; repeat split; auto.
    + intros Hdry. congruence.
    + intros id Hin. apply in_app_or in Hin. destruct Hin as [Hin | Hin].
      * now apply He.
      * now apply IH1.
    + destruct He as [He _]. intros Hdry. congruence.
Qed.

Lemma committed_ids_completion (p : DeleteUnusedAssetsProps) (l : Locals.t) :
  committed_ids (completion p l) = [].
Proof. unfold completion. now destruct (onComplete p). Qed.

Lemma committed_within_selection (p : DeleteUnusedAssetsProps) (fuel : nat)
    (s : State) (w : World) :
  run (handleDelete p fuel s) s = Some w ->
  forall id, In id (committed_ids (trace w)) -> In id (selectedAssets s).
Proof.
  intros H.
  assert (Hcase : selectedAssets s = [] \/ selectedAssets s <> [])
    by (destruct (selectedAssets s); [now left | right; discriminate]).
  destruct Hcase as [Hsel | Hne].
  - rewrite (handleDelete_nothing_selected p fuel s Hsel) in H.
    injection H as <-. intros id [].
  - destruct (delete_cases p fuel s w Hne H)
      as [t [Hev [_ [_ [[l [Ht _]] | [e [_ [Ht _]]]]]]]];
      destruct (batch_events_committed _ _ _ Hev) as [Hin _];
      intros id; rewrite Ht, committed_ids_app.
    + rewrite committed_ids_completion, app_nil_r. apply Hin.
    + destruct (onError p); cbn [committed_ids]; rewrite app_nil_r; apply Hin.
Qed.

(** A deletion run commits nothing but selected identifiers, whatever
    the batch size and whatever the client does; with an empty selection it
    does nothing at all, to the state or to the outside. *)
Theorem run_commits_only_selected :
  forall (p : DeleteUnusedAssetsProps) (fuel : nat) (s : State) (w : World),
    run (handleDelete p fuel s) s = Some w ->
    (forall id, In id (committed_ids (trace w)) -> In id (selectedAssets s))
    /\ (selectedAssets s = [] -> trace w = [] /\ state w = s).
Proof.
  intros p fuel s w H. split.
  - now apply (committed_within_selection p fuel s w).
  - intros Hsel. rewrite (handleDelete_nothing_selected p fuel s Hsel) in H.
    injection H as <-. auto.
Qed.

(** How a deletion run of a selection ends, whatever the callbacks do:
    past the update of the results, with a completion callback that
    returns or throws, or in the outer [catch] before the update. *)
Lemma delete_cases_with (p : DeleteUnusedAssetsProps) (callbacks : Callbacks)
    (fuel : nat) (s : State) (w : World) :
  selectedAssets s <> [] ->
  run (handleDelete_with p callbacks fuel s) s = Some w ->
  exists t,
    Forall (batch_event p (selectedAssets s)) t
    /\ isDeleting (state w) = false
    /\ showConfirmDialog (state w) = false
    /\ ((exists l,
           unusedAssets (state w)
           = without_ids (selectedAssets s) (unusedAssets s)
           /\ selectedAssets (state w) = StringSet.empty
           /\ ((trace w = t ++ completion p l
                /\ message (state w) = message (after_run p s l)
                /\ (onComplete p = true ->
                    onComplete_throws callbacks (results_of l) = None))
               \/ (exists thrown,
                     onComplete p = true
                     /\ onComplete_throws callbacks (results_of l) = Some thrown
                     /\ trace w = t ++ [OnComplete (results_of l)]
                                    ++ delete_error_report p thrown
                     /\ message (state w)
                        = MsgDeleteError
                            (message_or "Delete operation failed" thrown))))
        \/ (exists e,
              dryRun p = false
              /\ trace w = t ++ delete_error_report p e
              /\ unusedAssets (state w) = unusedAssets s
              /\ selectedAssets (state w) = selectedAssets s
              /\ message (state w)
                 = MsgDeleteError (message_or "Delete operation failed" e))).
Proof.
  intros Hne. unfold run, handleDelete_with. rewrite (selection_size s Hne).
  run_setters. unfold try_finally, try_catch, bind.
  match goal with
  | |- context [for_loop fuel 0 ?n ?st ?b ?l0 ?w0] =>
      destruct (for_loop fuel 0 n st b l0 w0) as [[[l | e] w1] |] eqn:Hloop;
        [| | discriminate];
        destruct (for_loop_events _ _ _ _ _ _ _ _ _ _ _ Hloop)
          as [t [Ht [Hev [Hth Hf]]]]
  end; cbn [trace app] in Ht.
  - fold (results_of l). unfold delete_error_report.
    destruct (onComplete p) eqn:Hc;
      [destruct (onComplete_throws callbacks (results_of l)) as [thrown |] eqn:Hthrow;
       [destruct (onError p) eqn:He;
        [destruct (onError_throws callbacks
                     (message_or "Delete operation failed" thrown)) |] |] |];
      run_setters; intros [= <-];
      exists t; (split; [exact Hev |]);
      cbn [state trace isDeleting showConfirmDialog];
      (split; [reflexivity |]); (split; [reflexivity |]);
      left; exists l;
      cbn [unusedAssets selectedAssets message after_run];
      (split; [reflexivity |]); (split; [reflexivity |]).
    + right. exists thrown. rewrite Ht, <- app_assoc.
      repeat split; assumption || reflexivity.
    + right. exists thrown. rewrite Ht, <- app_assoc.
      repeat split; assumption || reflexivity.
    + right. exists thrown. rewrite Ht. cbn [app].
      repeat split; assumption || reflexivity.
    + left. unfold completion. rewrite Hc, Ht.
      split; [reflexivity |]. split; [reflexivity |]. intros _. exact Hthrow.
    + left. unfold completion. rewrite Hc, Ht, app_nil_r.
      repeat split; try reflexivity. discriminate.
  - destruct w1 as [st1 tr1]. destruct st1. unfold forget_message in Hf.
    cbn in Hf, Ht. injection Hf as -> -> -> -> -> -> -> -> -> -> ->.
    subst tr1. unfold delete_error_report.
    destruct (onError p) eqn:Hc;
      [destruct (onError_throws callbacks
                   (message_or "Delete operation failed" e)) |];
      run_setters; intros [= <-];
      exists t; (split; [exact Hev |]);
      cbn [state trace isDeleting showConfirmDialog];
      (split; [reflexivity |]); (split; [reflexivity |]);
      right; exists e; rewrite ?app_nil_r;
      cbn [unusedAssets selectedAssets message];
      repeat split; try reflexivity; now apply (Hth e).
Qed.

Lemma committed_within_selection_with (p : DeleteUnusedAssetsProps)
    (callbacks : Callbacks) (fuel : nat) (s : State) (w : World) :
  run (handleDelete_with p callbacks fuel s) s = Some w ->
  forall id, In id (committed_ids (trace w)) -> In id (selectedAssets s).
Proof.
  intros H.
  assert (Hcase : selectedAssets s = [] \/ selectedAssets s <> [])
    by (destruct (selectedAssets s); [now left | right; discriminate]).
  destruct Hcase as [Hsel | Hne].
  - unfold run, handleDelete_with in H. rewrite Hsel in H.
    injection H as <-. intros id [].
  - destruct (delete_cases_with p callbacks fuel s w Hne H)
      as [t [Hev [_ [_ [[l [_ [_ [[Ht _] | [thrown [_ [_ [Ht _]]]]]]]]
                       | [e [_ [Ht _]]]]]]]];
      destruct (batch_events_committed _ _ _ Hev) as [Hin _];
      intros id; rewrite Ht, !committed_ids_app.
    + rewrite committed_ids_completion, app_nil_r. apply Hin.
    + unfold delete_error_report. destruct (onError p);
        cbn [committed_ids]; rewrite app_nil_r; apply Hin.
    + unfold delete_error_report. destruct (onError p);
        cbn [committed_ids]; rewrite app_nil_r; apply Hin.
Qed.

Lemma In_batch_events (p : DeleteUnusedAssetsProps) (arr : list string)
    (t : list Event) :
  Forall (batch_event p arr) t ->
  forall e, In e t -> is_completion e = false /\ is_error_callback e = false.
Proof.
  intros Hev e Hin. rewrite Forall_forall in Hev. specialize (Hev e Hin).
  destruct e; cbn [batch_event] in Hev; try contradiction; auto.
Qed.

(** However a deletion run of a selection ends, and whatever its
    callbacks do, the deleting flag and the confirmation dialog are down
    afterwards and each callback was called at most once.  The completion
    callback goes with the update of the list and the emptied selection.
    The error callback is called after the completion callback exactly
    when that one threw, and it then gets the message of what was thrown;
    otherwise it goes with a list and a selection left as they were.
    When the completion callback returns, at most one of the two
    callbacks is called. *)
Theorem run_ends_tidy :
  forall (p : DeleteUnusedAssetsProps) (callbacks : Callbacks) (fuel : nat)
         (s : State) (w : World),
    selectedAssets s <> [] ->
    run (handleDelete_with p callbacks fuel s) s = Some w ->
    isDeleting (state w) = false
    /\ showConfirmDialog (state w) = false
    /\ List.length (filter is_completion (trace w)) <= 1
    /\ List.length (filter is_error_callback (trace w)) <= 1
    /\ (forall results,
          In (OnComplete results) (trace w) ->
          selectedAssets (state w) = StringSet.empty
          /\ unusedAssets (state w)
             = without_ids (selectedAssets s) (unusedAssets s))
    /\ (forall error,
          In (OnError error) (trace w) ->
          (exists results thrown,
              In (OnComplete results) (trace w)
              /\ onComplete_throws callbacks results = Some thrown
              /\ error = message_or "Delete operation failed" thrown)
          \/ ((forall results, ~ In (OnComplete results) (trace w))
              /\ selectedAssets (state w) = selectedAssets s
              /\ unusedAssets (state w) = unusedAssets s))
    /\ ((forall results, onComplete_throws callbacks results = None) ->
        List.length (filter is_completion (trace w))
        + List.length (filter is_error_callback (trace w)) <= 1).
Proof.
  intros p callbacks fuel s w Hne H.
  destruct (delete_cases_with p callbacks fuel s w Hne H)
    as [t [Hev [Hd [Hc Hend]]]].
  destruct (batch_events_committed _ _ _ Hev) as [_ [Hnc [Hne' _]]].
  pose proof (In_batch_events _ _ _ Hev) as Hnot.
  split; [assumption |]. split; [assumption |].
  destruct Hend
    as [[l [Hu [Hs [[Ht [_ Hret]] | [thrown [Hgiven [Hthrow [Ht _]]]]]]]]
       | [e [_ [Ht [Hu [Hs _]]]]]];
    rewrite Ht, !filter_app, ?Hnc, ?Hne'; cbn [app].
  - unfold completion. destruct (onComplete p); cbn;
      (split; [lia |]); (split; [lia |]); (split; [auto |]);
      (split; [| intros _; lia]);
      intros error Hin; exfalso; apply in_app_or in Hin;
      destruct Hin as [Hin | Hin];
      try (apply Hnot in Hin; destruct Hin as [_ Hin]; discriminate);
      cbn in Hin; intuition discriminate.
  - unfold delete_error_report. destruct (onError p); cbn;
      (split; [lia |]); (split; [lia |]); (split; [auto |]);
      (split; [| intros Hret; rewrite Hret in Hthrow; discriminate]);
      intros error Hin; left; exists (results_of l), thrown;
      (split; [apply in_or_app; right; now left |]); (split; [assumption |]);
      apply in_app_or in Hin; destruct Hin as [Hin | Hin];
      try (apply Hnot in Hin; destruct Hin as [_ Hin]; discriminate);
      cbn in Hin; intuition congruence.
  - unfold delete_error_report. destruct (onError p); cbn;
      (split; [lia |]); (split; [lia |]);
      (split;
       [intros results Hin; exfalso; apply in_app_or in Hin;
        destruct Hin as [Hin | Hin];
        [apply Hnot in Hin; destruct Hin as [Hin _]; discriminate
        | cbn in Hin; intuition discriminate] |]);
      (split; [| intros _; lia]);
      intros error _; right; (split; [| auto]);
      intros results Hin; apply in_app_or in Hin;
      destruct Hin as [Hin | Hin];
      [apply Hnot in Hin; destruct Hin as [Hin _]; discriminate
      | cbn in Hin; intuition discriminate
      | apply Hnot in Hin; destruct Hin as [Hin _]; discriminate
      | cbn in Hin; intuition discriminate].
Qed.

Lemma foldM_app {A B} (body : B -> A -> M A) (l1 l2 : list B) :
  forall acc w,
    foldM body (l1 ++ l2) acc w
    = match foldM body l1 acc w with
      | Some (Ok a, w') => foldM body l2 a w'
      | Some (Throw e, w') => Some (Throw e, w')
      | None => None
      end.
Proof.
  induction l1 as [| x l1 IH]; intros acc w; cbn [app foldM].
  - reflexivity.
  - unfold bind. destruct (body x acc w) as [[[a | e] w'] |]; auto.
Qed.

(** The batches before the first [client.transaction()] that throws are
    committed one after the other. *)
Lemma commit_loop_upto (p : DeleteUnusedAssetsProps) (s : State)
    (arr : list string) :
  dryRun p = false ->
  1 <= batchSize p ->
  forall c j l w,
    (forall i, j <= i < j + c -> transaction_throws (client p) i = None) ->
    count_events is_transaction (trace w) = j ->
    count_events is_commit (trace w) = j ->
    exists l' w',
      foldM (fun k => handleDelete_batch p s arr (k * batchSize p)) (seq j c) l w
      = Some (Ok l', w')
      /\ forget_message (state w') = forget_message (state w)
      /\ trace w' = trace w
                    ++ flat_map (fun k => [Transaction;
                                           Commit (batch_at (batchSize p) arr k)])
                                (seq j c).
Proof.
  intros Hdry Hsize.
  induction c as [| c IH]; intros j l w Htx Hct Hcc.
  - exists l, w. cbn. rewrite app_nil_r. auto.
  - destruct (commit_batch p s arr j l w Hdry Hsize (Htx j ltac:(lia)) Hct Hcc)
      as [w1 [Hb [Hf Ht]]].
    destruct (IH (S j) (after_commit p s arr l j) w1) as [l2 [w2 [Hl [Hf2 Ht2]]]].
    + intros i Hi. apply Htx. lia.
    + rewrite Ht, count_events_app, Hct. cbn. lia.
    + rewrite Ht, count_events_app, Hcc. cbn. lia.
    + exists l2, w2. cbn [seq foldM flat_map]. unfold bind.
      rewrite Hb, Hl. split; [reflexivity |].
      split; [congruence |]. rewrite Ht2, Ht, <- app_assoc. reflexivity.
Qed.

Lemma count_transactions_of_commits (batch : nat -> list string) (c : nat) :
  forall j,
    count_events is_transaction
      (flat_map (fun k => [Transaction; Commit (batch k)]) (seq j c)) = c.
Proof.
  unfold count_events.
  induction c as [| c IH]; intros j; [reflexivity |].
  cbn [seq flat_map app filter is_transaction List.length]. now rewrite IH.
Qed.

(** When [client.transaction()] throws for batch [k], the run stops
    there: the earlier batches were committed, the later ones are not
    tried, the completion callback is not called, the error callback gets
    the message, and the candidate list and the selection stay as they
    were, the identifiers of the committed batches included. *)
Theorem transaction_failure_aborts_the_run :
  forall (p : DeleteUnusedAssetsProps) (s : State) (fuel k : nat)
         (error : Thrown),
    dryRun p = false ->
    1 <= batchSize p ->
    k < selected_batches p s ->
    StringSet.size (selectedAssets s) <= fuel ->
    (forall j, j < k -> transaction_throws (client p) j = None) ->
    transaction_throws (client p) k = Some error ->
    exists w,
      run (handleDelete p fuel s) s = Some w
      /\ trace w
         = flat_map (fun j => [Transaction; Commit (selected_batch p s j)])
                    (seq 0 k)
           ++ [Transaction]
           ++ (if onError p
               then [OnError (message_or "Delete operation failed" error)]
               else [])
      /\ unusedAssets (state w) = unusedAssets s
      /\ selectedAssets (state w) = selectedAssets s
      /\ message (state w)
         = MsgDeleteError (message_or "Delete operation failed" error)
      /\ isDeleting (state w) = false
      /\ showConfirmDialog (state w) = false.
Proof.
  intros p s fuel k error Hdry Hsize Hk Hfuel Hbefore Hat.
  assert (Hne : selectedAssets s <> []).
  { intros Hsel. unfold selected_batches in Hk. rewrite Hsel in Hk.
    cbn [StringSet.size List.length] in Hk.
    rewrite (batch_count_0 _ Hsize) in Hk. lia. }
  unfold run, handleDelete, handleDelete_with. rewrite (selection_size s Hne).
  run_setters.
  change {| Locals.errors := []; Locals.deletedCount := 0;
            Locals.savedSpace := 0%N |} with no_batch_yet.
  unfold try_finally, try_catch, bind.
  rewrite (handleDelete_loop p s Hsize fuel _ Hfuel).
  rewrite (seq_split_at k _ Hk), foldM_app.
  match goal with
  | |- context [foldM _ (seq 0 k) no_batch_yet ?w0] =>
      destruct (commit_loop_upto p s (StringSet.to_array (selectedAssets s))
                  Hdry Hsize k 0 no_batch_yet w0
                  ltac:(intros i Hi; apply Hbefore; lia) eq_refl eq_refl)
        as [l1 [w1 [Hl [Hf Ht]]]]
  end.
  rewrite Hl. cbn [foldM]. unfold bind at 1.
  assert (Hcount : count_events is_transaction (trace w1) = k).
  { rewrite Ht. cbn [trace app]. apply count_transactions_of_commits. }
  unfold handleDelete_batch at 1. rewrite Hdry.
  unfold bind at 1, client_transaction. rewrite Hcount, Hat.
  destruct w1 as [st1 tr1]. cbn [state trace app] in *. subst tr1.
  destruct st1. unfold forget_message in Hf. cbn in Hf.
  injection Hf as -> -> -> -> -> -> -> -> -> -> ->.
  destruct (onError p); run_setters; eexists; (split; [reflexivity |]);
    cbn [state trace unusedAssets selectedAssets message isDeleting
         showConfirmDialog];
    rewrite <- ?app_assoc; repeat split; reflexivity.
Qed.

Lemma list_sum_filter_split {A} (f : A -> nat) (g : A -> bool) (l : list A) :
  list_sum (map f (filter g l))
  + list_sum (map f (filter (fun x => negb (g x)) l))
  = list_sum (map f l).
Proof.
  induction l as [| x l IH]; [reflexivity |].
  cbn [filter map]. destruct (g x); cbn [negb map];
    change (list_sum (?a :: ?r)) with (a + list_sum r); lia.
Qed.

(** The local variables at the end of a run that deletes, whatever each
    commit did. *)
Lemma fold_commit_any (p : DeleteUnusedAssetsProps) (s : State)
    (indices : list nat) :
  forall l,
    fold_left (after_commit p s (StringSet.to_array (selectedAssets s)))
              indices l
    = {| Locals.errors := Locals.errors l ++ flat_map (batch_error p s) indices;
         Locals.deletedCount :=
           Locals.deletedCount l
           + list_sum (map (fun k => List.length (selected_batch p s k))
                           (filter (fun k => negb (commit_fails p s k)) indices));
         Locals.savedSpace :=
           (Locals.savedSpace l
            + sum_N (map (fun k => batch_space s (selected_batch p s k))
                         (filter (fun k => negb (commit_fails p s k)) indices)))%N |}.
Proof.
  induction indices as [| k indices IH]; intros l.
  - cbn. rewrite app_nil_r, Nat.add_0_r, N.add_0_r. now destruct l.
  - cbn [fold_left flat_map filter]. rewrite IH.
    destruct (commit_throws (client p) k (selected_batch p s k)) as [e |] eqn:E;
      pose proof E as E'; unfold selected_batch in E'.
    + assert (H1 : after_commit p s (StringSet.to_array (selectedAssets s)) l k
                   = {| Locals.errors :=
                          Locals.errors l
                          ++ [("Batch " ++ show_nat (k + 1) ++ ": "
                               ++ message_or "Unknown error" e)%string];
                        Locals.deletedCount := Locals.deletedCount l;
                        Locals.savedSpace := Locals.savedSpace l |})
        by (unfold after_commit; cbv zeta; now rewrite E').
      assert (H2 : batch_error p s k
                   = [("Batch " ++ show_nat (k + 1) ++ ": "
                       ++ message_or "Unknown error" e)%string])
        by (unfold batch_error; now rewrite E).
      assert (H3 : commit_fails p s k = true)
        by (unfold commit_fails; now rewrite E).
      rewrite H1, H2, H3.
      cbn [negb Locals.errors Locals.deletedCount Locals.savedSpace].
      now rewrite <- app_assoc.
    + assert (H1 : after_commit p s (StringSet.to_array (selectedAssets s)) l k
                   = {| Locals.errors := Locals.errors l;
                        Locals.deletedCount :=
                          Locals.deletedCount l
                          + List.length (selected_batch p s k);
                        Locals.savedSpace :=
                          (Locals.savedSpace l
                           + batch_space s (selected_batch p s k))%N |})
        by (unfold after_commit; cbv zeta; now rewrite E').
      assert (H2 : batch_error p s k = [])
        by (unfold batch_error; now rewrite E).
      assert (H3 : commit_fails p s k = false)
        by (unfold commit_fails; now rewrite E).
      rewrite H1, H2, H3.
      cbn [negb map app Locals.errors Locals.deletedCount Locals.savedSpace].
      f_equal.
      * change (list_sum (?a :: ?r)) with (a + list_sum r). lia.
      * change (sum_N (?a :: ?r)) with (a + sum_N r)%N.
        now rewrite N.add_assoc.
Qed.

Lemma batch_errors_count (p : DeleteUnusedAssetsProps) (s : State)
    (indices : list nat) :
  List.length (flat_map (batch_error p s) indices)
  = List.length (filter (commit_fails p s) indices).
Proof.
  induction indices as [| k indices IH]; [reflexivity |].
  cbn [flat_map filter]. rewrite length_app, IH.
  unfold batch_error, commit_fails.
  now destruct (commit_throws (client p) k (selected_batch p s k)).
Qed.

(** A run that deletes accounts for every batch: whatever each commit
    does, every batch is committed in turn, the count of deleted assets is
    the size of the batches that committed, the list of errors has one
    entry for each batch that failed, in order, and the deleted and the
    failed identifiers together are the selection. *)
Theorem run_accounts_for_every_batch :
  forall (p : DeleteUnusedAssetsProps) (s : State) (fuel : nat),
    dryRun p = false ->
    1 <= batchSize p ->
    selectedAssets s <> [] ->
    StringSet.size (selectedAssets s) <= fuel ->
    (forall k, transaction_throws (client p) k = None) ->
    let indices := seq 0 (selected_batches p s) in
    let committed := filter (fun k => negb (commit_fails p s k)) indices in
    let failed := filter (commit_fails p s) indices in
    let result :=
      {| deleted :=
           list_sum (map (fun k => List.length (selected_batch p s k)) committed);
         savedSpace :=
           sum_N (map (fun k => batch_space s (selected_batch p s k)) committed);
         errors := flat_map (batch_error p s) indices |} in
    exists w,
      run (handleDelete p fuel s) s = Some w
      /\ trace w
         = flat_map (fun k => [Transaction; Commit (selected_batch p s k)]) indices
           ++ (if onComplete p then [OnComplete result] else [])
      /\ message (state w)
         = MsgDeleted (deleted result) (savedSpace result) (List.length failed)
      /\ deleted result
         + list_sum (map (fun k => List.length (selected_batch p s k)) failed)
         = StringSet.size (selectedAssets s)
      /\ List.length (errors result) = List.length failed.
Proof.
  intros p s fuel Hdry Hsize Hne Hfuel Htx indices committed failed result.
  rewrite (handleDelete_commit p s Hsize Hne fuel Hdry Htx Hfuel).
  eexists. split; [reflexivity |].
  rewrite fold_commit_any.
  cbn [no_batch_yet Locals.errors Locals.deletedCount Locals.savedSpace app].
  rewrite Nat.add_0_l, N.add_0_l.
  unfold completion, after_run. rewrite Hdry.
  cbn [state trace message Locals.errors Locals.deletedCount Locals.savedSpace].
  fold indices. fold committed.
  rewrite (batch_errors_count p s indices). fold failed.
  split; [reflexivity |]. split; [reflexivity |]. split.
  - unfold result, deleted, committed, failed.
    rewrite Nat.add_comm.
    rewrite (list_sum_filter_split
               (fun k => List.length (selected_batch p s k))
               (commit_fails p s) indices).
    apply (batch_lengths p (StringSet.to_array (selectedAssets s)) Hsize).
  - unfold result, errors. apply batch_errors_count.
Qed.

Lemma committed_ids_of_commits (batch : nat -> list string)
    (indices : list nat) :
  committed_ids (flat_map (fun k => [Transaction; Commit (batch k)]) indices)
  = List.concat (map batch indices).
Proof.
  induction indices as [| k indices IH]; [reflexivity |].
  cbn [flat_map app committed_ids map List.concat]. now rewrite IH.
Qed.

Lemma committed_ids_of_preview (batch : nat -> list string)
    (indices : list nat) :
  committed_ids (map (fun k => ConsoleLog (batch k)) indices) = [].
Proof.
  induction indices as [| k indices IH]; [reflexivity | exact IH].
Qed.

(** The preview tells the truth about a run in which nothing fails: with
    the same props but for the dry-run flag, the dry run and the run that
    deletes give the completion callback the same result, the size of the
    selection and the size shown in the dialog, and leave the same
    candidate list; the run that deletes commits every selected
    identifier once, in the order of the selection, and the dry run
    none. *)
Theorem dry_run_predicts_the_run :
  forall (p : DeleteUnusedAssetsProps) (s : State) (fuel : nat),
    1 <= batchSize p ->
    selectedAssets s <> [] ->
    NoDup (selectedAssets s) ->
    StringSet.size (selectedAssets s) <= fuel ->
    (forall k, transaction_throws (client p) k = None) ->
    (forall k ids, commit_throws (client p) k ids = None) ->
    let result :=
      {| deleted := StringSet.size (selectedAssets s);
         savedSpace := selectedSize s;
         errors := [] |} in
    exists preview real,
      run (handleDelete (with_dryRun p true) fuel s) s = Some preview
      /\ run (handleDelete (with_dryRun p false) fuel s) s = Some real
      /\ filter is_completion (trace preview)
         = (if onComplete p then [OnComplete result] else [])
      /\ filter is_completion (trace real)
         = (if onComplete p then [OnComplete result] else [])
      /\ message (state preview) = MsgDryRun (deleted result) (savedSpace result)
      /\ message (state real) = MsgDeleted (deleted result) (savedSpace result) 0
      /\ unusedAssets (state preview) = unusedAssets (state real)
      /\ committed_ids (trace real) = StringSet.to_array (selectedAssets s)
      /\ committed_ids (trace preview) = [].
Proof.
  intros p s fuel Hsize Hne Hnd Hfuel Htx Hok result.
  rewrite (handleDelete_preview (with_dryRun p true) s Hsize Hne fuel eq_refl
             Hfuel).
  rewrite (handleDelete_commit (with_dryRun p false) s Hsize Hne fuel eq_refl
             Htx Hfuel).
  eexists _, _. split; [reflexivity |]. split; [reflexivity |].
  rewrite (fold_commit_ok (with_dryRun p false) s)
    by (intros k _; apply Hok).
  rewrite !fold_preview.
  unfold selected_batches.
  change (StringSet.size (selectedAssets s))
    with (List.length (StringSet.to_array (selectedAssets s))).
  change (batchSize (with_dryRun p true)) with (batchSize p).
  change (batchSize (with_dryRun p false)) with (batchSize p).
  rewrite (batch_lengths p (StringSet.to_array (selectedAssets s)) Hsize).
  rewrite (batch_spaces p s (StringSet.to_array (selectedAssets s)) Hsize Hnd).
  cbn [no_batch_yet Locals.errors Locals.deletedCount Locals.savedSpace].
  rewrite Nat.add_0_l, N.add_0_l.
  cbn [state trace]. rewrite !filter_app.
  assert (Hp : forall (batch : nat -> list string) (indices : list nat),
             filter is_completion
               (map (fun k => ConsoleLog (batch k)) indices) = []).
  { intros batch indices.
    induction indices as [| k indices IH]; [reflexivity | exact IH]. }
  assert (Hc : forall (batch : nat -> list string) (indices : list nat),
             filter is_completion
               (flat_map (fun k => [Transaction; Commit (batch k)]) indices) = []).
  { intros batch indices.
    induction indices as [| k indices IH]; [reflexivity | exact IH]. }
  rewrite Hp, Hc, !committed_ids_app, committed_ids_of_commits,
    committed_ids_of_preview, !committed_ids_completion, app_nil_r.
  unfold completion, after_run.
  cbn [onComplete dryRun with_dryRun message unusedAssets
       Locals.errors Locals.deletedCount Locals.savedSpace List.length app].
  split; [now destruct (onComplete p) |].
  split; [now destruct (onComplete p) |].
  split; [reflexivity |]. split; [reflexivity |]. split; [reflexivity |].
  split; [| reflexivity].
  pose proof (batches_concat (batchSize p) Hsize
                (StringSet.to_array (selectedAssets s))
                (batch_count (batchSize p)
                   (List.length (StringSet.to_array (selectedAssets s)))) 0) as H.
  rewrite Nat.sub_0_r in H. exact (H eq_refl).
Qed.

(** With a batch size of 0 the loop never ends for a selection: neither
    a dry run, nor a run that deletes as long as [client.transaction()]
    does not throw, returns, whatever the fuel. *)
Theorem zero_batch_size_hangs :
  forall (p : DeleteUnusedAssetsProps) (s : State) (fuel : nat),
    batchSize p = 0 ->
    selectedAssets s <> [] ->
    dryRun p = true \/ (forall k, transaction_throws (client p) k = None) ->
    run (handleDelete p fuel s) s = None.
Proof.
  intros p s fuel Hzero Hne Hmode.
  unfold run, handleDelete, handleDelete_with. rewrite (selection_size s Hne).
  run_setters. unfold try_finally, try_catch, bind.
  assert (Hloop : forall l w,
             for_loop fuel 0 (List.length (StringSet.to_array (selectedAssets s)))
               (batchSize p)
               (handleDelete_batch p s (StringSet.to_array (selectedAssets s)))
               l w = None).
  { rewrite Hzero.
    assert (Hn : (0 <? List.length (StringSet.to_array (selectedAssets s))) = true).
    { apply Nat.ltb_lt. unfold StringSet.to_array.
      destruct (selectedAssets s); [contradiction | cbn; lia]. }
    induction fuel as [| fuel IH]; intros l w; cbn [for_loop]; rewrite Hn.
    - reflexivity.
    - unfold bind.
      assert (Hb : exists l' w',
                 handleDelete_batch p s (StringSet.to_array (selectedAssets s))
                   0 l w = Some (Ok l', w')).
      { unfold handleDelete_batch. destruct (dryRun p) eqn:Hdry.
        - eexists _, _. reflexivity.
        - destruct Hmode as [Hd | Htx]; [discriminate |].
          unfold bind, try_catch, client_transaction, transaction_commit.
          rewrite Htx. cbn [state trace].
          destruct (commit_throws (client p) _ _); cbn;
            eexists _, _; reflexivity. }
      destruct Hb as [l' [w' Hb]]. rewrite Hb. apply IH. }
  now rewrite Hloop.
Qed.

(* ================================================================= *)
(** ** Further properties of the selection and of the view *)

Lemma has_In (s : StringSet.t) (id : string) :
  StringSet.has s id = true <-> In id s.
Proof. apply includes_In. Qed.

Lemma length_delete (s : StringSet.t) (id : string) :
  NoDup s -> In id s ->
  S (List.length (StringSet.delete s id)) = List.length s.
Proof.
  unfold StringSet.delete. induction 1 as [| x s Hx Hnd IH]; intros Hin.
  - contradiction.
  - cbn [filter]. destruct (String.eqb id x) eqn:E; cbn [negb List.length].
    + apply String.eqb_eq in E. subst x. f_equal.
      clear IH Hin. induction s as [| y s IHs]; [reflexivity |].
      cbn [filter]. destruct (String.eqb id y) eqn:Ey.
      * apply String.eqb_eq in Ey. subst y. elim Hx. now left.
      * cbn [negb List.length]. f_equal. apply IHs.
        -- intros H. apply Hx. now right.
        -- now inversion Hnd.
    + f_equal. apply IH. destruct Hin as [-> | Hin]; [| assumption].
      now rewrite String.eqb_refl in E.
Qed.

(** A toggle flips one identifier: it is selected afterwards exactly when
    it was not before, the other identifiers are selected as before, the
    size of the selection moves by one, the candidate list is untouched,
    and a second toggle of the same identifier gives back the members of
    the first selection. *)
Theorem toggle_flips_one_identifier :
  forall (s : State) (id : string),
    exists w,
      run (toggleAssetSelection s id) s = Some w
      /\ StringSet.has (selectedAssets (state w)) id
         = negb (StringSet.has (selectedAssets s) id)
      /\ (forall x, x <> id ->
            (In x (selectedAssets (state w)) <-> In x (selectedAssets s)))
      /\ unusedAssets (state w) = unusedAssets s
      /\ trace w = []
      /\ (NoDup (selectedAssets s) ->
          StringSet.size (selectedAssets (state w))
          = if StringSet.has (selectedAssets s) id
            then StringSet.size (selectedAssets s) - 1
            else StringSet.size (selectedAssets s) + 1)
      /\ (exists w',
            run (toggleAssetSelection (state w) id) (state w) = Some w'
            /\ forall x, In x (selectedAssets (state w'))
                         <-> In x (selectedAssets s)).
Proof.
  intros s id.
  assert (Hflip : forall sel : StringSet.t,
             let sel' := if StringSet.has sel id
                         then StringSet.delete sel id
                         else StringSet.add sel id in
             StringSet.has sel' id = negb (StringSet.has sel id)
             /\ (forall x, x <> id -> (In x sel' <-> In x sel))).
  { intros sel sel'. unfold sel'.
    destruct (StringSet.has sel id) eqn:E; cbn [negb]; split.
    - destruct (StringSet.has (StringSet.delete sel id) id) eqn:E';
        [| reflexivity].
      apply has_In in E'. unfold StringSet.delete in E'.
      apply filter_In in E'. destruct E' as [_ E'].
      now rewrite String.eqb_refl in E'.
    - intros x Hx. unfold StringSet.delete. rewrite filter_In. split.
      + tauto.
      + intros Hin. split; [assumption |].
        apply negb_true_iff, String.eqb_neq. congruence.
    - apply has_In, StringSetFacts.In_add. now right.
    - intros x Hx. rewrite StringSetFacts.In_add. tauto. }
  eexists. split; [reflexivity |].
  cbn [state trace selectedAssets unusedAssets].
  destruct (Hflip (selectedAssets s)) as [H1 H2].
  split; [exact H1 |]. split; [exact H2 |].
  split; [reflexivity |]. split; [reflexivity |]. split.
  - intros Hnd. unfold StringSet.size.
    destruct (StringSet.has (selectedAssets s) id) eqn:E.
    + apply has_In in E. pose proof (length_delete _ _ Hnd E). lia.
    + unfold StringSet.add. rewrite E, length_app. reflexivity.
  - eexists. split; [reflexivity |].
    cbn [state selectedAssets].
    set (sel1 := if StringSet.has (selectedAssets s) id
                 then StringSet.delete (selectedAssets s) id
                 else StringSet.add (selectedAssets s) id) in *.
    destruct (Hflip sel1) as [H3 H4]. intros x.
    destruct (String.eqb x id) eqn:Ex.
    + apply String.eqb_eq in Ex. subst x.
      rewrite <- !has_In, H3, H1.
      destruct (StringSet.has (selectedAssets s) id); cbn; tauto.
    + apply String.eqb_neq in Ex. rewrite (H4 x Ex). now apply H2.
Qed.

Lemma length_of_list (l : list string) :
  List.length (StringSet.of_list l) <= List.length l.
Proof.
  unfold StringSet.of_list.
  assert (H : forall acc,
             List.length (fold_left StringSet.add l acc)
             <= List.length acc + List.length l).
  { induction l as [| x l IH]; intros acc; cbn [fold_left List.length];
      [lia |].
    specialize (IH (StringSet.add acc x)). unfold StringSet.add in *.
    destruct (StringSet.has acc x); [lia |].
    rewrite length_app in IH. cbn [List.length] in IH. lia. }
  apply (H StringSet.empty).
Qed.

(** Select-all selects the view: afterwards the selection holds, once
    each, exactly the identifiers of the assets that pass the view
    filters, whatever was selected before; the candidate list is
    untouched. *)
Theorem selectAll_selects_the_view :
  forall (platform : Platform) (s : State) (now : Z),
    exists w,
      run (selectAll s now) s = Some w
      /\ (forall id,
            In id (selectedAssets (state w))
            <-> exists asset, In asset (getFilteredAssets s now)
                              /\ _id asset = id)
      /\ NoDup (selectedAssets (state w))
      /\ StringSet.size (selectedAssets (state w))
         <= List.length (getFilteredAssets s now)
      /\ unusedAssets (state w) = unusedAssets s
      /\ trace w = [].
Proof.
  intros platform s now. eexists. split; [reflexivity |].
  cbn [state trace selectedAssets unusedAssets].
  split; [| split; [| split; [| split; reflexivity]]].
  - intros id. rewrite StringSetFacts.In_of_list, in_map_iff.
    split; intros [asset [H1 H2]]; exists asset; auto.
  - apply StringSetFacts.NoDup_of_list.
  - unfold StringSet.size.
    rewrite <- (length_map _id (getFilteredAssets s now)).
    apply length_of_list.
Qed.

Lemma Selects_filter {A} (P : A -> Prop) (f : A -> bool) (l : list A) :
  (forall a, f a = true <-> P a) -> Selects P l (filter f l).
Proof.
  intros H. induction l as [| a l IH]; cbn [filter]; [constructor |].
  destruct (f a) eqn:E.
  - apply Selects_keep; [now apply H | assumption].
  - apply Selects_drop; [| assumption]. intros Hp. apply H in Hp. congruence.
Qed.

Lemma Selects_all {A} (l : list A) : Selects (fun _ => True) l l.
Proof. induction l; constructor; auto. Qed.

Lemma Selects_compose {A} (P Q : A -> Prop) (l out out' : list A) :
  Selects P l out -> Selects Q out out' ->
  Selects (fun a => P a /\ Q a) l out'.
Proof.
  intros Hp. revert out'.
  induction Hp as [| a l out Ha _ IH | a l out Ha _ IH]; intros out' Hq.
  - inversion Hq. constructor.
  - inversion Hq as [| ? ? rest Hqa Hrest | ? ? rest Hqa Hrest]; subst.
    + apply Selects_keep; [split; assumption | now apply IH].
    + apply Selects_drop; [tauto | now apply IH].
  - apply Selects_drop; [tauto | now apply IH].
Qed.

Lemma Selects_ext {A} (P Q : A -> Prop) (l out : list A) :
  (forall a, P a <-> Q a) -> Selects P l out -> Selects Q l out.
Proof.
  intros H. induction 1 as [| a l out Ha _ IH | a l out Ha _ IH].
  - constructor.
  - apply Selects_keep; [now apply H | assumption].
  - apply Selects_drop; [now rewrite <- H | assumption].
Qed.

Lemma string_truthy_spec (s : string) :
  string_truthy s = true <-> s <> EmptyString.
Proof. destruct s; cbn; split; congruence || discriminate. Qed.

(** The view is the candidate list without the assets that fail one of
    the filters that are set, in the order of the list: the type filter
    when it is not [all], the size filter when its field is not empty, the
    age filter when its field is not empty; with none set the view is the
    whole list. *)
Theorem view_is_the_filtered_candidates :
  forall (platform : Platform) (s : State) (now : Z),
    Selects (passes_view s now) (unusedAssets s) (getFilteredAssets s now)
    /\ (forall asset,
          In asset (getFilteredAssets s now)
          <-> In asset (unusedAssets s) /\ passes_view s now asset)
    /\ (filterType s = filter_all -> filterSize s = EmptyString ->
        filterAge s = EmptyString ->
        getFilteredAssets s now = unusedAssets s).
Proof.
  intros platform s now.
  assert (Hs : Selects (passes_view s now) (unusedAssets s)
                 (getFilteredAssets s now)).
  { unfold getFilteredAssets, passes_view.
    set (P1 := fun asset : AssetInfo =>
                 match filterType s with
                 | filter_all => True
                 | filter_image => _type asset = sanity_imageAsset
                 | filter_file => _type asset = sanity_fileAsset
                 end).
    set (P2 := fun asset : AssetInfo =>
                 filterSize s <> EmptyString ->
                 above_megabytes (number_or_0 (size asset)) (filterSize s) = true).
    set (P3 := fun asset : AssetInfo =>
                 filterAge s <> EmptyString ->
                 Date_lt (Date_new (_createdAt asset))
                   (days_ago now (filterAge s)) = true).
    apply (Selects_ext (fun a => (P1 a /\ P2 a) /\ P3 a));
      [intros a; unfold P1, P2, P3; tauto |].
    match goal with
    | |- Selects _ _ (if _ then filter ?f ?l else _) =>
        apply (Selects_compose _ _ _ l)
    end.
    - match goal with
      | |- Selects _ _ (if _ then filter ?f ?l else _) =>
          apply (Selects_compose _ _ _ l)
      end.
      + unfold P1. destruct (filterType s).
        * apply Selects_all.
        * apply Selects_filter. intros a.
          destruct (_type a); split; congruence || discriminate.
        * apply Selects_filter. intros a.
          destruct (_type a); split; congruence || discriminate.
      + unfold P2. destruct (string_truthy (filterSize s)) eqn:E.
        * apply string_truthy_spec in E. apply Selects_filter. tauto.
        * apply (Selects_ext (fun _ => True)); [| apply Selects_all].
          intros a. split; [| auto]. intros _ Hne.
          apply string_truthy_spec in Hne. congruence.
    - unfold P3. destruct (string_truthy (filterAge s)) eqn:E.
      + apply string_truthy_spec in E. apply Selects_filter. tauto.
      + apply (Selects_ext (fun _ => True)); [| apply Selects_all].
        intros a. split; [| auto]. intros _ Hne.
        apply string_truthy_spec in Hne. congruence. }
  split; [assumption |]. split; [now apply Selects_In |].
  intros Ht Hsz Hage. unfold getFilteredAssets. now rewrite Ht, Hsz, Hage.
Qed.

(* ================================================================= *)
(** ** From the scan to the deletion *)

Section Browsing.

Context {platform : Platform}.

Lemma browse_step_is_step (s s' : State) : browse_step s s' -> step s s'.
Proof.
  intros H.
  destruct H as [s now asset w Hin H | s now w H | s w H | s shown w H
                | s v w H | s v w H | s v w H].
  - now apply (step_toggle s now asset w).
  - now apply (step_selectAll s now w).
  - now apply step_clearSelection.
  - now apply (step_confirmDialog s shown w).
  - now apply (step_filterType s v w).
  - now apply (step_filterSize s v w).
  - now apply (step_filterAge s v w).
Qed.

Lemma browse_step_keeps_candidates (s s' : State) :
  browse_step s s' -> unusedAssets s' = unusedAssets s.
Proof.
  intros H.
  destruct H as [s now asset w Hin H | s now w H | s w H | s shown w H
                | s v w H | s v w H | s v w H];
    unfold run, toggleAssetSelection, selectAll, clearSelection,
      setSelectedAssets, setShowConfirmDialog, setFilterType, setFilterSize,
      setFilterAge, modify in H;
    injection H as <-; reflexivity.
Qed.

Lemma browsing_keeps_candidates (s s' : State) :
  browsing s s' ->
  unusedAssets s' = unusedAssets s
  /\ (selection_within_candidates s -> selection_within_candidates s').
Proof.
  induction 1 as [s | s s' s'' _ [IHu IHs] Hstep].
  - auto.
  - split.
    + rewrite (browse_step_keeps_candidates _ _ Hstep). assumption.
    + intros Hinv.
      apply (step_keeps_selection_within _ _ (browse_step_is_step _ _ Hstep)).
      now apply IHs.
Qed.

End Browsing.

(** No asset that the scan saw referenced is committed for deletion:
    after a scan whose queries answered and that ended without logging an
    error, whatever the operator then toggles, selects, clears or filters,
    a deletion run, with any props, any client behaviour and any
    callbacks, commits only identifiers of candidates of that scan, none
    of which the direct query or a nested field gave.  (A scan that logs
    an error keeps the candidates of before, which it did not check.) *)
Theorem no_referenced_asset_is_committed :
  forall (platform : Platform) (p p' : DeleteUnusedAssetsProps)
         (callbacks callbacks' : Callbacks)
         (s s' : State) (scanned deleted_world : World)
         inventory docs nested (fuel : nat),
    fetch_allAssets (client p) (typeFilter p) (maxAssets p) = Ok inventory ->
    fetch_referencedAssets (client p) (typeFilter p) = Ok docs ->
    fetch_complexRefs (client p) = Ok nested ->
    run (scanForUnusedAssets_with p callbacks) s = Some scanned ->
    filter is_console_error (trace scanned) = [] ->
    browsing (state scanned) s' ->
    run (handleDelete_with p' callbacks' fuel s') s' = Some deleted_world ->
    forall id,
      In id (committed_ids (trace deleted_world)) ->
      (exists asset,
          In asset inventory /\ _id asset = id
          /\ is_candidate p (collect_references docs nested) asset)
      /\ ~ referenced_directly docs id
      /\ ~ referenced_nested nested id.
Proof.
  intros platform p p' callbacks callbacks' s s' scanned deleted_world
    inventory docs nested fuel Ha Hd Hn Hscan Hquiet Hbrowse Hdel id Hid.
  rewrite scan_whatever_the_callbacks in Hscan.
  destruct (scan_cases p s scanned Hscan)
    as [[inventory' [docs' [nested' [out [Ha' [Hd' [Hn' [Hf [Hu [Hsel _]]]]]]]]]]
       | [[n [e [Hfail _]]]
         | [inventory' [docs' [nested' [e [_ [_ [_ [_ [_ [_ [_ [_ [_ [_ [_ Ht]]]]]]]]]]]]]]]]].
  - rewrite Ha in Ha'. rewrite Hd in Hd'. rewrite Hn in Hn'.
    injection Ha' as <-. injection Hd' as <-. injection Hn' as <-.
    destruct (browsing_keeps_candidates _ _ Hbrowse) as [Hsame Hinv].
    assert (Hwithin : selection_within_candidates s').
    { apply Hinv. intros x Hx. rewrite Hsel in Hx. contradiction. }
    apply (committed_within_selection_with p' callbacks' fuel s' deleted_world
             Hdel) in Hid.
    apply Hwithin in Hid. unfold candidate_ids in Hid.
    rewrite Hsame, Hu in Hid. apply in_map_iff in Hid.
    destruct Hid as [asset [<- Hin]].
    pose proof (filter_result_Selects _ _ _ _ Hf) as Hs.
    apply (Selects_In _ _ _ Hs) in Hin. destruct Hin as [Hin Hcand].
    split; [exists asset; auto |].
    destruct Hcand as [Hnot _]. rewrite In_collect_references in Hnot. tauto.
  - exfalso. destruct n as [| [| [| n]]]; cbn [scan_fails_at] in Hfail.
    + congruence.
    + destruct Hfail as [_ Hfail]. congruence.
    + destruct Hfail as [_ [_ Hfail]]. congruence.
    + contradiction.
  - exfalso. destruct (scan_error_report_events p e) as [_ [_ [_ Hc]]].
    rewrite Ht, filter_app, Hc in Hquiet.
    destruct (filter is_console_error (scan_queries p)); discriminate.
Qed.

(* ================================================================= *)
(** ** The further properties on examples *)

Lemma scan_only_reads_example :
  filter is_mutating_call (trace scanned_references) = []
  /\ filter is_completion (trace scanned_references) = []
  /\ (exists n, 1 <= n <= 3
                /\ filter is_fetch (trace scanned_references)
                   = firstn n (scan_queries referencing_props))
  /\ isScanning (state scanned_references) = false
  /\ scanProgress (state scanned_references) = 0.
Proof.
  apply (scan_only_reads example_platform referencing_props initialState
           scanned_references).
  reflexivity.
Defined.

Lemma scan_candidates_example :
  ((forall asset,
      In asset (unusedAssets (state scanned_references)) ->
      In asset five_assets
      /\ ~ referenced_directly [{| referencedAssets := Some ["B"] |}] (_id asset)
      /\ ~ referenced_nested
             [{| complexRefs := Some [Some "D"; None; Some EmptyString];
                 contentRefs := None;
                 blockRefs := None |}] (_id asset))
   /\ List.length (unusedAssets (state scanned_references))
      <= totalAssets (state scanned_references)
   /\ totalSize (state scanned_references)
      = sum_sizes (unusedAssets (state scanned_references))
   /\ selectedAssets (state scanned_references) = StringSet.empty)
  /\ (trace unbalanced_scan
      = scan_queries unbalanced_props
        ++ [ConsoleError
              (ErrorObject
                 "Invalid regular expression: /(/: Unterminated group");
            OnError "Invalid regular expression: /(/: Unterminated group"]
      /\ unusedAssets (state unbalanced_scan) = one_asset
      /\ selectedAssets (state unbalanced_scan) = ["A"]
      /\ exists pattern error,
           In pattern (excludePatterns unbalanced_props)
           /\ RegExp_new (platform := example_platform) (replace_stars pattern)
              = Throw error
           /\ message (state unbalanced_scan)
              = MsgScanError (message_or "Scan failed" error)).
Proof.
  split.
  - apply (proj1 (scan_candidates_are_unreferenced example_platform
                    referencing_props returning initialState
                    scanned_references five_assets
                    [{| referencedAssets := Some ["B"] |}]
                    [{| complexRefs := Some [Some "D"; None; Some EmptyString];
                        contentRefs := None;
                        blockRefs := None |}]
                    eq_refl eq_refl eq_refl eq_refl)).
    reflexivity.
  - split; [reflexivity |].
    apply (proj2 (scan_candidates_are_unreferenced example_platform
                    unbalanced_props returning one_selected unbalanced_scan
                    five_assets [] [] eq_refl eq_refl eq_refl eq_refl)).
    discriminate.
Defined.

Lemma invalid_pattern_example :
  exists w,
    run (scanForUnusedAssets_with (platform := example_platform)
           unbalanced_props complaining) one_selected = Some w
    /\ trace w
       = scan_queries unbalanced_props
         ++ scan_error_report unbalanced_props
              (ErrorObject
                 "Invalid regular expression: /(/: Unterminated group")
    /\ ErrorObject "Invalid regular expression: /(/: Unterminated group"
       = ErrorObject "Invalid regular expression: /(/: Unterminated group"
    /\ message (state w)
       = MsgScanError "Invalid regular expression: /(/: Unterminated group"
    /\ unusedAssets (state w) = one_asset
    /\ selectedAssets (state w) = ["A"]
    /\ totalSize (state w) = 10%N
    /\ totalAssets (state w) = 5
    /\ isScanning (state w) = false
    /\ scanProgress (state w) = 0.
Proof.
  apply (invalid_pattern_fails_the_scan example_platform unbalanced_props
           complaining one_selected five_assets [] [] "(" []
           (ErrorObject "Invalid regular expression: /(/: Unterminated group")
           eq_refl eq_refl eq_refl eq_refl eq_refl).
  exists (example_asset "A" "a.jpg" 10 "100").
  split; [now left |]. split.
  - intros [doc [ids [[] _]]].
  - intros [_ [doc [[] _]]].
Defined.

Lemma fewer_candidates_example :
  Selects (is_candidate (platform := example_platform) hero_props ["image-def"])
          hero_inventory []
  /\ (forall asset, In asset [] -> In asset hero_inventory)
  /\ 0 <= 2.
Proof.
  apply (more_references_fewer_candidates example_platform scan_props hero_props
           [] ["image-def"] hero_inventory hero_inventory []).
  - reflexivity.
  - intros pattern [].
  - intros id [].
  - reflexivity.
  - reflexivity.
Defined.

Lemma cutoff_example :
  (forall asset,
     In asset [example_asset "A" "a.jpg" 10 "100";
               example_asset "B" "b.jpg" 20 "200"] ->
     exists created limit,
       time_value (Date_new (Platform := example_platform) (_createdAt asset))
       = Some created
       /\ Some 250%Z = Some limit
       /\ (created < limit)%Z)
  /\ (Some 250%Z = None ->
      [example_asset "A" "a.jpg" 10 "100"; example_asset "B" "b.jpg" 20 "200"]
      = []).
Proof.
  apply (invalid_dates_are_never_old example_platform cutoff_props []
           five_assets
           [example_asset "A" "a.jpg" 10 "100"; example_asset "B" "b.jpg" 20 "200"]
           {| time_value := Some 250%Z |}); reflexivity.
Defined.

Lemma match_all_example :
  (forall asset,
     isExcluded (platform := example_platform) unbalanced_first_props asset
     <> Ok false)
  /\ (forall references inventory out,
        filter_result (is_unused (platform := example_platform)
                                 unbalanced_first_props references) inventory
        = Ok out ->
        out = [])
  /\ (patterns_compile (platform := example_platform) unbalanced_first_props ->
      (forall asset,
         isExcluded (platform := example_platform) unbalanced_first_props asset
         = Ok true)
      /\ (forall references inventory,
            filter_result (is_unused (platform := example_platform)
                                     unbalanced_first_props references)
                          inventory
            = Ok [])).
Proof.
  apply (match_all_pattern_excludes_everything example_platform
           unbalanced_first_props).
  right. right. now left.
Defined.

Lemma plain_pattern_example :
  (isExcluded (platform := example_platform)
              (with_excludePatterns scan_props ["HERO"]) banner_hero = Ok true
   <-> contains_letters "banner-hero.jpg" "HERO"
       \/ contains_letters "image-def" "HERO")
  /\ (isExcluded (platform := example_platform)
                 (with_excludePatterns scan_props ["HERO"]) banner_hero
      = Ok false
      <-> ~ contains_letters "banner-hero.jpg" "HERO"
          /\ ~ contains_letters "image-def" "HERO").
Proof.
  apply (plain_pattern_is_searched_anywhere example_platform scan_props
           banner_hero "HERO").
  reflexivity.
Defined.

Lemma dot_example :
  exists regex,
    RegExp_new (platform := example_platform)
               (replace_stars ("logo" ++ "." ++ "png")) = Ok regex
    /\ forall input,
         ascii_text input ->
         (RegExp_test regex input = true <->
          exists u pre' c post' v,
            input = (u ++ pre' ++ String c post' ++ v)%string
            /\ same_letters "logo" pre'
            /\ ~ line_terminator c
            /\ same_letters "png" post').
Proof.
  apply (dot_is_a_wildcard example_platform "logo" "png"); reflexivity.
Defined.

Lemma typeFilter_example :
  typeFilter (with_assetTypes scan_props [image; file])
  = typeFilter (with_assetTypes scan_props [file; image; file]).
Proof.
  apply (typeFilter_by_membership (with_assetTypes scan_props [image; file])
           (with_assetTypes scan_props [file; image; file])).
  intros kind. cbn. tauto.
Defined.

Lemma commits_example :
  (forall id, In id (committed_ids (trace partial_run)) ->
              In id ["A"; "B"; "C"; "D"; "E"])
  /\ (selectedAssets five_selected = [] ->
      trace partial_run = [] /\ state partial_run = five_selected).
Proof.
  apply (run_commits_only_selected second_batch_fails 5 five_selected partial_run).
  reflexivity.
Defined.

Lemma tidy_example :
  trace complained_run
  = [Transaction; Commit ["A"; "B"]; Transaction; Commit ["C"; "D"];
     Transaction; Commit ["E"];
     OnComplete {| deleted := 3; savedSpace := 80;
                   errors := ["Batch 2: boom"] |};
     OnError "handler failed"]
  /\ isDeleting (state complained_run) = false
  /\ showConfirmDialog (state complained_run) = false
  /\ List.length (filter is_completion (trace complained_run)) <= 1
  /\ List.length (filter is_error_callback (trace complained_run)) <= 1
  /\ (forall results,
        In (OnComplete results) (trace complained_run) ->
        selectedAssets (state complained_run) = StringSet.empty
        /\ unusedAssets (state complained_run)
           = without_ids (selectedAssets five_selected)
                         (unusedAssets five_selected))
  /\ (forall error,
        In (OnError error) (trace complained_run) ->
        (exists results thrown,
            In (OnComplete results) (trace complained_run)
            /\ onComplete_throws complaining results = Some thrown
            /\ error = message_or "Delete operation failed" thrown)
        \/ ((forall results, ~ In (OnComplete results) (trace complained_run))
            /\ selectedAssets (state complained_run)
               = selectedAssets five_selected
            /\ unusedAssets (state complained_run)
               = unusedAssets five_selected))
  /\ ((forall results, onComplete_throws complaining results = None) ->
      List.length (filter is_completion (trace complained_run))
      + List.length (filter is_error_callback (trace complained_run)) <= 1).
Proof.
  split; [reflexivity |].
  apply (run_ends_tidy second_batch_fails complaining 5 five_selected
           complained_run).
  - discriminate.
  - reflexivity.
Defined.

Lemma aborted_run_example :
  exists w,
    run (handleDelete aborting_props 5 five_selected) five_selected = Some w
    /\ trace w = [Transaction; Commit ["A"; "B"]; Transaction; OnError "offline"]
    /\ unusedAssets (state w) = five_assets
    /\ selectedAssets (state w) = ["A"; "B"; "C"; "D"; "E"]
    /\ message (state w) = MsgDeleteError "offline"
    /\ isDeleting (state w) = false
    /\ showConfirmDialog (state w) = false.
Proof.
  apply (transaction_failure_aborts_the_run aborting_props five_selected 5 1
           (ErrorObject "offline")).
  - reflexivity.
  - cbn. lia.
  - vm_compute. lia.
  - cbn. lia.
  - intros j Hj. destruct j as [| j]; [reflexivity | lia].
  - reflexivity.
Defined.

Lemma accounting_example :
  exists w,
    run (handleDelete second_batch_fails 5 five_selected) five_selected = Some w
    /\ trace w
       = [Transaction; Commit ["A"; "B"]; Transaction; Commit ["C"; "D"];
          Transaction; Commit ["E"];
          OnComplete {| deleted := 3; savedSpace := 80;
                        errors := ["Batch 2: boom"] |}]
    /\ message (state w) = MsgDeleted 3 80 1
    /\ 3 + 2 = 5
    /\ 1 = 1.
Proof.
  apply (run_accounts_for_every_batch second_batch_fails five_selected 5).
  - reflexivity.
  - cbn. lia.
  - discriminate.
  - cbn. lia.
  - reflexivity.
Defined.

Lemma preview_example :
  exists preview real,
    run (handleDelete (with_dryRun scan_props true) 5 five_selected)
        five_selected = Some preview
    /\ run (handleDelete (with_dryRun scan_props false) 5 five_selected)
           five_selected = Some real
    /\ filter is_completion (trace preview)
       = [OnComplete {| deleted := 5; savedSpace := 150; errors := [] |}]
    /\ filter is_completion (trace real)
       = [OnComplete {| deleted := 5; savedSpace := 150; errors := [] |}]
    /\ message (state preview) = MsgDryRun 5 150
    /\ message (state real) = MsgDeleted 5 150 0
    /\ unusedAssets (state preview) = unusedAssets (state real)
    /\ committed_ids (trace real) = ["A"; "B"; "C"; "D"; "E"]
    /\ committed_ids (trace preview) = [].
Proof.
  apply (dry_run_predicts_the_run scan_props five_selected 5).
  - cbn. lia.
  - discriminate.
  - repeat (constructor;
            [cbn; intros H;
             repeat (destruct H as [H | H]; [discriminate H |]); exact H |]).
    constructor.
  - cbn. lia.
  - reflexivity.
  - reflexivity.
Defined.

Lemma hang_example :
  run (handleDelete zero_size_props 7 five_selected) five_selected = None.
Proof.
  apply (zero_batch_size_hangs zero_size_props five_selected 7).
  - reflexivity.
  - discriminate.
  - left. reflexivity.
Defined.

Lemma browsing_all_selected :
  browsing (platform := example_platform) (state scanned_references)
           (state all_selected).
Proof.
  apply (browsing_on (state scanned_references) (state scanned_references)).
  - apply browsing_here.
  - apply (browse_selectAll (state scanned_references) 0%Z all_selected).
    reflexivity.
Defined.

Lemma no_referenced_commit_example :
  committed_ids (trace all_deleted) = ["A"; "C"; "E"]
  /\ forall id,
       In id (committed_ids (trace all_deleted)) ->
       (exists asset,
           In asset five_assets /\ _id asset = id
           /\ is_candidate (platform := example_platform) referencing_props
                (collect_references
                   [{| referencedAssets := Some ["B"] |}]
                   [{| complexRefs := Some [Some "D"; None; Some EmptyString];
                       contentRefs := None;
                       blockRefs := None |}])
                asset)
       /\ ~ referenced_directly [{| referencedAssets := Some ["B"] |}] id
       /\ ~ referenced_nested
              [{| complexRefs := Some [Some "D"; None; Some EmptyString];
                  contentRefs := None;
                  blockRefs := None |}] id.
Proof.
  split; [reflexivity |].
  apply (no_referenced_asset_is_committed example_platform referencing_props
           referencing_props returning complaining
           initialState (state all_selected)
           scanned_references all_deleted five_assets
           [{| referencedAssets := Some ["B"] |}]
           [{| complexRefs := Some [Some "D"; None; Some EmptyString];
               contentRefs := None;
               blockRefs := None |}]
           3).
  - reflexivity.
  - reflexivity.
  - reflexivity.
  - reflexivity.
  - reflexivity.
  - exact browsing_all_selected.
  - reflexivity.
Defined.

Lemma shown_name_example :
  isExcluded (platform := example_platform) hero_props hero_banner <> Ok false
  /\ (patterns_compile (platform := example_platform) hero_props ->
      isExcluded (platform := example_platform) hero_props hero_banner
      = Ok true)
  /\ (getAssetDisplayName hero_banner = EmptyString ->
      _id hero_banner = EmptyString).
Proof.
  apply (shown_name_matched_is_excluded example_platform hero_props hero_banner
           "hero-*"
           {| RegExp_test :=
                RegExp.test
                  [RegExp.Lit "h"; RegExp.Lit "e"; RegExp.Lit "r";
                   RegExp.Lit "o"; RegExp.Lit "-"; RegExp.AnyStar] |}).
  - now left.
  - reflexivity.
  - reflexivity.
Defined.
